(** * Stocks_Chart: the per-ticker fetch, enrich, aggregate pipeline

    A shallow embedding of [src/Stocks_Chart.py].  Data frames live in a
    heap of mutable objects (the program assigns columns in place), the
    Streamlit calls and the calls to the market-data source are recorded
    as a trace of events, and Python exceptions are an explicit outcome.
    Floating-point cells are modelled by exact rationals together with a
    "no value" marker (NaN).

    The program computes nothing itself: the numbers come from pandas
    and from the [ta] package, which are not part of the repository.
    The modules [Pandas] and [Ta] below describe the behaviour of the
    calls the program makes, as those packages define it; they are
    models of code outside [src/], and every statement about the values
    of the derived columns rests on them. *)

From Stdlib Require Import String Ascii List Bool Arith ZArith QArith Lia Lqa.
From Stdlib Require Import Qabs DecimalString Sorted.
Import ListNotations.

Set Implicit Arguments.

Open Scope string_scope.
Open Scope list_scope.

(** ** Dates *)

Record date := mkDate { year : nat; month : nat; day : nat }.

Definition date_eqb (a b : date) : bool :=
  (year a =? year b)%nat && (month a =? month b)%nat && (day a =? day b)%nat.

(** [a <= b] in calendar order. *)
Definition date_leb (a b : date) : bool :=
  (year a <? year b)%nat
  || ((year a =? year b)%nat
      && ((month a <? month b)%nat
          || ((month a =? month b)%nat && (day a <=? day b)%nat))).

Definition digits (n : nat) : string := NilEmpty.string_of_uint (Nat.to_uint n).

Fixpoint zeros (k : nat) : string :=
  match k with
  | O => EmptyString
  | S k' => String "0"%char (zeros k')
  end.

(** Zero padding on the left up to [k] characters. *)
Definition zfill (k : nat) (s : string) : string :=
  (zeros (k - String.length s) ++ s)%string.

(** [d.strftime("%Y-%m-%d")] *)
Definition strftime (d : date) : string :=
  (zfill 4 (digits (year d)) ++ "-" ++ zfill 2 (digits (month d)) ++ "-"
   ++ zfill 2 (digits (day d)))%string.

(** ** Cells and values *)

(** A float cell: [None] is NaN, the "no value" marker. *)
Definition cell := option Q.

(** What a frame, a row or a sheet can hold. *)
Inductive value :=
| VNum (q : Q)
| VNaN
| VStr (s : string)
| VDate (d : date).

Definition of_cell (c : cell) : value :=
  match c with
  | Some q => VNum q
  | None => VNaN
  end.

Definition is_nan (v : value) : bool :=
  match v with VNaN => true | _ => false end.

Definition is_numeric (v : value) : bool :=
  match v with VNum _ => true | _ => false end.

(** ** Exceptions and outcomes *)

(** An exception is represented by its text, [str(e)]. *)
Definition exn := string.

Inductive outcome (A : Type) :=
| Ok (a : A)
| Raise (e : exn).
Arguments Ok {A} a.
Arguments Raise {A} e.

(** ** Float arithmetic on cells *)

Module Float.

Definition lift2 (f : Q -> Q -> Q) (a b : cell) : cell :=
  match a, b with
  | Some x, Some y => Some (Qred (f x y))
  | _, _ => None
  end.

Definition add := lift2 Qplus.
Definition sub := lift2 Qminus.
Definition mul := lift2 Qmult.

(** A division by zero gives a non-finite float (inf or NaN); the model
    has no infinities and marks it as "no value". *)
Definition div (a b : cell) : cell :=
  match a, b with
  | Some x, Some y => if Qeq_bool y 0 then None else Some (Qred (x / y))
  | _, _ => None
  end.

Definition abs (a : cell) : cell := option_map (fun x => Qred (Qabs x)) a.

Definition of_nat (n : nat) : Q := inject_Z (Z.of_nat n).

(** Square root, exact on squares of rationals and rounded down to a
    multiple of the denominator otherwise. *)
Definition sqrt (q : Q) : Q :=
  let r := Qred q in
  Qred (Z.sqrt (Qnum r * Zpos (Qden r)) # Qden r).

Definition sum (qs : list Q) : Q := fold_right Qplus 0 qs.

Definition mean (qs : list Q) : Q := Qred (sum qs / of_nat (length qs)).

(** Population standard deviation ([ddof=0]). *)
Definition std0 (qs : list Q) : Q :=
  let m := mean qs in
  sqrt (mean (map (fun x => (x - m) * (x - m)) qs)).

(** NaN-propagating maximum and minimum ([np.amax], [np.amin]). *)
Definition max (a b : cell) : cell :=
  match a, b with
  | Some x, Some y => Some (if Qle_bool x y then y else x)
  | _, _ => None
  end.

Definition min (a b : cell) : cell :=
  match a, b with
  | Some x, Some y => Some (if Qle_bool x y then x else y)
  | _, _ => None
  end.

(** Comparisons with NaN are false. *)
Definition gt (a b : cell) : bool :=
  match a, b with
  | Some x, Some y => negb (Qle_bool x y)
  | _, _ => false
  end.

Definition lt (a b : cell) : bool := gt b a.

Definition neg (a : cell) : cell := option_map (fun x => Qred (- x)) a.

End Float.

(** ** The part of pandas the program uses on a float series

    A model of the third-party package, not of code under [src/]. *)

Module Pandas.

Fixpoint all_some {A : Type} (l : list (option A)) : option (list A) :=
  match l with
  | [] => Some []
  | Some x :: l' => option_map (cons x) (all_some l')
  | None :: _ => None
  end.

(** [s.rolling(window=w)] followed by an aggregation: [min_periods]
    defaults to the window size, so a row has a value only when the
    [w] trailing cells exist and none of them is NaN. *)
Definition rolling (w : nat) (agg : list Q -> Q) (xs : list cell) : list cell :=
  map (fun i =>
         if (S i <? w)%nat then None
         else option_map agg (all_some (firstn w (skipn (S i - w) xs))))
      (seq 0 (length xs)).

Definition rolling_mean (w : nat) := rolling w Float.mean.
Definition rolling_std0 (w : nat) := rolling w Float.std0.

(** [s.shift(1)] *)
Definition shift1 (xs : list cell) : list cell :=
  match xs with
  | [] => []
  | _ => None :: removelast xs
  end.

(** [s.diff(1)] *)
Definition diff1 (xs : list cell) : list cell :=
  map (fun p => Float.sub (fst p) (snd p)) (combine xs (shift1 xs)).

Definition dropna (xs : list cell) : list cell :=
  filter (fun c => match c with Some _ => true | None => false end) xs.

(** State of the exponentially weighted mean: the running average, the
    weight of the past, the number of observations seen. *)
Record ewm_state := mkEwm { weighted : cell; old_wt : Q; nobs : nat }.

Definition ewm_init : ewm_state := mkEwm None 1 0.

(** One step of [ewm(alpha, adjust=False, ignore_na=False)]. *)
Definition ewm_step (alpha : Q) (st : ewm_state) (cur : cell) : ewm_state :=
  match weighted st, cur with
  | Some w, Some x =>
      let ow := old_wt st * (1 - alpha) in
      mkEwm (Some (Qred ((ow * w + alpha * x) / (ow + alpha)))) 1 (S (nobs st))
  | Some w, None => mkEwm (Some w) (Qred (old_wt st * (1 - alpha))) (nobs st)
  | None, Some x => mkEwm (Some x) (old_wt st) (S (nobs st))
  | None, None => st
  end.

Fixpoint ewm_run (alpha : Q) (minp : nat) (st : ewm_state) (xs : list cell)
  : list cell :=
  match xs with
  | [] => []
  | x :: xs' =>
      let st' := ewm_step alpha st x in
      (if (minp <=? nobs st')%nat then weighted st' else None)
        :: ewm_run alpha minp st' xs'
  end.

(** [s.ewm(alpha=alpha, min_periods=minp, adjust=False).mean()] *)
Definition ewm_mean (alpha : Q) (minp : nat) (xs : list cell) : list cell :=
  ewm_run alpha minp ewm_init xs.

Definition alpha_of_span (span : nat) : Q := 2 / (Float.of_nat span + 1).

End Pandas.

(** ** The indicator classes of the [ta] package the program uses

    A model of the third-party package, not of code under [src/].
    Each class computes its series when it is built; with the default
    [fillna=False] the warm-up rows keep the NaN of the windowed pandas
    operation underneath. *)

Module Ta.

Definition zip (f : cell -> cell -> cell) (xs ys : list cell) : list cell :=
  map (fun p => f (fst p) (snd p)) (combine xs ys).

Definition scale (k : Q) (xs : list cell) : list cell :=
  map (Float.mul (Some k)) xs.

(** *** [volatility.BollingerBands(close, window, window_dev=2)] *)

Record BollingerBands := mkBB {
  bb_mavg : list cell;
  bb_mstd : list cell;
  bb_hband : list cell;
  bb_lband : list cell
}.

Definition bollinger_bands (close : list cell) (window : nat) (window_dev : Q)
  : BollingerBands :=
  let mavg := Pandas.rolling_mean window close in
  let mstd := Pandas.rolling_std0 window close in
  mkBB mavg mstd
       (zip Float.add mavg (scale window_dev mstd))
       (zip Float.sub mavg (scale window_dev mstd)).

Definition bollinger_hband (bb : BollingerBands) : list cell := bb_hband bb.
Definition bollinger_lband (bb : BollingerBands) : list cell := bb_lband bb.

(** The band width is reported in percent of the middle band. *)
Definition bollinger_wband (bb : BollingerBands) : list cell :=
  map (fun c => Float.mul c (Some 100))
      (zip Float.div (zip Float.sub (bb_hband bb) (bb_lband bb)) (bb_mavg bb)).

(** *** [momentum.RSIIndicator(close, window)] *)

(** [diff.where(diff > 0, 0.0)]: a NaN difference fails the test and
    becomes [0.0]. *)
Definition up_direction (diff : list cell) : list cell :=
  map (fun d => if Float.gt d (Some 0) then d else Some 0) diff.

Definition down_direction (diff : list cell) : list cell :=
  map (fun d => Float.neg (if Float.lt d (Some 0) then d else Some 0)) diff.

Definition rsi_cell (emaup emadn : cell) : cell :=
  match emadn with
  | Some dn =>
      if Qeq_bool dn 0 then Some 100
      else Float.sub (Some 100)
                     (Float.div (Some 100)
                                (Float.add (Some 1) (Float.div emaup emadn)))
  | None => None
  end.

Definition rsi (close : list cell) (window : nat) : list cell :=
  let diff := Pandas.diff1 close in
  let alpha := 1 / Float.of_nat window in
  let emaup := Pandas.ewm_mean alpha window (up_direction diff) in
  let emadn := Pandas.ewm_mean alpha window (down_direction diff) in
  zip rsi_cell emaup emadn.

(** *** [trend.MACD(close)], with the defaults 26, 12, 9 *)

Definition ema (series : list cell) (periods : nat) : list cell :=
  Pandas.ewm_mean (Pandas.alpha_of_span periods) periods series.

Record MACD := mkMACD {
  macd_line : list cell;
  macd_sign : list cell;
  macd_hist : list cell
}.

Definition macd_indicator (close : list cell)
           (window_slow window_fast window_sign : nat) : MACD :=
  let emafast := ema close window_fast in
  let emaslow := ema close window_slow in
  let line := zip Float.sub emafast emaslow in
  let sign := ema line window_sign in
  mkMACD line sign (zip Float.sub line sign).

Definition macd (m : MACD) : list cell := macd_line m.
Definition macd_signal (m : MACD) : list cell := macd_sign m.
Definition macd_diff (m : MACD) : list cell := macd_hist m.

(** *** [trend.ADXIndicator(high, low, close, window)]

    No property below depends on the values this class produces; the
    computed examples depend only on whether it fails.  It is modelled
    because the enricher calls it last and may fail there. *)

Definition sum_cells (xs : list cell) : cell :=
  fold_right Float.add (Some 0) xs.

(** Wilder's running sum: [a[i] = a[i-1] - a[i-1]/w + x[i]]. *)
Fixpoint wilder_run (w : nat) (prev : cell) (xs : list cell) : list cell :=
  match xs with
  | [] => []
  | x :: xs' =>
      let cur :=
        Float.add (Float.sub prev (Float.div prev (Some (Float.of_nat w)))) x in
      cur :: wilder_run w cur xs'
  end.

(** The smoothed array of length [n - (w - 1)]: the first entry sums
    the first [w] values that are not NaN, the loop stops one short of
    the end and leaves the last entry at zero. *)
Definition wilder_sums (w : nat) (series : list cell) : outcome (list cell) :=
  let m := (length series - (w - 1))%nat in
  match m with
  | O => Raise "index 0 is out of bounds for axis 0 with size 0"
  | S _ =>
      let first := sum_cells (firstn w (Pandas.dropna series)) in
      Ok (first
            :: wilder_run w first (firstn (m - 2) (skipn (w + 1) series))
            ++ (if (2 <=? m)%nat then [Some 0] else []))
  end.

Record ADXIndicator := mkADX {
  adx_window : nat;
  adx_trs : list cell;
  adx_dip : list cell;
  adx_din : list cell
}.

Definition directional (a b : cell) : cell :=
  Float.abs (if Float.gt a b && Float.gt a (Some 0)
             then a else Float.mul (Some 0) a).

Definition adx_indicator (high low close : list cell) (window : nat)
  : outcome ADXIndicator :=
  if (window =? 0)%nat then Raise "window may not be 0" else
  let close_shift := Pandas.shift1 close in
  let pdm := zip Float.max high close_shift in
  let pdn := zip Float.min low close_shift in
  let diff_directional_movement := zip Float.sub pdm pdn in
  let diff_up := zip Float.sub high (Pandas.shift1 high) in
  let diff_down := zip Float.sub (Pandas.shift1 low) low in
  let pos := zip directional diff_up diff_down in
  let neg := zip directional diff_down diff_up in
  match wilder_sums window diff_directional_movement with
  | Raise e => Raise e
  | Ok trs =>
      match wilder_sums window pos, wilder_sums window neg with
      | Ok dip, Ok din => Ok (mkADX window trs dip din)
      | Raise e, _ => Raise e
      | _, Raise e => Raise e
      end
  end.

(** Wilder's running average of the directional index. *)
Fixpoint adx_run (w : nat) (prev : cell) (dx : list cell) : list cell :=
  match dx with
  | [] => []
  | d :: dx' =>
      let cur :=
        Float.div (Float.add (Float.mul prev (Some (Float.of_nat (w - 1)))) d)
                  (Some (Float.of_nat w)) in
      cur :: adx_run w cur dx'
  end.

Definition mean_cells (xs : list cell) : cell :=
  Float.div (sum_cells xs) (Some (Float.of_nat (length xs))).

(** [adx()]: the series starts with [w - 1] zeros, then [w] more zeros,
    then the mean of the first [w] directional indexes at position
    [w] of the smoothed array; a series too short to have that
    position makes the assignment fail. *)
Definition adx (a : ADXIndicator) : outcome (list cell) :=
  let w := adx_window a in
  let m := length (adx_trs a) in
  let dip := map (Float.mul (Some 100)) (zip Float.div (adx_dip a) (adx_trs a)) in
  let din := map (Float.mul (Some 100)) (zip Float.div (adx_din a) (adx_trs a)) in
  let directional_index :=
    map (fun c => Float.mul (Some 100) (Float.abs c))
        (zip Float.div (zip Float.sub dip din) (zip Float.add dip din)) in
  if (m <=? w)%nat then
    Raise "index out of bounds"
  else
    let first := mean_cells (firstn w directional_index) in
    Ok (repeat (Some 0) (w - 1)
          ++ repeat (Some 0) w
          ++ first
          :: adx_run w first (firstn (m - (w + 1)) (skipn w directional_index))).

End Ta.

(** ** Data frames *)

(** A column label: its level-0 name and the names of the deeper levels
    of a multi-level header (none for a flat header). *)
Definition label := (string * list string)%type.

Definition flat (name : string) : label := (name, []).

Definition label_eq_dec (a b : label) : {a = b} + {a <> b}.
Proof. decide equality; [apply (list_eq_dec string_dec) | apply string_dec]. Defined.

Definition label_eqb (a b : label) : bool :=
  if label_eq_dec a b then true else false.

Record frame := mkFrame {
  index_name : option string;
  index : list value;
  columns : list (label * list value)
}.

(** [pd.DataFrame()] *)
Definition empty_frame : frame := mkFrame None [] [].

(** [len(df)] *)
Definition frame_len (f : frame) : nat := length (index f).

(** [df.empty]: no row or no column. *)
Definition frame_empty (f : frame) : bool :=
  (length (index f) =? 0)%nat || (length (columns f) =? 0)%nat.

Definition has_label (l : label) (f : frame) : bool :=
  existsb (fun c => label_eqb (fst c) l) (columns f).

(** [name in df.columns] *)
Definition has_column (name : string) (f : frame) : bool :=
  has_label (flat name) f.

(** [df[name]] *)
Definition get_column (name : string) (f : frame) : outcome (list value) :=
  match find (fun c => label_eqb (fst c) (flat name)) (columns f) with
  | Some c => Ok (snd c)
  | None => Raise name
  end.

Fixpoint replace_column (l : label) (vals : list value)
         (cols : list (label * list value)) : list (label * list value) :=
  match cols with
  | [] => []
  | c :: cols' =>
      (if label_eqb (fst c) l then (l, vals) else c) :: replace_column l vals cols'
  end.

(** [df[name] = vals]: an existing column is overwritten in place, a new
    one is appended after the others. *)
Definition set_column (name : string) (vals : list value) (f : frame) : frame :=
  mkFrame (index_name f) (index f)
          (if has_column name f
           then replace_column (flat name) vals (columns f)
           else columns f ++ [(flat name, vals)]).

(** [df.reset_index()]: the index becomes the first column, under its
    name, and rows are numbered from 0. *)
Definition reset_index (f : frame) : outcome frame :=
  let name :=
    match index_name f with
    | Some s => s
    | None => if has_column "index" f then "level_0" else "index"
    end in
  let depth := match columns f with [] => O | c :: _ => length (snd (fst c)) end in
  let l := (name, repeat EmptyString depth) in
  if has_label l f then
    Raise ("cannot insert " ++ name ++ ", already exists")%string
  else
    Ok (mkFrame None
                (map (fun i => VNum (inject_Z (Z.of_nat i))) (seq 0 (frame_len f)))
                ((l, index f) :: columns f)).

(** [df.columns = df.columns.get_level_values(0)] *)
Definition level0_columns (f : frame) : frame :=
  mkFrame (index_name f) (index f)
          (map (fun c => (flat (fst (fst c)), snd c)) (columns f)).

(** [df[[name; ...]]]: every column carrying one of the names, in the
    order asked for; a name that no column carries is a [KeyError]. *)
Fixpoint select_columns (names : list string) (f : frame)
  : outcome (list (label * list value)) :=
  match names with
  | [] => Ok []
  | name :: names' =>
      match filter (fun c => label_eqb (fst c) (flat name)) (columns f) with
      | [] => Raise ("['" ++ name ++ "'] not in index")%string
      | found =>
          match select_columns names' f with
          | Ok rest => Ok (found ++ rest)
          | Raise e => Raise e
          end
      end
  end.

Definition select (names : list string) (f : frame) : outcome frame :=
  match select_columns names f with
  | Ok cols => Ok (mkFrame (index_name f) (index f) cols)
  | Raise e => Raise e
  end.

(** [df.set_index(name)]: the column leaves the table and becomes the
    index. *)
Definition set_index (name : string) (f : frame) : outcome frame :=
  match filter (fun c => label_eqb (fst c) (flat name)) (columns f) with
  | [c] =>
      Ok (mkFrame (Some name) (snd c)
                  (filter (fun c => negb (label_eqb (fst c) (flat name))) (columns f)))
  | [] => Raise ("None of ['" ++ name ++ "'] are in the columns")%string
  | _ => Raise "Index data must be 1-dimensional"
  end.

(** A float series out of a column. *)
Fixpoint as_floats (vs : list value) : outcome (list cell) :=
  match vs with
  | [] => Ok []
  | v :: vs' =>
      match v, as_floats vs' with
      | VNum q, Ok cs => Ok (Some q :: cs)
      | VNaN, Ok cs => Ok (None :: cs)
      | _, Raise e => Raise e
      | _, _ => Raise "could not convert to float"
      end
  end.

(** ** Rows *)

(** A row taken out of a frame ([pd.Series]): labelled values in column
    order. *)
Definition row := list (string * value).

(** [df.iloc[-1]] *)
Definition iloc_last (f : frame) : outcome row :=
  match index f with
  | [] => Raise "single positional indexer is out-of-bounds"
  | _ => Ok (map (fun c => (fst (fst c), last (snd c) VNaN)) (columns f))
  end.

(** [row[name] = v] *)
Definition row_set (name : string) (v : value) (r : row) : row :=
  if existsb (fun c => String.eqb (fst c) name) r
  then map (fun c => if String.eqb (fst c) name then (name, v) else c) r
  else r ++ [(name, v)].

Definition row_get (name : string) (r : row) : option value :=
  option_map snd (find (fun c => String.eqb (fst c) name) r).

(** [df.index[-1].strftime("%Y-%m-%d")] *)
Definition last_index_strftime (f : frame) : outcome string :=
  match index f with
  | [] => Raise "index -1 is out of bounds for axis 0 with size 0"
  | i :: is' =>
      match last (i :: is') VNaN with
      | VDate d => Ok (strftime d)
      | _ => Raise "object has no attribute 'strftime'"
      end
  end.

(** The labels of a list of rows, each once, in order of first
    appearance. *)
Fixpoint union_labels (seen : list string) (rows : list row) : list string :=
  match rows with
  | [] => seen
  | r :: rows' =>
      union_labels
        (fold_left (fun acc c =>
                      if existsb (String.eqb (fst c)) acc then acc else acc ++ [fst c])
                   r seen)
        rows'
  end.

(** [pd.DataFrame(rows).reset_index(drop=True)]: one line per row, one
    column per label, NaN where a row lacks the label. *)
Definition frame_of_rows (rows : list row) : frame :=
  mkFrame None
          (map (fun i => VNum (inject_Z (Z.of_nat i))) (seq 0 (length rows)))
          (map (fun name =>
                  (flat name,
                   map (fun r => match row_get name r with
                                 | Some v => v
                                 | None => VNaN
                                 end) rows))
               (union_labels [] rows)).

(** ** Charts and workbooks *)

Record line_style := mkLine { color : string; width : nat; dash : option string }.

Inductive plot_trace :=
| Candlestick (x open high low close : list value) (name : string)
| Scatter (x y : list value) (mode name : string) (line : line_style).

Record layout := mkLayout {
  title : string;
  xaxis_title : string;
  yaxis_title : string;
  xaxis_rangeslider_visible : bool;
  template : string
}.

Record figure := mkFigure { fig_data : list plot_trace; fig_layout : option layout }.

(** What [df.to_excel(writer, sheet_name=..., index=False)] writes: the
    sheet name and the columns of the table. *)
Record workbook := mkWorkbook {
  sheet_name : string;
  sheet_columns : list (label * list value)
}.

(** ** The world: the heap of frames and the trace of outside calls *)

Inductive event :=
| StTitle (s : string)
| StSidebarHeader (s : string)
| StWrite (s : string)
| StWarning (s : string)
| StError (s : string)
| StSuccess (s : string)
| StPlotlyChart (fig : figure)
| StDownloadButton (label : string) (data : workbook) (file_name mime : string)
| YfDownload (key : string) (start_date end_date : date) (interval : string).

Definition ref := nat.

Record world := mkWorld { heap : list frame; trace : list event }.

Definition M (A : Type) : Type := world -> outcome A * world.

Definition ret {A : Type} (a : A) : M A := fun w => (Ok a, w).

Definition bind {A B : Type} (m : M A) (k : A -> M B) : M B :=
  fun w =>
    match m w with
    | (Ok a, w') => k a w'
    | (Raise e, w') => (Raise e, w')
    end.

Definition raise {A : Type} (e : exn) : M A := fun w => (Raise e, w).

(** [try: body  except Exception as e: handler(e)]: what the body did to
    the world before it failed stays done. *)
Definition try_except {A : Type} (body : M A) (handler : exn -> M A) : M A :=
  fun w =>
    match body w with
    | (Ok a, w') => (Ok a, w')
    | (Raise e, w') => handler e w'
    end.

Definition lift {A : Type} (o : outcome A) : M A := fun w => (o, w).

Declare Scope monad_scope.
Delimit Scope monad_scope with monad.
Notation "x <- m ;; k" := (bind m (fun x => k))
  (at level 61, m at next level, right associativity) : monad_scope.
Notation "m ;; k" := (bind m (fun _ => k))
  (at level 61, right associativity) : monad_scope.
Open Scope monad_scope.

Definition emit (e : event) : M unit :=
  fun w => (Ok tt, mkWorld (heap w) (trace w ++ [e])).

(** A new object on the heap. *)
Definition alloc (f : frame) : M ref :=
  fun w => (Ok (length (heap w)), mkWorld (heap w ++ [f]) (trace w)).

Definition read (r : ref) : M frame :=
  fun w =>
    match nth_error (heap w) r with
    | Some f => (Ok f, w)
    | None => (Raise "dangling reference", w)
    end.

Fixpoint update {A : Type} (l : list A) (i : nat) (x : A) : list A :=
  match l, i with
  | [], _ => []
  | _ :: l', O => x :: l'
  | y :: l', S i' => y :: update l' i' x
  end.

Definition write (r : ref) (f : frame) : M unit :=
  fun w => (Ok tt, mkWorld (update (heap w) r f) (trace w)).

(** An in-place operation on the object behind a reference. *)
Definition modify (r : ref) (op : frame -> outcome frame) : M unit :=
  f <- read r ;;
  f' <- lift (op f) ;;
  write r f'.

(** [len(data)] *)
Definition len (data : ref) : M nat :=
  f <- read data ;; ret (frame_len f).

(** [data.empty] *)
Definition empty (data : ref) : M bool :=
  f <- read data ;; ret (frame_empty f).

(** [data[name]], read as a float series. *)
Definition getitem (data : ref) (name : string) : M (list cell) :=
  f <- read data ;;
  vs <- lift (get_column name f) ;;
  lift (as_floats vs).

(** [data[name] = series] *)
Definition setitem (data : ref) (name : string) (series : list cell) : M unit :=
  modify data (fun f => Ok (set_column name (map of_cell series) f)).

(** ** The program *)

(** [calculate_indicators(data)], lines 11-38.  The function receives a
    reference, assigns the nine columns on the object behind it and
    returns the same reference. *)
Definition calculate_indicators (data : ref) : M ref :=
  n <- len data ;;
  if (n <? 20)%nat then ret data else
  (* Moving averages *)
  close <- getitem data "Close" ;;
  setitem data "MA_20" (Pandas.rolling_mean 20 close) ;;
  (* Bollinger Bands *)
  close <- getitem data "Close" ;;
  let bb := Ta.bollinger_bands close 20 2 in
  setitem data "BB_Upper" (Ta.bollinger_hband bb) ;;
  setitem data "BB_Lower" (Ta.bollinger_lband bb) ;;
  setitem data "BB_Width" (Ta.bollinger_wband bb) ;;
  (* RSI *)
  close <- getitem data "Close" ;;
  setitem data "RSI" (Ta.rsi close 14) ;;
  (* MACD *)
  close <- getitem data "Close" ;;
  let macd := Ta.macd_indicator close 26 12 9 in
  setitem data "MACD_Line" (Ta.macd macd) ;;
  setitem data "MACD_Signal" (Ta.macd_signal macd) ;;
  setitem data "MACD_Histogram" (Ta.macd_diff macd) ;;
  (* ADX *)
  high <- getitem data "High" ;;
  low <- getitem data "Low" ;;
  close <- getitem data "Close" ;;
  adx <- lift (Ta.adx_indicator high low close 14) ;;
  series <- lift (Ta.adx adx) ;;
  setitem data "ADX" series ;;
  ret data.

(** [data[name]] as it stands, for the chart. *)
Definition getcolumn (data : ref) (name : string) : M (list value) :=
  f <- read data ;; lift (get_column name f).

(** [name in data.columns] *)
Definition in_columns (name : string) (data : ref) : M bool :=
  f <- read data ;; ret (has_column name f).

(** [plot_candlestick_chart(data, ticker)], lines 60-106. *)
Definition plot_candlestick_chart (data : ref) (ticker : string) : M figure :=
  f <- read data ;;
  let x := index f in
  open <- getcolumn data "Open" ;;
  high <- getcolumn data "High" ;;
  low <- getcolumn data "Low" ;;
  close <- getcolumn data "Close" ;;
  let fig := [Candlestick x open high low close ticker] in
  has_upper <- in_columns "BB_Upper" data ;;
  has_lower <- in_columns "BB_Lower" data ;;
  fig <- (if has_upper && has_lower then
            upper <- getcolumn data "BB_Upper" ;;
            lower <- getcolumn data "BB_Lower" ;;
            ret (fig ++ [Scatter x upper "lines" "BB Upper"
                                 (mkLine "green" 1 (Some "dot"));
                         Scatter x lower "lines" "BB Lower"
                                 (mkLine "red" 1 (Some "dot"))])
          else ret fig) ;;
  has_ma <- in_columns "MA_20" data ;;
  fig <- (if has_ma then
            ma <- getcolumn data "MA_20" ;;
            ret (fig ++ [Scatter x ma "lines" "MA 20" (mkLine "blue" 1 None)])
          else ret fig) ;;
  ret (mkFigure fig
                (Some (mkLayout ("Candlestick Chart for " ++ ticker)%string
                                "Date" "Price" false "plotly_dark"))).

(** [tickers_df['Ticker'].dropna().unique()], on a column of text
    fields where [None] is the missing-value marker that reading a CSV
    file leaves for an empty field. *)
Definition dropna (column : list (option string)) : list string :=
  flat_map (fun c => match c with Some s => [s] | None => [] end) column.

Fixpoint unique_from (seen : list string) (l : list string) : list string :=
  match l with
  | [] => []
  | x :: l' =>
      if existsb (String.eqb x) seen then unique_from seen l'
      else x :: unique_from (x :: seen) l'
  end.

Definition unique (l : list string) : list string := unique_from [] l.

(** The table read from the uploaded CSV file: named columns of text
    fields. *)
Definition csv_table := list (string * list (option string)).

Definition csv_column (name : string) (t : csv_table)
  : option (list (option string)) :=
  option_map snd (find (fun c => String.eqb (fst c) name) t).

Definition xlsx_mime : string :=
  "application/vnd.openxmlformats-officedocument.spreadsheetml.sheet".

Section Pipeline.

(** The market-data source, [yf.download(key, start=, end=, interval=)]:
    a table, or an exception. *)
Variable yf_download : string -> date -> date -> string -> outcome frame.

Definition download (key : string) (start_date end_date : date)
           (interval : string) : M ref :=
  emit (YfDownload key start_date end_date interval) ;;
  f <- lift (yf_download key start_date end_date interval) ;;
  alloc f.

(** The body of the [try] block, lines 44-54. *)
Definition fetch_body (ticker : string) (start_date end_date : date) : M ref :=
  data <- download ticker start_date end_date "1wk" ;;
  is_empty <- empty data ;;
  if negb is_empty then
    modify data reset_index ;;
    modify data (fun f => Ok (level0_columns f)) ;;
    f <- read data ;;
    selected <- lift (select ["Date"; "Open"; "High"; "Low"; "Close"; "Volume"] f) ;;
    data <- alloc selected ;;
    modify data (set_index "Date") ;;
    data <- calculate_indicators data ;;
    ret data
  else ret data.

(** [fetch_stock_data(ticker, start_date, end_date)], lines 41-57. *)
Definition fetch_stock_data (ticker : string) (start_date end_date : date)
  : M ref :=
  let ticker := (ticker ++ ".NS")%string in
  try_except
    (fetch_body ticker start_date end_date)
    (fun e =>
       emit (StWarning ("Error fetching data for " ++ ticker ++ ": " ++ e)%string) ;;
       alloc empty_frame).

(** One turn of the loop of [main], lines 133-146, on the aggregation
    list so far. *)
Definition process_ticker (start_date end_date : date)
           (aggregated_data : list row) (ticker : string) : M (list row) :=
  emit (StWrite ("Processing " ++ ticker ++ "...")%string) ;;
  stock_data <- fetch_stock_data ticker start_date end_date ;;
  is_empty <- empty stock_data ;;
  if negb is_empty then
    f <- read stock_data ;;
    latest_row <- lift (iloc_last f) ;;
    stamp <- lift (last_index_strftime f) ;;
    let latest_row := row_set "Date" (VStr stamp) latest_row in
    let latest_row := row_set "Ticker" (VStr ticker) latest_row in
    let aggregated_data := aggregated_data ++ [latest_row] in
    fig <- plot_candlestick_chart stock_data ticker ;;
    emit (StPlotlyChart fig) ;;
    ret aggregated_data
  else
    emit (StWarning ("No data found for " ++ ticker ++ ".")%string) ;;
    ret aggregated_data.

(** The loop, line 132. *)
Fixpoint process_tickers (start_date end_date : date)
         (aggregated_data : list row) (tickers : list string) : M (list row) :=
  match tickers with
  | [] => ret aggregated_data
  | ticker :: tickers' =>
      aggregated_data <- process_ticker start_date end_date aggregated_data ticker ;;
      process_tickers start_date end_date aggregated_data tickers'
  end.

(** [main()], lines 109-164.  The widgets of the sidebar are the
    arguments: the uploaded table if a file was uploaded, the two
    dates and the file name. *)
Definition main (uploaded_file : option csv_table) (start_date end_date : date)
           (save_filename : string) : M unit :=
  emit (StTitle "Stock Performance and Technical Indicators Analyzer") ;;
  emit (StSidebarHeader "Options") ;;
  match uploaded_file with
  | None => ret tt
  | Some tickers_df =>
      match csv_column "Ticker" tickers_df with
      | None =>
          emit (StError "The uploaded CSV must contain a column named 'Ticker'.")
      | Some column =>
          let tickers := unique (dropna column) in
          emit (StWrite ("Found " ++ digits (length tickers)
                           ++ " tickers to process.")%string) ;;
          aggregated_data <- process_tickers start_date end_date [] tickers ;;
          match aggregated_data with
          | [] => ret tt
          | _ =>
              let aggregated_df := frame_of_rows aggregated_data in
              let output := mkWorkbook "Aggregated Results" (columns aggregated_df) in
              emit (StDownloadButton "Download Excel File" output
                                     save_filename xlsx_mime) ;;
              emit (StSuccess
                      "Analysis complete. Download your file using the button above.")
          end
      end
  end.

End Pipeline.

(** * Vocabulary of the properties *)

Open Scope nat_scope.
Unset Implicit Arguments.

(** ** The ticker list *)

Definition cell_eqb (a b : option string) : bool :=
  match a, b with
  | Some x, Some y => String.eqb x y
  | None, None => true
  | _, _ => false
  end.

(** Position of the first occurrence of a field in a column. *)
Fixpoint first_index (c : option string) (column : list (option string)) : nat :=
  match column with
  | [] => O
  | c' :: column' => if cell_eqb c' c then O else S (first_index c column')
  end.

Definition fresh (seen : list string) (x : string) : bool :=
  negb (existsb (String.eqb x) seen).


(** ** What the functions do to the frame they are given *)

(** [data[name]] read as floats, on the frame itself. *)
Definition get_floats (name : string) (f : frame) : outcome (list cell) :=
  match get_column name f with
  | Ok vs => as_floats vs
  | Raise e => Raise e
  end.

Definition put_floats (name : string) (series : list cell) (f : frame) : frame :=
  set_column name (map of_cell series) f.

(** The frame after the eight assignments of lines 16-32, for a Close
    series [close]. *)
Definition with_close_indicators (close : list cell) (f : frame) : frame :=
  let bb := Ta.bollinger_bands close 20 2 in
  let macd := Ta.macd_indicator close 26 12 9 in
  put_floats "MACD_Histogram" (Ta.macd_diff macd)
    (put_floats "MACD_Signal" (Ta.macd_signal macd)
       (put_floats "MACD_Line" (Ta.macd macd)
          (put_floats "RSI" (Ta.rsi close 14)
             (put_floats "BB_Width" (Ta.bollinger_wband bb)
                (put_floats "BB_Lower" (Ta.bollinger_lband bb)
                   (put_floats "BB_Upper" (Ta.bollinger_hband bb)
                      (put_floats "MA_20" (Pandas.rolling_mean 20 close) f))))))).

(** The ADX series of lines 35-36 for the frame at that point. *)
Definition adx_of_frame (f : frame) : outcome (list cell) :=
  match get_floats "High" f with
  | Raise e => Raise e
  | Ok high =>
      match get_floats "Low" f with
      | Raise e => Raise e
      | Ok low =>
          match get_floats "Close" f with
          | Raise e => Raise e
          | Ok close =>
              match Ta.adx_indicator high low close 14 with
              | Raise e => Raise e
              | Ok a => Ta.adx a
              end
          end
      end
  end.

(** Outcome of [calculate_indicators] and state of the frame afterwards. *)
Definition enrich (f : frame) : outcome unit * frame :=
  if (frame_len f <? 20)%nat then (Ok tt, f)
  else
    match get_floats "Close" f with
    | Raise e => (Raise e, f)
    | Ok close =>
        let f8 := with_close_indicators close f in
        match adx_of_frame f8 with
        | Raise e => (Raise e, f8)
        | Ok series => (Ok tt, put_floats "ADX" series f8)
        end
    end.

(** The reshaping of lines 47-50. *)
Definition reshape (raw : frame) : outcome frame :=
  match reset_index raw with
  | Raise e => Raise e
  | Ok f1 =>
      match select ["Date"; "Open"; "High"; "Low"; "Close"; "Volume"]
                   (level0_columns f1) with
      | Raise e => Raise e
      | Ok f2 => set_index "Date" f2
      end
  end.

(** The frame that row [i] of the heap holds after [w]. *)
Definition object (w : world) (r : ref) : option frame := nth_error (heap w) r.

(** The world after the object behind [r] has become [f]. *)
Definition put (r : ref) (f : frame) (w : world) : world :=
  mkWorld (update (heap w) r f) (trace w).

(** Every object of [w] is still there, unchanged, in [w']. *)
Definition extends (w w' : world) : Prop :=
  forall r f, object w r = Some f -> object w' r = Some f.

Section PipelineVocabulary.

Variable yf_download : string -> date -> date -> string -> outcome frame.

(** Outcome of the [try] block for a fetch key. *)
Definition try_block (key : string) (start_date end_date : date) : outcome frame :=
  match yf_download key start_date end_date "1wk" with
  | Raise e => Raise e
  | Ok raw =>
      if frame_empty raw then Ok raw
      else
        match reshape raw with
        | Raise e => Raise e
        | Ok f =>
            match enrich f with
            | (Ok _, f') => Ok f'
            | (Raise e, _) => Raise e
            end
        end
  end.

(** The frame [fetch_stock_data] returns for a ticker. *)
Definition fetched (ticker : string) (start_date end_date : date) : frame :=
  match try_block (ticker ++ ".NS")%string start_date end_date with
  | Ok f => f
  | Raise _ => empty_frame
  end.

(** What the fetch of a ticker adds to the trace. *)
Definition fetch_events (ticker : string) (start_date end_date : date)
  : list event :=
  let key := (ticker ++ ".NS")%string in
  YfDownload key start_date end_date "1wk"
    :: match try_block key start_date end_date with
       | Ok _ => []
       | Raise e =>
           [StWarning ("Error fetching data for " ++ key ++ ": " ++ e)%string]
       end.

(** The tickers of a list whose fetch is not empty. *)
Definition with_data (start_date end_date : date) (tickers : list string)
  : list string :=
  filter (fun t => negb (frame_empty (fetched t start_date end_date))) tickers.

End PipelineVocabulary.

(** The row the orchestrator appends for a ticker and its frame. *)
Definition ticker_row (f : frame) (ticker : string) : outcome row :=
  match iloc_last f with
  | Raise e => Raise e
  | Ok latest_row =>
      match last_index_strftime f with
      | Raise e => Raise e
      | Ok stamp =>
          Ok (row_set "Ticker" (VStr ticker) (row_set "Date" (VStr stamp) latest_row))
      end
  end.

(** The events of one kind in a trace. *)
Definition downloads (evs : list event) : list string :=
  flat_map (fun e => match e with YfDownload key _ _ _ => [key] | _ => [] end) evs.

Definition charts (evs : list event) : list figure :=
  flat_map (fun e => match e with StPlotlyChart fig => [fig] | _ => [] end) evs.

Definition exports (evs : list event) : list workbook :=
  flat_map (fun e => match e with StDownloadButton _ data _ _ => [data] | _ => [] end) evs.

Definition sheet_column (name : string) (wb : workbook) : option (list value) :=
  option_map snd (find (fun c => label_eqb (fst c) (flat name)) (sheet_columns wb)).

(** ** Columns and warm-up *)

(** The nine columns the enricher assigns. *)
Definition derived_columns : list string :=
  ["MA_20"; "BB_Upper"; "BB_Lower"; "BB_Width"; "RSI";
   "MACD_Line"; "MACD_Signal"; "MACD_Histogram"; "ADX"].

(** The column under a label, multi-level or not. *)
Definition lookup_label (l : label) (f : frame) : option (list value) :=
  option_map snd (find (fun c => label_eqb (fst c) l) (columns f)).

(** A column has the "no value" marker in exactly its first [k] rows and
    a number in every later row. *)
Definition warm_up (k : nat) (vs : list value) : Prop :=
  forall i v, nth_error vs i = Some v ->
              if (i <? k)%nat then v = VNaN else is_numeric v = true.

(** The same on a float series. *)
Definition warm_up_cells (k : nat) (cs : list cell) : Prop :=
  forall i c, nth_error cs i = Some c ->
              if (i <? k)%nat then c = None else c <> None.

(** A binary operation that yields NaN exactly when an operand is NaN. *)
Definition strict (f : cell -> cell -> cell) : Prop :=
  forall a b, f a b = None <-> a = None \/ b = None.

(** The state of a mean run over a series without NaN: the weight of
    the past is one and the average is not negative. *)
Definition ewm_nonneg (st : Pandas.ewm_state) : Prop :=
  Pandas.old_wt st = 1%Q
  /\ forall w, Pandas.weighted st = Some w -> (0 <= w)%Q.

(** A valid Close column: every value is a positive number. *)
Definition positive_numbers (vs : list value) : Prop :=
  Forall (fun v => exists q, v = VNum q /\ (0 < q)%Q) vs.

(** ** Sample data *)

Definition sample_date (i : nat) : date :=
  mkDate 2023 (1 + i / 4) (1 + 7 * (i mod 4)).

Definition sample_column (base : Z) (n : nat) : list value :=
  map (fun i => VNum (inject_Z (base + Z.of_nat ((i * 7) mod 11)))) (seq 0 n).

(** A table as the data source returns it: dates as the index, a
    two-level header. *)
Definition sample_download (n : nat) (key : string) : frame :=
  mkFrame (Some "Date") (map (fun i => VDate (sample_date i)) (seq 0 n))
          [(("Close", [key]), sample_column 100 n);
           (("High", [key]), sample_column 105 n);
           (("Low", [key]), sample_column 95 n);
           (("Open", [key]), sample_column 99 n);
           (("Volume", [key]), sample_column 1000 n)].

(** A price series of [n] weekly bars, as the fetcher hands it to the
    enricher. *)
Definition sample_series (n : nat) : frame :=
  mkFrame (Some "Date") (map (fun i => VDate (sample_date i)) (seq 0 n))
          [(flat "Open", sample_column 99 n);
           (flat "High", sample_column 105 n);
           (flat "Low", sample_column 95 n);
           (flat "Close", sample_column 100 n);
           (flat "Volume", sample_column 1000 n)].

(** A source that knows four keys: 30 bars, 10 bars, an error, and no
    rows for anything else. *)
Definition sample_source (key : string) (start_date end_date : date)
           (interval : string) : outcome frame :=
  if String.eqb key "AAA.NS" then Ok (sample_download 30 key)
  else if String.eqb key "CCC.NS" then Ok (sample_download 10 key)
  else if String.eqb key "BBB.NS" then Raise "connection reset"
  else Ok empty_frame.

Definition sample_upload : csv_table :=
  [("Name", [Some "a"; Some "b"; Some "c"; Some "d"; Some "e"; Some "f"]);
   ("Ticker", [Some "AAA"; None; Some "BBB"; Some "AAA"; Some "CCC"; Some "ZZZ"])].

Definition sample_start : date := mkDate 2023 1 1.
Definition sample_end : date := mkDate 2023 12 31.

Definition empty_world : world := mkWorld [] [].

(** ** The two numerical statements about the derived columns *)

(** Every derived column has the marker in exactly its first 19 rows. *)
Definition warm_up_19_everywhere (f : frame) : Prop :=
  forall name, In name derived_columns ->
               exists vs, get_column name f = Ok vs /\ warm_up 19 vs.

(** The number of leading rows without a value, column by column. *)
Definition warm_up_rows : list (string * nat) :=
  [("MA_20", 19); ("BB_Upper", 19); ("BB_Lower", 19); ("BB_Width", 19);
   ("RSI", 13); ("MACD_Line", 25); ("MACD_Signal", 33); ("MACD_Histogram", 33)].

(** In every row where the upper band, the lower band and the middle
    band hold numbers [u], [l] and [m], the width holds a number within
    [tol] of [scale * ((u - l) / m)]. *)
Definition width_is_ratio (scale tol : Q) (f : frame) : Prop :=
  forall upper lower middle width i u l m,
    get_column "BB_Upper" f = Ok upper ->
    get_column "BB_Lower" f = Ok lower ->
    get_column "MA_20" f = Ok middle ->
    get_column "BB_Width" f = Ok width ->
    nth_error upper i = Some (VNum u) ->
    nth_error lower i = Some (VNum l) ->
    nth_error middle i = Some (VNum m) ->
    exists wd, nth_error width i = Some (VNum wd)
               /\ (Qabs (wd - scale * ((u - l) / m)) <= tol)%Q.

(** The frame behind reference 0 after the enricher has run on [f]
    alone in the heap. *)
Definition enriched (f : frame) : option frame :=
  object (snd (calculate_indicators 0 (mkWorld [f] []))) 0.

(** ** One turn of the loop and the whole loop, as functions of the source *)

Definition and_then {A B : Type} (o : outcome A) (k : A -> outcome B) : outcome B :=
  match o with
  | Ok a => k a
  | Raise e => Raise e
  end.

(** The figure [plot_candlestick_chart] builds from a frame. *)
Definition chart (f : frame) (ticker : string) : outcome figure :=
  let x := index f in
  and_then (get_column "Open" f) (fun open =>
  and_then (get_column "High" f) (fun high =>
  and_then (get_column "Low" f) (fun low =>
  and_then (get_column "Close" f) (fun close =>
  let fig := [Candlestick x open high low close ticker] in
  and_then
    (if has_column "BB_Upper" f && has_column "BB_Lower" f then
       and_then (get_column "BB_Upper" f) (fun upper =>
       and_then (get_column "BB_Lower" f) (fun lower =>
       Ok (fig ++ [Scatter x upper "lines" "BB Upper" (mkLine "green" 1 (Some "dot"));
                   Scatter x lower "lines" "BB Lower" (mkLine "red" 1 (Some "dot"))])))
     else Ok fig) (fun fig =>
  and_then
    (if has_column "MA_20" f then
       and_then (get_column "MA_20" f) (fun ma =>
       Ok (fig ++ [Scatter x ma "lines" "MA 20" (mkLine "blue" 1 None)]))
     else Ok fig) (fun fig =>
  Ok (mkFigure fig
               (Some (mkLayout ("Candlestick Chart for " ++ ticker)%string
                               "Date" "Price" false "plotly_dark"))))))))).

Section LoopVocabulary.

Variable yf_download : string -> date -> date -> string -> outcome frame.
Variables start_date end_date : date.

(** The aggregation list after the turn of [ticker]. *)
Definition turn_result (aggregated_data : list row) (ticker : string)
  : outcome (list row) :=
  let f := fetched yf_download ticker start_date end_date in
  if frame_empty f then Ok aggregated_data
  else
    and_then (ticker_row f ticker) (fun latest_row =>
    and_then (chart f ticker) (fun _ =>
    Ok (aggregated_data ++ [latest_row]))).

(** What the turn of [ticker] adds to the trace. *)
Definition turn_events (ticker : string) : list event :=
  let f := fetched yf_download ticker start_date end_date in
  StWrite ("Processing " ++ ticker ++ "...")%string
    :: fetch_events yf_download ticker start_date end_date
    ++ (if frame_empty f then
          [StWarning ("No data found for " ++ ticker ++ ".")%string]
        else
          match ticker_row f ticker with
          | Raise _ => []
          | Ok _ =>
              match chart f ticker with
              | Ok fig => [StPlotlyChart fig]
              | Raise _ => []
              end
          end).

Fixpoint loop_result (aggregated_data : list row) (tickers : list string)
  : outcome (list row) :=
  match tickers with
  | [] => Ok aggregated_data
  | ticker :: tickers' =>
      match turn_result aggregated_data ticker with
      | Ok aggregated_data' => loop_result aggregated_data' tickers'
      | Raise e => Raise e
      end
  end.

Fixpoint loop_events (aggregated_data : list row) (tickers : list string)
  : list event :=
  match tickers with
  | [] => []
  | ticker :: tickers' =>
      turn_events ticker
        ++ match turn_result aggregated_data ticker with
           | Ok aggregated_data' => loop_events aggregated_data' tickers'
           | Raise _ => []
           end
  end.

End LoopVocabulary.

(** The Ticker field of each row of the aggregation list. *)
Definition row_tickers (rows : list row) : list (option value) :=
  map (row_get "Ticker") rows.

(** A chronological index: each date is followed by later or equal
    dates only. *)
Fixpoint ascending (ds : list date) : bool :=
  match ds with
  | [] => true
  | d :: ds' => forallb (date_leb d) ds' && ascending ds'
  end.

(** The latest of a list of dates. *)
Fixpoint max_date (d : date) (ds : list date) : date :=
  match ds with
  | [] => d
  | d' :: ds' => max_date (if date_leb d d' then d' else d) ds'
  end.

(** The dates of an index, when all of its values are dates. *)
Fixpoint dates_of (vs : list value) : option (list date) :=
  match vs with
  | [] => Some []
  | VDate d :: vs' => option_map (cons d) (dates_of vs')
  | _ :: _ => None
  end.

(** [s] occurs inside [text]. *)
Definition contains (text s : string) : Prop :=
  exists before after, text = (before ++ s ++ after)%string.

Definition title_text : string :=
  "Stock Performance and Technical Indicators Analyzer".

Definition missing_column_text : string :=
  "The uploaded CSV must contain a column named 'Ticker'.".

Definition success_text : string :=
  "Analysis complete. Download your file using the button above.".

(** What [main] adds to the trace once the loop has left the
    aggregation list [rows]. *)
Definition export_events (rows : list row) (save_filename : string) : list event :=
  match rows with
  | [] => []
  | _ =>
      [StDownloadButton "Download Excel File"
                        (mkWorkbook "Aggregated Results" (columns (frame_of_rows rows)))
                        save_filename xlsx_mime;
       StSuccess success_text]
  end.

Definition found_text (tickers : list string) : string :=
  ("Found " ++ digits (length tickers) ++ " tickers to process.")%string.

(** ** Vocabulary of the further properties *)

Definition trace_name (t : plot_trace) : string :=
  match t with
  | Candlestick _ _ _ _ _ name => name
  | Scatter _ _ _ name _ => name
  end.

Definition trace_x (t : plot_trace) : list value :=
  match t with
  | Candlestick x _ _ _ _ _ => x
  | Scatter x _ _ _ _ => x
  end.

(** The overlays the chart builder adds for a frame, by name. *)
Definition overlay_names (f : frame) : list string :=
  (if has_column "BB_Upper" f && has_column "BB_Lower" f
   then ["BB Upper"; "BB Lower"] else [])
    ++ (if has_column "MA_20" f then ["MA 20"] else []).

(** The four columns a candlestick needs. *)
Definition candle_columns : list string := ["Open"; "High"; "Low"; "Close"].

(** The columns the fetcher keeps, and those it asks for. *)
Definition price_columns : list string :=
  ["Open"; "High"; "Low"; "Close"; "Volume"].

Definition requested_columns : list string := "Date" :: price_columns.

Definition warnings (evs : list event) : list string :=
  flat_map (fun e => match e with StWarning text => [text] | _ => [] end) evs.

Definition successes (evs : list event) : list string :=
  flat_map (fun e => match e with StSuccess text => [text] | _ => [] end) evs.

Definition chart_titles (evs : list event) : list string :=
  flat_map (fun e => match e with
                     | StPlotlyChart fig =>
                         match fig_layout fig with
                         | Some l => [title l]
                         | None => []
                         end
                     | _ => []
                     end) evs.

(** The key under which a ticker is requested. *)
Definition fetch_key (ticker : string) : string := (ticker ++ ".NS")%string.

(** The name under which [reset_index] files the index. *)
Definition reset_name (f : frame) : string :=
  match index_name f with
  | Some s => s
  | None => if has_column "index" f then "level_0" else "index"
  end.

(** The level-0 names of a table once its index has become a column. *)
Definition level0_names (f : frame) : list string :=
  reset_name f :: map (fun c => fst (fst c)) (columns f).

Definition labels (f : frame) : list label := map fst (columns f).

(** The stamp the orchestrator puts on the row of a frame. *)
Definition date_stamp (f : frame) : value :=
  match last (index f) VNaN with
  | VDate d => VStr (strftime d)
  | _ => VNaN
  end.

Definition chart_title (ticker : string) : string :=
  ("Candlestick Chart for " ++ ticker)%string.

Definition no_data_text (ticker : string) : string :=
  ("No data found for " ++ ticker ++ ".")%string.

(** File name and MIME type of each download that is offered. *)
Definition export_files (evs : list event) : list (string * string) :=
  flat_map (fun e => match e with
                     | StDownloadButton _ _ file_name mime => [(file_name, mime)]
                     | _ => []
                     end) evs.

(** ** More sample data *)

(** Twenty dated rows with prices but no Close column. *)
Definition sample_without_close : frame :=
  mkFrame (Some "Date") (map (fun i => VDate (sample_date i)) (seq 0 20))
          [(flat "Open", sample_column 99 20);
           (flat "High", sample_column 105 20)].

(** A source whose tables lack the Volume column. *)
Definition sample_partial_source (key : string) (start_date end_date : date)
           (interval : string) : outcome frame :=
  Ok (mkFrame (Some "Date") (map (fun i => VDate (sample_date i)) (seq 0 3))
              [(("Close", [key]), sample_column 100 3);
               (("High", [key]), sample_column 105 3);
               (("Low", [key]), sample_column 95 3);
               (("Open", [key]), sample_column 99 3)]).

(** An upload whose tickers the sample source has nothing for. *)
Definition sample_upload_without_data : csv_table :=
  [("Ticker", [Some "ZZZ"; None; Some "BBB"; Some "ZZZ"])].

(** The workbook the run on the sample upload offers. *)
Definition sample_workbook : workbook :=
  match exports (trace (snd (main sample_source (Some sample_upload)
                                  sample_start sample_end "out.xlsx"
                                  empty_world))) with
  | wb :: _ => wb
  | [] => mkWorkbook EmptyString []
  end.

Definition sample_ma_20_cells : list value :=
  match sheet_column "MA_20" sample_workbook with
  | Some vs => vs
  | None => []
  end.
(** * Properties *)

(** ** The ticker list *)

Lemma existsb_eqb_In (x : string) (l : list string) :
  existsb (String.eqb x) l = true <-> In x l.
Proof.
  rewrite existsb_exists. split.
  - intros [y [Hy He]]. apply String.eqb_eq in He. now subst.
  - intros H. exists x. split; [assumption | apply String.eqb_refl].
Qed.

Lemma fresh_spec (seen : list string) (x : string) :
  fresh seen x = true <-> ~ In x seen.
Proof.
  unfold fresh. rewrite negb_true_iff, <- not_true_iff_false.
  now rewrite existsb_eqb_In.
Qed.

Lemma unique_from_filter (l : list string) :
  forall seen, unique_from seen l = filter (fresh seen) (unique l).
Proof.
  unfold unique. induction l as [|x l IH]; intros seen; [reflexivity|].
  cbn [unique_from existsb].
  rewrite (IH [x]). destruct (existsb (String.eqb x) seen) eqn:Hx.
  - assert (Hf : fresh seen x = false) by (unfold fresh; now rewrite Hx).
    cbn [filter]. rewrite Hf.
    rewrite IH. symmetry. clear IH.
    induction (unique_from [] l) as [|y u IHu]; [reflexivity|].
    cbn [filter]. destruct (fresh [x] y) eqn:Hy.
    + cbn [filter]. now rewrite IHu.
    + rewrite IHu. destruct (fresh seen y) eqn:Hs; [|reflexivity].
      exfalso. apply fresh_spec in Hs. apply existsb_eqb_In in Hx.
      apply not_true_iff_false in Hy. apply Hy. apply fresh_spec.
      intros [E|[]]. subst. contradiction.
  - assert (Hf : fresh seen x = true) by (unfold fresh; now rewrite Hx).
    cbn [filter]. rewrite Hf. f_equal.
    rewrite (IH (x :: seen)). clear IH.
    induction (unique_from [] l) as [|y u IHu]; [reflexivity|].
    assert (Hy : fresh (x :: seen) y = fresh [x] y && fresh seen y).
    { unfold fresh. cbn [existsb]. now destruct (String.eqb y x), (existsb (String.eqb y) seen). }
    cbn [filter]. rewrite Hy.
    destruct (fresh [x] y); cbn [andb filter]; [|exact IHu].
    destruct (fresh seen y); now rewrite IHu.
Qed.

Lemma unique_cons (x : string) (l : list string) :
  unique (x :: l) = x :: filter (fresh [x]) (unique l).
Proof. unfold unique at 1. cbn. now rewrite unique_from_filter. Qed.

Lemma unique_In (l : list string) (x : string) : In x (unique l) <-> In x l.
Proof.
  induction l as [|y l IH]; [reflexivity|].
  rewrite unique_cons. cbn [In]. rewrite filter_In, IH, fresh_spec. cbn [In].
  destruct (string_dec y x) as [E|N]; [tauto|]. intuition congruence.
Qed.

Lemma unique_NoDup (l : list string) : NoDup (unique l).
Proof.
  induction l as [|y l IH]; [constructor|].
  rewrite unique_cons. constructor.
  - rewrite filter_In, fresh_spec. cbn [In]. tauto.
  - now apply NoDup_filter.
Qed.

Lemma dropna_In (column : list (option string)) (t : string) :
  In t (dropna column) <-> In (Some t) column.
Proof.
  unfold dropna. rewrite in_flat_map. split.
  - intros [[s|] [Hc Hs]]; cbn in Hs; [|contradiction].
    destruct Hs as [E|[]]. now subst.
  - intros H. exists (Some t). split; [assumption | now left].
Qed.

Lemma StronglySorted_map_S (l : list nat) :
  StronglySorted lt l -> StronglySorted lt (map S l).
Proof.
  induction 1 as [|a l Hs IH Ha]; cbn; constructor; [assumption|].
  rewrite Forall_map. revert Ha. apply Forall_impl. intros; lia.
Qed.

Lemma StronglySorted_filter {A : Type} (R : A -> A -> Prop) (p : A -> bool)
      (l : list A) :
  StronglySorted R l -> StronglySorted R (filter p l).
Proof.
  induction 1 as [|a l Hs IH Ha]; cbn; [constructor|].
  destruct (p a); [constructor|]; try assumption.
  rewrite Forall_forall in *. intros x Hx. apply filter_In in Hx. now apply Ha.
Qed.

Lemma first_occurrences_sorted (column : list (option string)) :
  StronglySorted lt
    (map (fun t => first_index (Some t) column) (unique (dropna column))).
Proof.
  induction column as [|c column IH]; [constructor|].
  destruct c as [s|].
  - change (dropna (Some s :: column)) with (s :: dropna column).
    rewrite unique_cons. cbn [map].
    assert (E0 : first_index (Some s) (Some s :: column) = O)
      by (cbn; now rewrite String.eqb_refl).
    rewrite E0. constructor.
    + assert (E : map (fun t => first_index (Some t) (Some s :: column))
                      (filter (fresh [s]) (unique (dropna column)))
                  = map S (map (fun t => first_index (Some t) column)
                               (filter (fresh [s]) (unique (dropna column))))).
      { rewrite map_map. apply map_ext_in. intros t Ht.
        apply filter_In in Ht. destruct Ht as [_ Ht]. apply fresh_spec in Ht.
        cbn [first_index cell_eqb]. destruct (String.eqb s t) eqn:E; [|reflexivity].
        apply String.eqb_eq in E. subst. exfalso. apply Ht. now left. }
      rewrite E. apply StronglySorted_map_S.
      clear E. revert IH. generalize (unique (dropna column)). intros u Hu.
      induction u as [|y u IHu]; [constructor|].
      inversion Hu as [|? ? Hs Ha]; subst. cbn [filter].
      destruct (fresh [s] y); cbn [map].
      * constructor; [now apply IHu|].
        rewrite Forall_map. rewrite Forall_map in Ha.
        rewrite Forall_forall in *. intros x Hx. apply filter_In in Hx.
        now apply Ha.
      * now apply IHu.
    + rewrite Forall_map, Forall_forall. intros t Ht.
      apply filter_In in Ht. destruct Ht as [_ Ht]. apply fresh_spec in Ht.
      cbn [first_index cell_eqb]. destruct (String.eqb s t) eqn:E; [|lia].
      apply String.eqb_eq in E. subst. exfalso. apply Ht. now left.
  - change (dropna (None :: column)) with (dropna column).
    cbn [first_index cell_eqb].
    rewrite <- (map_map (fun t => first_index (Some t) column) S).
    now apply StronglySorted_map_S.
Qed.

(** C9. The list the orchestrator iterates over, [unique (dropna column)],
    has no duplicate, holds exactly the tickers that occur in the uploaded
    column as a filled field (so no entry comes from an empty field), and
    lists them in the order of their first occurrence in the column. *)
Theorem tickers_deduplicated_in_first_seen_order (column : list (option string)) :
  NoDup (unique (dropna column))
  /\ (forall t, In t (unique (dropna column)) <-> In (Some t) column)
  /\ ~ In None (map Some (unique (dropna column)))
  /\ StronglySorted lt
       (map (fun t => first_index (Some t) column) (unique (dropna column))).
Proof.
  split; [apply unique_NoDup|]. split; [|split].
  - intros t. now rewrite unique_In, dropna_In.
  - rewrite in_map_iff. intros [t [Ht _]]. discriminate.
  - apply first_occurrences_sorted.
Qed.

(** ** The heap *)

Lemma nth_error_update_eq {A : Type} (l : list A) (i : nat) (x : A) :
  (i < length l)%nat -> nth_error (update l i x) i = Some x.
Proof.
  revert i. induction l as [|y l IH]; intros [|i] H; cbn in *; try lia; auto.
  apply IH. lia.
Qed.

Lemma nth_error_update_neq {A : Type} (l : list A) (i j : nat) (x : A) :
  i <> j -> nth_error (update l i x) j = nth_error l j.
Proof.
  revert i j. induction l as [|y l IH]; intros [|i] [|j] H; cbn; auto;
    try contradiction; try (apply IH; congruence).
Qed.

Lemma update_update {A : Type} (l : list A) (i : nat) (x y : A) :
  update (update l i x) i y = update l i y.
Proof.
  revert i. induction l as [|z l IH]; intros [|i]; cbn; auto. now rewrite IH.
Qed.

Lemma update_same {A : Type} (l : list A) (i : nat) (x : A) :
  nth_error l i = Some x -> update l i x = l.
Proof.
  revert i. induction l as [|z l IH]; intros [|i] H; cbn in *; auto.
  - congruence.
  - now rewrite IH.
Qed.

Lemma length_update {A : Type} (l : list A) (i : nat) (x : A) :
  length (update l i x) = length l.
Proof. revert i. induction l as [|z l IH]; intros [|i]; cbn; auto. Qed.

Lemma nth_error_Some_lt {A : Type} (l : list A) (i : nat) (x : A) :
  nth_error l i = Some x -> (i < length l)%nat.
Proof. intros H. apply nth_error_Some. congruence. Qed.

(** ** Columns *)

Lemma label_eqb_eq (a b : label) : label_eqb a b = true <-> a = b.
Proof. unfold label_eqb. destruct (label_eq_dec a b); split; congruence. Qed.

Lemma label_eqb_refl (a : label) : label_eqb a a = true.
Proof. now apply label_eqb_eq. Qed.

Lemma label_eqb_neq (a b : label) : label_eqb a b = false <-> a <> b.
Proof. rewrite <- label_eqb_eq. now destruct (label_eqb a b). Qed.

Lemma find_replace_other (l l' : label) (vals : list value)
      (cols : list (label * list value)) :
  l <> l' ->
  find (fun c => label_eqb (fst c) l) (replace_column l' vals cols)
  = find (fun c => label_eqb (fst c) l) cols.
Proof.
  intros N. induction cols as [|c cols IH]; [reflexivity|].
  cbn [replace_column find].
  destruct (label_eqb (fst c) l') eqn:E; cbn [fst].
  - apply label_eqb_eq in E.
    assert (E1 : label_eqb l' l = false) by (apply label_eqb_neq; congruence).
    assert (E2 : label_eqb (fst c) l = false) by (apply label_eqb_neq; congruence).
    now rewrite E1, E2.
  - now rewrite IH.
Qed.

Lemma find_app_other (l l' : label) (vals : list value)
      (cols : list (label * list value)) :
  l <> l' ->
  find (fun c => label_eqb (fst c) l) (cols ++ [(l', vals)])
  = find (fun c => label_eqb (fst c) l) cols.
Proof.
  intros N. induction cols as [|c cols IH]; cbn [app find fst].
  - assert (E1 : label_eqb l' l = false) by (apply label_eqb_neq; congruence).
    now rewrite E1.
  - now rewrite IH.
Qed.

Lemma flat_inj (a b : string) : a <> b -> flat a <> flat b.
Proof. unfold flat. congruence. Qed.

Lemma get_column_set_other (name name' : string) (vals : list value) (f : frame) :
  name <> name' -> get_column name (set_column name' vals f) = get_column name f.
Proof.
  intros N. unfold get_column, set_column. cbn [columns].
  destruct (has_column name' f).
  - rewrite find_replace_other by now apply flat_inj. reflexivity.
  - rewrite find_app_other by now apply flat_inj. reflexivity.
Qed.

Lemma find_replace_same (l : label) (vals : list value)
      (cols : list (label * list value)) :
  existsb (fun c => label_eqb (fst c) l) cols = true ->
  find (fun c => label_eqb (fst c) l) (replace_column l vals cols) = Some (l, vals).
Proof.
  induction cols as [|c cols IH]; cbn [existsb replace_column find]; [discriminate|].
  destruct (label_eqb (fst c) l) eqn:E; cbn [orb fst].
  - intros _. now rewrite label_eqb_refl.
  - intros H. rewrite E. now apply IH.
Qed.

Lemma find_app_same (l : label) (vals : list value)
      (cols : list (label * list value)) :
  existsb (fun c => label_eqb (fst c) l) cols = false ->
  find (fun c => label_eqb (fst c) l) (cols ++ [(l, vals)]) = Some (l, vals).
Proof.
  induction cols as [|c cols IH]; cbn [existsb app find fst].
  - intros _. now rewrite label_eqb_refl.
  - destruct (label_eqb (fst c) l); cbn [orb]; [discriminate | exact IH].
Qed.

Lemma get_column_set_same (name : string) (vals : list value) (f : frame) :
  get_column name (set_column name vals f) = Ok vals.
Proof.
  unfold get_column, set_column, has_column, has_label. cbn [columns].
  destruct (existsb _ (columns f)) eqn:E.
  - now rewrite find_replace_same.
  - now rewrite find_app_same.
Qed.

Lemma index_set_column (name : string) (vals : list value) (f : frame) :
  index (set_column name vals f) = index f.
Proof. reflexivity. Qed.

Lemma get_floats_put_other (name name' : string) (series : list cell) (f : frame) :
  name <> name' -> get_floats name (put_floats name' series f) = get_floats name f.
Proof.
  intros N. unfold get_floats, put_floats. now rewrite get_column_set_other.
Qed.

(** ** Running the primitives *)

Lemma read_run (r : ref) (w : world) (f : frame) :
  object w r = Some f -> read r w = (Ok f, w).
Proof. unfold object, read. now intros ->. Qed.

Lemma getitem_run (r : ref) (name : string) (w : world) (f : frame) :
  object w r = Some f -> getitem r name w = (get_floats name f, w).
Proof.
  intros H. unfold getitem, bind, lift, get_floats. rewrite (read_run _ _ _ H).
  destruct (get_column name f); reflexivity.
Qed.

Lemma object_put (r : ref) (f f' : frame) (w : world) :
  object w r = Some f -> object (put r f' w) r = Some f'.
Proof.
  unfold object, put. cbn. intros H. apply nth_error_update_eq.
  now apply nth_error_Some_lt in H.
Qed.

Lemma object_put_other (r r' : ref) (f : frame) (w : world) :
  r <> r' -> object (put r f w) r' = object w r'.
Proof. intros N. unfold object, put. cbn. now apply nth_error_update_neq. Qed.

Lemma put_put (r : ref) (f f' : frame) (w : world) :
  put r f' (put r f w) = put r f' w.
Proof. unfold put. cbn. now rewrite update_update. Qed.

Lemma put_same (r : ref) (f : frame) (w : world) :
  object w r = Some f -> put r f w = w.
Proof.
  unfold object, put. intros H. rewrite update_same by assumption. now destruct w.
Qed.

Lemma setitem_run (r : ref) (name : string) (series : list cell) (w : world)
      (f : frame) :
  object w r = Some f ->
  setitem r name series w = (Ok tt, put r (put_floats name series f) w).
Proof.
  intros H. unfold setitem, modify, bind, lift, write.
  now rewrite (read_run _ _ _ H).
Qed.

Lemma len_run (r : ref) (w : world) (f : frame) :
  object w r = Some f -> len r w = (Ok (frame_len f), w).
Proof. intros H. unfold len, bind, ret. now rewrite (read_run _ _ _ H). Qed.

Lemma empty_run (r : ref) (w : world) (f : frame) :
  object w r = Some f -> empty r w = (Ok (frame_empty f), w).
Proof. intros H. unfold empty, bind, ret. now rewrite (read_run _ _ _ H). Qed.

Lemma modify_run (r : ref) (op : frame -> outcome frame) (w : world) (f : frame) :
  object w r = Some f ->
  modify r op w = match op f with
                  | Ok f' => (Ok tt, put r f' w)
                  | Raise e => (Raise e, w)
                  end.
Proof.
  intros H. unfold modify, bind, lift, write. rewrite (read_run _ _ _ H).
  destruct (op f); reflexivity.
Qed.

(** ** Running the enricher *)

Lemma bind_run {A B : Type} (m : M A) (k : A -> M B) (w w' : world) (o : outcome A) :
  m w = (o, w') ->
  bind m k w = match o with
               | Ok a => k a w'
               | Raise e => (Raise e, w')
               end.
Proof. intros H. unfold bind. rewrite H. now destruct o. Qed.

Lemma lift_run {A : Type} (o : outcome A) (w : world) : lift o w = (o, w).
Proof. reflexivity. Qed.

Ltac run_with lem H :=
  erewrite bind_run by (apply lem; exact H); cbv beta iota.

Ltac run_set H :=
  let H' := fresh "Hobj" in
  match type of H with
  | object ?w ?r = Some ?f =>
      match goal with
      | |- context [bind (setitem r ?name ?series) _ w] =>
          erewrite bind_run by (apply setitem_run; exact H); cbv beta iota;
          pose proof (object_put r f (put_floats name series f) w H) as H';
          rewrite ?put_put in H' |- *
      end
  end.

Lemma name_neq (a b : string) : String.eqb a b = false -> a <> b.
Proof. apply String.eqb_neq. Qed.

Ltac neq_names := apply name_neq; reflexivity.

Lemma get_floats_with_close_indicators (name : string) (close : list cell) (f : frame) :
  forallb (fun n => negb (String.eqb name n))
          ["MA_20"; "BB_Upper"; "BB_Lower"; "BB_Width"; "RSI";
           "MACD_Line"; "MACD_Signal"; "MACD_Histogram"] = true ->
  get_floats name (with_close_indicators close f) = get_floats name f.
Proof.
  intros H. cbn [forallb] in H.
  repeat (apply andb_prop in H; destruct H as [?H H]).
  unfold with_close_indicators.
  repeat (rewrite get_floats_put_other
            by (apply name_neq; now apply negb_true_iff)).
  reflexivity.
Qed.

Lemma calculate_indicators_run (r : ref) (w : world) (f : frame) :
  object w r = Some f ->
  calculate_indicators r w
  = (match fst (enrich f) with Ok _ => Ok r | Raise e => Raise e end,
     put r (snd (enrich f)) w).
Proof.
  intros H. unfold calculate_indicators, enrich.
  run_with len_run H.
  destruct (frame_len f <? 20)%nat.
  { cbn. now rewrite (put_same _ _ _ H). }
  run_with getitem_run H.
  destruct (get_floats "Close" f) as [close|e] eqn:Hclose.
  2:{ cbn. now rewrite (put_same _ _ _ H). }
  run_set H.
  run_with getitem_run Hobj.
  rewrite get_floats_put_other, Hclose by neq_names.
  run_set Hobj. run_set Hobj0. run_set Hobj1.
  run_with getitem_run Hobj2.
  rewrite !get_floats_put_other, Hclose by neq_names.
  run_set Hobj2.
  run_with getitem_run Hobj3.
  rewrite !get_floats_put_other, Hclose by neq_names.
  run_set Hobj3. run_set Hobj4. run_set Hobj5.
  fold (with_close_indicators close f) in *.
  unfold adx_of_frame.
  run_with getitem_run Hobj6.
  destruct (get_floats "High" (with_close_indicators close f)) as [high|e]; [|reflexivity].
  run_with getitem_run Hobj6.
  destruct (get_floats "Low" (with_close_indicators close f)) as [low|e]; [|reflexivity].
  run_with getitem_run Hobj6.
  destruct (get_floats "Close" (with_close_indicators close f)) as [close'|e]; [|reflexivity].
  erewrite bind_run by apply lift_run.
  destruct (Ta.adx_indicator high low close' 14) as [a|e]; [|reflexivity].
  erewrite bind_run by apply lift_run.
  destruct (Ta.adx a) as [series|e]; [|reflexivity].
  run_set Hobj6.
  reflexivity.
Qed.

(** ** The enricher and the object it is given *)

Lemma lookup_label_set_other (l : label) (name : string) (vals : list value)
      (f : frame) :
  l <> flat name -> lookup_label l (set_column name vals f) = lookup_label l f.
Proof.
  intros N. unfold lookup_label, set_column. cbn [columns].
  destruct (has_column name f).
  - now rewrite find_replace_other.
  - now rewrite find_app_other.
Qed.

Lemma lookup_label_with_close_indicators (l : label) (close : list cell) (f : frame) :
  (forall name, In name derived_columns -> l <> flat name) ->
  lookup_label l (with_close_indicators close f) = lookup_label l f.
Proof.
  intros H. unfold with_close_indicators, put_floats.
  repeat (rewrite lookup_label_set_other by (apply H; cbn; tauto)).
  reflexivity.
Qed.

Lemma enrich_preserves (f : frame) (l : label) :
  (forall name, In name derived_columns -> l <> flat name) ->
  lookup_label l (snd (enrich f)) = lookup_label l f.
Proof.
  intros H. unfold enrich.
  destruct (frame_len f <? 20)%nat; [reflexivity|].
  destruct (get_floats "Close" f) as [close|e]; [|reflexivity].
  destruct (adx_of_frame _) as [series|e]; cbn [snd].
  - unfold put_floats.
    rewrite lookup_label_set_other by (apply H; cbn; tauto).
    now apply lookup_label_with_close_indicators.
  - now apply lookup_label_with_close_indicators.
Qed.

Lemma enrich_index (f : frame) :
  index (snd (enrich f)) = index f /\ index_name (snd (enrich f)) = index_name f.
Proof.
  unfold enrich.
  destruct (frame_len f <? 20)%nat; [now split|].
  destruct (get_floats "Close" f) as [close|e]; [|now split].
  destruct (adx_of_frame _) as [series|e]; now split.
Qed.

(** C4. On a frame of fewer than 20 rows the enricher returns the
    reference it was given and leaves the world as it was: the object keeps
    exactly its columns and values and gets no derived column. *)
Theorem enrichment_skipped_below_20_rows (data : ref) (w : world) (f : frame) :
  object w data = Some f ->
  (frame_len f < 20)%nat ->
  calculate_indicators data w = (Ok data, w)
  /\ object (snd (calculate_indicators data w)) data = Some f.
Proof.
  intros H Hlen.
  assert (E : calculate_indicators data w = (Ok data, w)).
  { rewrite (calculate_indicators_run _ _ _ H). unfold enrich.
    apply Nat.ltb_lt in Hlen. rewrite Hlen. cbn.
    now rewrite (put_same _ _ _ H). }
  split; [exact E | now rewrite E].
Qed.

Lemma enrichment_skipped_below_20_rows_witness :
  calculate_indicators 0 (mkWorld [sample_series 10] [])
  = (Ok 0%nat, mkWorld [sample_series 10] [])
  /\ object (snd (calculate_indicators 0 (mkWorld [sample_series 10] []))) 0
     = Some (sample_series 10).
Proof.
  apply (@enrichment_skipped_below_20_rows
           0 (mkWorld [sample_series 10] []) (sample_series 10)).
  - reflexivity.
  - vm_compute. lia.
Defined.

(** C3, as stated, fails: on a series of 30 rows the object the caller
    passed has gained the column MA_20 when the call returns. *)
Lemma enricher_changes_the_callers_object :
  let w := mkWorld [sample_series 30] [] in
  ~ (object (snd (calculate_indicators 0 w)) 0 = object w 0)
  /\ option_map (has_column "MA_20") (object w 0) = Some false
  /\ option_map (has_column "MA_20") (object (snd (calculate_indicators 0 w)) 0)
     = Some true.
Proof.
  cbv zeta. split; [|split].
  - intros H.
    apply (f_equal (option_map (has_column "MA_20"))) in H.
    vm_compute in H. discriminate.
  - vm_compute. reflexivity.
  - vm_compute. reflexivity.
Qed.

(** C3, amended.  The enricher works on the caller's object in place and
    on nothing else: it returns the reference it was given (or raises),
    emits no event, leaves every other object of the heap alone, and on
    the object itself keeps the index and every column that is not one
    of the nine derived ones.  What it returns and what it leaves in the
    object depend on the input frame only: two calls on equal frames, in
    any two worlds, agree. *)
Theorem enricher_effect_is_confined (data : ref) (w : world) (f : frame) :
  object w data = Some f ->
  (fst (calculate_indicators data w) = Ok data
   \/ exists e, fst (calculate_indicators data w) = Raise e)
  /\ trace (snd (calculate_indicators data w)) = trace w
  /\ length (heap (snd (calculate_indicators data w))) = length (heap w)
  /\ (forall r, r <> data ->
                object (snd (calculate_indicators data w)) r = object w r)
  /\ (exists f',
         object (snd (calculate_indicators data w)) data = Some f'
         /\ index f' = index f
         /\ index_name f' = index_name f
         /\ forall l, (forall name, In name derived_columns -> l <> flat name) ->
                      lookup_label l f' = lookup_label l f)
  /\ (forall data' w',
         object w' data' = Some f ->
         object (snd (calculate_indicators data' w')) data'
         = object (snd (calculate_indicators data w)) data
         /\ (fst (calculate_indicators data' w') = Ok data'
             <-> fst (calculate_indicators data w) = Ok data)).
Proof.
  intros H. rewrite (calculate_indicators_run _ _ _ H). cbn [fst snd].
  split; [|split; [|split; [|split; [|split]]]].
  - destruct (fst (enrich f)) as [u|e]; [now left | right; now exists e].
  - reflexivity.
  - unfold put. cbn. apply length_update.
  - intros r N. apply object_put_other. congruence.
  - exists (snd (enrich f)). split; [exact (object_put _ _ _ _ H)|].
    destruct (enrich_index f) as [Hi Hn].
    split; [exact Hi|]. split; [exact Hn|].
    intros l Hl. now apply enrich_preserves.
  - intros data' w' H'. rewrite (calculate_indicators_run _ _ _ H'). cbn [fst snd].
    rewrite (object_put _ _ _ _ H), (object_put _ _ _ _ H'). split; [reflexivity|].
    destruct (fst (enrich f)); split; intros E; try reflexivity; discriminate.
Qed.

Lemma enricher_effect_is_confined_witness :
  trace (snd (calculate_indicators 0 (mkWorld [sample_series 30] []))) = [].
Proof.
  exact (proj1 (proj2 (@enricher_effect_is_confined
                         0 (mkWorld [sample_series 30] []) (sample_series 30)
                         eq_refl))).
Defined.

(** ** Running the fetcher *)

Lemma extends_refl (w : world) : extends w w.
Proof. intros r f H. exact H. Qed.

Lemma extends_trans (w1 w2 w3 : world) :
  extends w1 w2 -> extends w2 w3 -> extends w1 w3.
Proof. intros H12 H23 r f H. apply H23, H12, H. Qed.

Lemma object_alloc_new (h : list frame) (t : list event) (f : frame) :
  object (mkWorld (h ++ [f]) t) (length h) = Some f.
Proof.
  unfold object. cbn. rewrite nth_error_app2 by lia.
  now rewrite Nat.sub_diag.
Qed.

Lemma object_alloc_old (h : list frame) (t t' : list event) (f f0 : frame) (r : ref) :
  object (mkWorld h t) r = Some f0 -> object (mkWorld (h ++ [f]) t') r = Some f0.
Proof.
  unfold object. cbn. intros H. rewrite nth_error_app1; [assumption|].
  now apply nth_error_Some_lt in H.
Qed.

Lemma object_put_fresh (h : list frame) (t t' : list event) (f f0 : frame) (r r0 : ref) :
  (length h <= r)%nat ->
  object (mkWorld h t) r0 = Some f0 -> object (put r f (mkWorld h t')) r0 = Some f0.
Proof.
  intros Hr H. rewrite object_put_other; [exact H|].
  unfold object in H. cbn in H. apply nth_error_Some_lt in H. lia.
Qed.

Lemma modify_run_ok (r : ref) (op : frame -> outcome frame) (w : world) (f f' : frame) :
  object w r = Some f -> op f = Ok f' -> modify r op w = (Ok tt, put r f' w).
Proof. intros H E. rewrite (modify_run _ _ _ _ H). now rewrite E. Qed.

Lemma modify_run_raise (r : ref) (op : frame -> outcome frame) (w : world)
      (f : frame) (e : exn) :
  object w r = Some f -> op f = Raise e -> modify r op w = (Raise e, w).
Proof. intros H E. rewrite (modify_run _ _ _ _ H). now rewrite E. Qed.

Lemma extends_put_fresh (w0 w : world) (r : ref) (f : frame) :
  extends w0 w -> (length (heap w0) <= r)%nat -> extends w0 (put r f w).
Proof.
  intros X Hr r0 f0 H. rewrite object_put_other; [now apply X|].
  apply nth_error_Some_lt in H. lia.
Qed.

Lemma extends_alloc (w0 w : world) (f : frame) :
  extends w0 w -> extends w0 (mkWorld (heap w ++ [f]) (trace w)).
Proof.
  intros X r0 f0 H. apply X in H. destruct w as [h t].
  now apply object_alloc_old with (t := t).
Qed.

Section FetchRuns.

Variable yf_download : string -> date -> date -> string -> outcome frame.

Lemma fetch_body_run (key : string) (s e : date) (w : world) :
  exists o w',
    fetch_body yf_download key s e w = (o, w')
    /\ trace w' = trace w ++ [YfDownload key s e "1wk"]
    /\ extends w w'
    /\ match try_block yf_download key s e with
       | Ok f => exists r, o = Ok r /\ object w' r = Some f
       | Raise err => o = Raise err
       end.
Proof.
  destruct w as [h t].
  unfold fetch_body, download, try_block.
  unfold bind at 1. unfold bind at 1. cbn [emit heap trace].
  unfold bind at 1. unfold lift at 1.
  destruct (yf_download key s e "1wk") as [raw|err].
  2:{ do 2 eexists. split; [reflexivity|]. cbn. split; [reflexivity|].
      split; [|reflexivity]. intros r f H. exact H. }
  cbn [alloc heap trace].
  set (w0 := mkWorld h t).
  set (w1 := mkWorld (h ++ [raw]) (t ++ [YfDownload key s e "1wk"])).
  assert (H1 : object w1 (length h) = Some raw) by apply object_alloc_new.
  assert (X1 : extends w0 w1).
  { intros r f H. now apply object_alloc_old with (t := t). }
  assert (T1 : trace w1 = t ++ [YfDownload key s e "1wk"]) by reflexivity.
  clearbody w1.
  erewrite bind_run by (apply empty_run; exact H1). cbv beta iota.
  destruct (frame_empty raw) eqn:Hempty; cbn [negb].
  { do 2 eexists. split; [reflexivity|]. split; [exact T1|].
    split; [exact X1|]. exists (length h). now split. }
  unfold reshape.
  destruct (reset_index raw) as [f1|err] eqn:E1.
  2:{ erewrite bind_run by (eapply modify_run_raise; eassumption).
      do 2 eexists. split; [reflexivity|]. now repeat split. }
  erewrite bind_run by (eapply modify_run_ok; eassumption). cbv beta iota.
  assert (H2 := object_put (length h) raw f1 w1 H1).
  assert (X2 : extends w0 (put (length h) f1 w1))
    by (apply extends_put_fresh; [exact X1 | cbn; lia]).
  erewrite bind_run by (eapply modify_run_ok; [exact H2 | reflexivity]).
  cbv beta iota. rewrite put_put.
  assert (H3 := object_put (length h) raw (level0_columns f1) w1 H1).
  assert (X3 : extends w0 (put (length h) (level0_columns f1) w1))
    by (apply extends_put_fresh; [exact X1 | cbn; lia]).
  assert (T3 : trace (put (length h) (level0_columns f1) w1)
               = t ++ [YfDownload key s e "1wk"]) by exact T1.
  set (w3 := put (length h) (level0_columns f1) w1) in *. clearbody w3.
  erewrite bind_run by (apply read_run; exact H3). cbv beta iota.
  erewrite bind_run by apply lift_run.
  destruct (select _ (level0_columns f1)) as [sel|err].
  2:{ do 2 eexists. split; [reflexivity|]. now repeat split. }
  unfold bind at 1. cbn [alloc].
  assert (H4 : object (mkWorld (heap w3 ++ [sel]) (trace w3)) (length (heap w3))
               = Some sel) by apply object_alloc_new.
  assert (X4 := extends_alloc w0 w3 sel X3).
  assert (T4 : trace (mkWorld (heap w3 ++ [sel]) (trace w3))
               = t ++ [YfDownload key s e "1wk"]) by exact T3.
  assert (L4 : (length (heap w0) <= length (heap w3))%nat).
  { destruct (Nat.le_gt_cases (length (heap w0)) (length (heap w3))) as [L|L];
      [exact L | exfalso].
    destruct (nth_error (heap w0) (length (heap w3))) as [f0|] eqn:E0.
    - apply X3 in E0. apply nth_error_Some_lt in E0. lia.
    - apply nth_error_None in E0. lia. }
  set (w4 := mkWorld (heap w3 ++ [sel]) (trace w3)) in *. clearbody w4.
  set (r := length (heap w3)) in *.
  destruct (set_index "Date" sel) as [f2|err] eqn:E2.
  2:{ erewrite bind_run by (eapply modify_run_raise; eassumption).
      do 2 eexists. split; [reflexivity|]. now repeat split. }
  erewrite bind_run by (eapply modify_run_ok; eassumption). cbv beta iota.
  assert (H5 := object_put r sel f2 w4 H4).
  erewrite bind_run by (apply calculate_indicators_run; exact H5).
  rewrite put_put.
  destruct (enrich f2) as [o f'] eqn:E3. cbn [fst snd].
  destruct o as [u|err].
  - do 2 eexists. split; [reflexivity|]. split; [exact T4|]. split.
    + apply extends_put_fresh; assumption.
    + exists r. split; [reflexivity|]. exact (object_put r sel f' w4 H4).
  - do 2 eexists. split; [reflexivity|]. split; [exact T4|]. split.
    + apply extends_put_fresh; assumption.
    + reflexivity.
Qed.

End FetchRuns.

(** ** Running the chart builder and the loop *)

Lemma getcolumn_run (r : ref) (name : string) (w : world) (f : frame) :
  object w r = Some f -> getcolumn r name w = (get_column name f, w).
Proof.
  intros H. unfold getcolumn, bind, lift. now rewrite (read_run _ _ _ H).
Qed.

Lemma in_columns_run (r : ref) (name : string) (w : world) (f : frame) :
  object w r = Some f -> in_columns name r w = (Ok (has_column name f), w).
Proof.
  intros H. unfold in_columns, bind, ret. now rewrite (read_run _ _ _ H).
Qed.

Lemma plot_candlestick_chart_run (r : ref) (ticker : string) (w : world) (f : frame) :
  object w r = Some f ->
  plot_candlestick_chart r ticker w = (chart f ticker, w).
Proof.
  intros H. unfold plot_candlestick_chart, chart.
  erewrite bind_run by (apply read_run; exact H). cbv beta iota.
  erewrite bind_run by (apply getcolumn_run; exact H).
  destruct (get_column "Open" f) as [open|e]; [|reflexivity]. cbv beta iota.
  erewrite bind_run by (apply getcolumn_run; exact H).
  destruct (get_column "High" f) as [high|e]; [|reflexivity]. cbv beta iota.
  erewrite bind_run by (apply getcolumn_run; exact H).
  destruct (get_column "Low" f) as [low|e]; [|reflexivity]. cbv beta iota.
  erewrite bind_run by (apply getcolumn_run; exact H).
  destruct (get_column "Close" f) as [close|e]; [|reflexivity]. cbv beta iota.
  erewrite bind_run by (apply in_columns_run; exact H). cbv beta iota.
  erewrite bind_run by (apply in_columns_run; exact H). cbv beta iota.
  cbn [and_then].
  destruct (has_column "BB_Upper" f && has_column "BB_Lower" f).
  - unfold bind at 1.
    erewrite bind_run by (apply getcolumn_run; exact H).
    destruct (get_column "BB_Upper" f) as [upper|e]; [|reflexivity]. cbv beta iota.
    erewrite bind_run by (apply getcolumn_run; exact H).
    destruct (get_column "BB_Lower" f) as [lower|e]; [|reflexivity]. cbv beta iota.
    cbn [and_then ret].
    erewrite bind_run by (apply in_columns_run; exact H). cbv beta iota.
    destruct (has_column "MA_20" f).
    + unfold bind at 1.
      erewrite bind_run by (apply getcolumn_run; exact H).
      destruct (get_column "MA_20" f) as [ma|e]; reflexivity.
    + reflexivity.
  - unfold bind at 1. cbn [ret and_then].
    erewrite bind_run by (apply in_columns_run; exact H). cbv beta iota.
    destruct (has_column "MA_20" f).
    + unfold bind at 1.
      erewrite bind_run by (apply getcolumn_run; exact H).
      destruct (get_column "MA_20" f) as [ma|e]; reflexivity.
    + reflexivity.
Qed.

Section LoopRuns.

Variable yf_download : string -> date -> date -> string -> outcome frame.
Variables s e : date.

Lemma fetch_stock_data_run (ticker : string) (w : world) :
  exists r w',
    fetch_stock_data yf_download ticker s e w = (Ok r, w')
    /\ object w' r = Some (fetched yf_download ticker s e)
    /\ trace w' = trace w ++ fetch_events yf_download ticker s e
    /\ extends w w'.
Proof.
  unfold fetch_stock_data, try_except, fetched, fetch_events.
  destruct (fetch_body_run yf_download (ticker ++ ".NS")%string s e w)
    as [o [w1 [E [T [X R]]]]].
  rewrite E.
  destruct (try_block yf_download (ticker ++ ".NS")%string s e) as [f|err].
  - destruct R as [r [-> Hr]]. exists r, w1. now repeat split.
  - subst o. unfold bind, emit, alloc. cbn [heap trace].
    do 2 eexists. split; [reflexivity|]. split; [apply object_alloc_new|].
    split.
    + cbn [trace]. rewrite T, <- app_assoc. reflexivity.
    + intros r f H. apply X in H. destruct w1 as [h1 t1].
      now apply object_alloc_old with (t := t1).
Qed.

Lemma process_ticker_run (aggregated_data : list row) (ticker : string) (w : world) :
  exists w',
    process_ticker yf_download s e aggregated_data ticker w
    = (turn_result yf_download s e aggregated_data ticker, w')
    /\ trace w' = trace w ++ turn_events yf_download s e ticker
    /\ extends w w'.
Proof.
  unfold process_ticker, turn_result, turn_events.
  unfold bind at 1. cbn [emit].
  set (w0 := mkWorld (heap w) (trace w ++ [StWrite ("Processing " ++ ticker ++ "...")%string])).
  destruct (fetch_stock_data_run ticker w0) as [r [w1 [E [H [T X]]]]].
  assert (X0 : extends w w1).
  { intros r0 f0 H0. apply X. exact H0. }
  assert (T1 : trace w1 = trace w ++ StWrite ("Processing " ++ ticker ++ "...")%string
                             :: fetch_events yf_download ticker s e).
  { rewrite T. unfold w0. cbn [trace]. now rewrite <- app_assoc. }
  clearbody w0.
  erewrite bind_run by exact E. cbv beta iota.
  erewrite bind_run by (apply empty_run; exact H). cbv beta iota.
  set (f := fetched yf_download ticker s e) in *.
  destruct (frame_empty f); cbn [negb].
  { unfold bind, emit, ret. cbn [heap trace]. eexists. split; [reflexivity|].
    split.
    - cbn [trace]. rewrite T1. rewrite <- app_assoc. reflexivity.
    - intros r0 f0 H0. apply X0 in H0. exact H0. }
  erewrite bind_run by (apply read_run; exact H). cbv beta iota.
  erewrite bind_run by apply lift_run.
  unfold ticker_row.
  destruct (iloc_last f) as [latest_row|err]; cbn [and_then].
  2:{ exists w1. rewrite app_nil_r. now repeat split. }
  erewrite bind_run by apply lift_run.
  destruct (last_index_strftime f) as [stamp|err]; cbn [and_then].
  2:{ exists w1. rewrite app_nil_r. now repeat split. }
  erewrite bind_run by (apply plot_candlestick_chart_run; exact H).
  destruct (chart f ticker) as [fig|err]; cbn [and_then].
  2:{ exists w1. rewrite app_nil_r. now repeat split. }
  unfold bind, emit, ret. cbn [heap trace]. eexists. split; [reflexivity|].
  split.
  - cbn [trace]. rewrite T1. rewrite <- app_assoc. reflexivity.
  - intros r0 f0 H0. apply X0 in H0. exact H0.
Qed.

Lemma process_tickers_run (tickers : list string) :
  forall (aggregated_data : list row) (w : world),
  exists w',
    process_tickers yf_download s e aggregated_data tickers w
    = (loop_result yf_download s e aggregated_data tickers, w')
    /\ trace w' = trace w ++ loop_events yf_download s e aggregated_data tickers
    /\ extends w w'.
Proof.
  induction tickers as [|ticker tickers IH]; intros agg w.
  - exists w. cbn. rewrite app_nil_r. split; [reflexivity|].
    split; [reflexivity | apply extends_refl].
  - cbn [process_tickers loop_result loop_events].
    destruct (process_ticker_run agg ticker w) as [w1 [E [T X]]].
    erewrite bind_run by exact E.
    destruct (turn_result yf_download s e agg ticker) as [agg'|err].
    + destruct (IH agg' w1) as [w2 [E2 [T2 X2]]].
      exists w2. split; [exact E2|]. split.
      * rewrite T2, T. now rewrite <- app_assoc.
      * eapply extends_trans; eassumption.
    + exists w1. rewrite app_nil_r. now repeat split.
Qed.

End LoopRuns.

(** ** Running the orchestrator *)

Section MainRuns.

Variable yf_download : string -> date -> date -> string -> outcome frame.
Variables s e : date.

Lemma main_run (tickers_df : csv_table) (column : list (option string))
      (save_filename : string) (w : world) :
  csv_column "Ticker" tickers_df = Some column ->
  exists w',
    main yf_download (Some tickers_df) s e save_filename w
    = (match loop_result yf_download s e [] (unique (dropna column)) with
       | Ok _ => Ok tt
       | Raise err => Raise err
       end, w')
    /\ trace w'
       = trace w
           ++ [StTitle title_text; StSidebarHeader "Options";
               StWrite (found_text (unique (dropna column)))]
           ++ loop_events yf_download s e [] (unique (dropna column))
           ++ match loop_result yf_download s e [] (unique (dropna column)) with
              | Ok rows => export_events rows save_filename
              | Raise _ => []
              end.
Proof.
  intros Hcol. unfold main. rewrite Hcol.
  unfold bind at 1. cbn [emit]. unfold bind at 1. cbn [emit heap trace].
  unfold bind at 1. cbn [emit heap trace].
  set (w0 := mkWorld _ _).
  destruct (process_tickers_run yf_download s e (unique (dropna column)) [] w0)
    as [w1 [E [T X]]].
  assert (T0 : trace w0 = trace w ++ [StTitle title_text; StSidebarHeader "Options";
                                      StWrite (found_text (unique (dropna column)))]).
  { unfold w0. cbn [trace]. rewrite <- !app_assoc. reflexivity. }
  clearbody w0.
  erewrite bind_run by exact E.
  destruct (loop_result yf_download s e [] (unique (dropna column))) as [rows|err].
  - destruct rows as [|row rows].
    + exists w1. split; [reflexivity|]. rewrite T, T0. cbn [export_events].
      now rewrite app_nil_r, <- app_assoc.
    + unfold bind, emit. cbn [heap trace]. eexists. split; [reflexivity|].
      cbn [trace export_events]. rewrite T, T0.
      rewrite <- !app_assoc. reflexivity.
  - exists w1. split; [reflexivity|]. rewrite T, T0.
    now rewrite app_nil_r, <- app_assoc.
Qed.

End MainRuns.

Lemma csv_column_None (name : string) (t : csv_table) :
  ~ In name (map fst t) -> csv_column name t = None.
Proof.
  intros H. unfold csv_column.
  induction t as [|c t IH]; [reflexivity|]. cbn [find].
  destruct (String.eqb (fst c) name) eqn:E.
  - apply String.eqb_eq in E. exfalso. apply H. now left.
  - apply IH. intros H'. apply H. now right.
Qed.

(** C6. When the uploaded table has no column named exactly "Ticker",
    the run ends at once: it shows the error after the title and the
    sidebar header, touches no object, sends no request to the data
    source, renders no chart and offers no export. *)
Theorem missing_ticker_column_halts_the_run
        (yf_download : string -> date -> date -> string -> outcome frame)
        (tickers_df : csv_table) (start_date end_date : date)
        (save_filename : string) (w : world) :
  ~ In "Ticker" (map fst tickers_df) ->
  exists evs,
    main yf_download (Some tickers_df) start_date end_date save_filename w
    = (Ok tt, mkWorld (heap w) (trace w ++ evs))
    /\ evs = [StTitle title_text; StSidebarHeader "Options";
              StError missing_column_text]
    /\ downloads evs = []
    /\ charts evs = []
    /\ exports evs = [].
Proof.
  intros H. eexists. split; [|split; [reflexivity|]].
  - unfold main. rewrite (csv_column_None _ _ H).
    unfold bind, emit. cbn [heap trace]. rewrite <- !app_assoc. reflexivity.
  - now repeat split.
Qed.

Lemma missing_ticker_column_halts_the_run_witness :
  exists evs,
    main sample_source (Some [("ticker", [Some "AAA"]); ("TICKER", [Some "BBB"])])
         sample_start sample_end "out.xlsx" empty_world
    = (Ok tt, mkWorld (heap empty_world) (trace empty_world ++ evs))
    /\ evs = [StTitle title_text; StSidebarHeader "Options";
              StError missing_column_text]
    /\ downloads evs = []
    /\ charts evs = []
    /\ exports evs = [].
Proof.
  apply missing_ticker_column_halts_the_run.
  cbn. intros [H|[H|[]]]; discriminate H.
Defined.

(** ** Rows *)

Lemma row_get_set_same (name : string) (v : value) (r : row) :
  row_get name (row_set name v r) = Some v.
Proof.
  unfold row_get, row_set.
  destruct (existsb (fun c => String.eqb (fst c) name) r) eqn:E.
  - induction r as [|c r IH]; [discriminate|].
    cbn [existsb] in E. cbn [map find].
    destruct (String.eqb (fst c) name) eqn:Ec.
    + cbn [fst]. now rewrite String.eqb_refl.
    + rewrite Ec. cbn [orb] in E. now apply IH.
  - induction r as [|c r IH]; cbn [app find fst].
    + now rewrite String.eqb_refl.
    + cbn [existsb] in E. apply orb_false_iff in E. destruct E as [Ec E].
      rewrite Ec. now apply IH.
Qed.

Lemma row_get_set_other (name name' : string) (v : value) (r : row) :
  name <> name' -> row_get name (row_set name' v r) = row_get name r.
Proof.
  intros N. unfold row_get, row_set. f_equal.
  assert (Nb : String.eqb name' name = false) by (apply String.eqb_neq; congruence).
  destruct (existsb (fun c => String.eqb (fst c) name') r).
  - induction r as [|c r IH]; [reflexivity|]. cbn [map find].
    destruct (String.eqb (fst c) name') eqn:Ec.
    + cbn [fst]. rewrite Nb. apply String.eqb_eq in Ec.
      assert (Ec' : String.eqb (fst c) name = false)
        by (apply String.eqb_neq; congruence).
      now rewrite Ec'.
    + destruct (String.eqb (fst c) name); [reflexivity | exact IH].
  - induction r as [|c r IH]; cbn [app find fst].
    + now rewrite Nb.
    + destruct (String.eqb (fst c) name); [reflexivity | exact IH].
Qed.

(** ** Frames that come out of the fetcher *)

Lemma has_label_find (l : label) (f : frame) :
  has_label l f = true ->
  exists c, find (fun c => label_eqb (fst c) l) (columns f) = Some c.
Proof.
  unfold has_label. induction (columns f) as [|c cols IH]; cbn [existsb find].
  - discriminate.
  - destruct (label_eqb (fst c) l); [intros _; now exists c | exact IH].
Qed.

Lemma has_column_get (name : string) (f : frame) :
  has_column name f = true -> exists vs, get_column name f = Ok vs.
Proof.
  intros H. apply has_label_find in H. destruct H as [c H].
  exists (snd c). unfold get_column. now rewrite H.
Qed.

Lemma has_column_lookup (name : string) (f : frame) :
  has_column name f = true <-> lookup_label (flat name) f <> None.
Proof.
  unfold has_column, has_label, lookup_label.
  induction (columns f) as [|c cols IH]; cbn [existsb find option_map].
  - split; [discriminate | congruence].
  - destruct (label_eqb (fst c) (flat name)); cbn [orb option_map].
    + split; [discriminate | reflexivity].
    + exact IH.
Qed.

Lemma select_columns_has (names : list string) (f : frame)
      (cols : list (label * list value)) :
  select_columns names f = Ok cols ->
  forall name, In name names ->
               existsb (fun c => label_eqb (fst c) (flat name)) cols = true.
Proof.
  revert cols. induction names as [|n names IH]; intros cols H name Hin.
  - contradiction.
  - cbn [select_columns] in H.
    destruct (filter (fun c => label_eqb (fst c) (flat n)) (columns f))
      as [|c found] eqn:Ef; [discriminate|].
    destruct (select_columns names f) as [rest|err]; [|discriminate].
    injection H as H. subst cols. cbn [app existsb]. rewrite existsb_app.
    destruct Hin as [<-|Hin].
    + assert (Hc : In c (filter (fun c => label_eqb (fst c) (flat n)) (columns f)))
        by (rewrite Ef; now left).
      apply filter_In in Hc. destruct Hc as [_ Hc].
      now rewrite Hc.
    + rewrite (IH rest eq_refl name Hin). now rewrite !orb_true_r.
Qed.

Lemma existsb_filter_other (l l' : label) (cols : list (label * list value)) :
  l <> l' ->
  existsb (fun c => label_eqb (fst c) l)
          (filter (fun c => negb (label_eqb (fst c) l')) cols)
  = existsb (fun c => label_eqb (fst c) l) cols.
Proof.
  intros N. induction cols as [|c cols IH]; [reflexivity|].
  cbn [filter existsb].
  destruct (label_eqb (fst c) l') eqn:E; cbn [negb existsb].
  - apply label_eqb_eq in E.
    assert (E' : label_eqb (fst c) l = false) by (apply label_eqb_neq; congruence).
    now rewrite E'.
  - now rewrite IH.
Qed.

Lemma reshape_has_column (raw f : frame) (name : string) :
  reshape raw = Ok f ->
  In name ["Open"; "High"; "Low"; "Close"; "Volume"] ->
  has_column name f = true.
Proof.
  unfold reshape, select, set_index. intros H Hin.
  destruct (reset_index raw) as [f1|err]; [|discriminate].
  destruct (select_columns _ (level0_columns f1)) as [cols|err] eqn:Es; [|discriminate].
  cbn [columns] in H.
  destruct (filter (fun c => label_eqb (fst c) (flat "Date")) cols) as [|c [|c' l]];
    try discriminate.
  injection H as <-. unfold has_column, has_label. cbn [columns].
  rewrite existsb_filter_other.
  - apply (select_columns_has _ _ _ Es). cbn [In] in *. tauto.
  - apply flat_inj. cbn [In] in Hin.
    destruct Hin as [<-|[<-|[<-|[<-|[<-|[]]]]]]; discriminate.
Qed.

Lemma enrich_keeps_column (f : frame) (name : string) :
  ~ In name derived_columns ->
  has_column name f = true -> has_column name (snd (enrich f)) = true.
Proof.
  intros N H. apply has_column_lookup. rewrite enrich_preserves.
  - now apply has_column_lookup.
  - intros n Hn E. apply N. unfold flat in E. injection E as ->. exact Hn.
Qed.

Lemma chart_total (f : frame) (ticker : string) :
  has_column "Open" f = true -> has_column "High" f = true ->
  has_column "Low" f = true -> has_column "Close" f = true ->
  exists fig, chart f ticker = Ok fig.
Proof.
  intros Ho Hh Hl Hc. unfold chart.
  destruct (has_column_get _ _ Ho) as [open ->].
  destruct (has_column_get _ _ Hh) as [high ->].
  destruct (has_column_get _ _ Hl) as [low ->].
  destruct (has_column_get _ _ Hc) as [close ->].
  cbn [and_then].
  destruct (has_column "BB_Upper" f) eqn:Hu; cbn [andb].
  - destruct (has_column "BB_Lower" f) eqn:Hlo.
    + destruct (has_column_get _ _ Hu) as [upper ->].
      destruct (has_column_get _ _ Hlo) as [lower ->].
      cbn [and_then].
      destruct (has_column "MA_20" f) eqn:Hm.
      * destruct (has_column_get _ _ Hm) as [ma ->]. cbn [and_then]. eauto.
      * cbn [and_then]. eauto.
    + cbn [and_then].
      destruct (has_column "MA_20" f) eqn:Hm.
      * destruct (has_column_get _ _ Hm) as [ma ->]. cbn [and_then]. eauto.
      * cbn [and_then]. eauto.
  - cbn [and_then].
    destruct (has_column "MA_20" f) eqn:Hm.
    + destruct (has_column_get _ _ Hm) as [ma ->]. cbn [and_then]. eauto.
    + cbn [and_then]. eauto.
Qed.

Section FetchedFrames.

Variable yf_download : string -> date -> date -> string -> outcome frame.
Variables s e : date.

Lemma fetched_not_empty (ticker : string) :
  frame_empty (fetched yf_download ticker s e) = false ->
  exists raw f,
    yf_download (ticker ++ ".NS")%string s e "1wk" = Ok raw
    /\ frame_empty raw = false
    /\ reshape raw = Ok f
    /\ enrich f = (Ok tt, fetched yf_download ticker s e).
Proof.
  unfold fetched, try_block.
  destruct (yf_download (ticker ++ ".NS")%string s e "1wk") as [raw|err];
    [|discriminate].
  destruct (frame_empty raw) eqn:Er; [congruence|].
  destruct (reshape raw) as [f|err] eqn:Eh; [|discriminate].
  destruct (enrich f) as [[[]|err] f'] eqn:Ee; [|discriminate].
  intros _. exists raw, f. now repeat split.
Qed.

Lemma fetched_chart (ticker : string) :
  frame_empty (fetched yf_download ticker s e) = false ->
  exists fig, chart (fetched yf_download ticker s e) ticker = Ok fig.
Proof.
  intros H. destruct (fetched_not_empty _ H) as [raw [f [_ [_ [Hr He]]]]].
  assert (K : forall name, In name ["Open"; "High"; "Low"; "Close"; "Volume"] ->
                           has_column name (fetched yf_download ticker s e) = true).
  { intros name Hin.
    replace (fetched yf_download ticker s e) with (snd (enrich f))
      by now rewrite He.
    apply enrich_keeps_column.
    - cbn [In derived_columns] in *.
      intros D. destruct Hin as [<-|[<-|[<-|[<-|[<-|[]]]]]];
        repeat (destruct D as [D|D]; [discriminate D|]); exact D.
    - now apply (reshape_has_column raw). }
  apply chart_total; apply K; cbn; tauto.
Qed.

End FetchedFrames.

(** ** Dates *)

Lemma date_leb_refl (d : date) : date_leb d d = true.
Proof.
  unfold date_leb. rewrite !Nat.eqb_refl, Nat.leb_refl. cbn.
  now rewrite !orb_true_r.
Qed.

Lemma last_default {A : Type} (l : list A) (x d d' : A) :
  last (x :: l) d = last (x :: l) d'.
Proof.
  revert x. induction l as [|y l IH]; intros x; [reflexivity|].
  change (last (x :: y :: l) d) with (last (y :: l) d).
  change (last (x :: y :: l) d') with (last (y :: l) d').
  apply IH.
Qed.

Lemma dates_of_last (vs : list value) (d0 : date) (ds : list date) :
  dates_of vs = Some (d0 :: ds) -> last vs VNaN = VDate (last (d0 :: ds) d0).
Proof.
  revert d0 ds. induction vs as [|v vs IH]; intros d0 ds H; [discriminate|].
  cbn [dates_of] in H. destruct v as [q| |str|d]; try discriminate.
  destruct (dates_of vs) as [ds'|] eqn:E; [|discriminate].
  cbn [option_map] in H. injection H as <- <-.
  destruct vs as [|v' vs'].
  - cbn in E. injection E as <-. reflexivity.
  - destruct ds' as [|d1 ds'].
    + cbn [dates_of] in E. destruct v'; try discriminate.
      destruct (dates_of vs'); discriminate.
    + change (last (VDate d :: v' :: vs') VNaN) with (last (v' :: vs') VNaN).
      rewrite (IH d1 ds' eq_refl).
      change (last (d :: d1 :: ds') d) with (last (d1 :: ds') d).
      f_equal. apply last_default.
Qed.

Lemma ascending_last (d0 : date) (ds : list date) :
  ascending (d0 :: ds) = true ->
  In (last (d0 :: ds) d0) (d0 :: ds)
  /\ forall d, In d (d0 :: ds) -> date_leb d (last (d0 :: ds) d0) = true.
Proof.
  revert d0. induction ds as [|d1 ds IH]; intros d0 H.
  - split; [now left|]. intros d [<-|[]]. apply date_leb_refl.
  - cbn [ascending] in H. apply andb_prop in H. destruct H as [H0 H1].
    destruct (IH d1 H1) as [Hin Hle].
    assert (E : last (d0 :: d1 :: ds) d0 = last (d1 :: ds) d1).
    { change (last (d0 :: d1 :: ds) d0) with (last (d1 :: ds) d0).
      apply last_default. }
    rewrite E. split; [now right|].
    intros d [<-|Hd]; [|now apply Hle].
    rewrite forallb_forall in H0. now apply H0.
Qed.

(** ** Warm-up of the float series *)

Lemma nth_error_zip (f : cell -> cell -> cell) (xs ys : list cell) (i : nat) :
  nth_error (Ta.zip f xs ys) i
  = match nth_error xs i, nth_error ys i with
    | Some a, Some b => Some (f a b)
    | _, _ => None
    end.
Proof.
  unfold Ta.zip. revert ys i.
  induction xs as [|x xs IH]; intros [|y ys] [|i]; cbn; try reflexivity;
    try (destruct (nth_error xs i); reflexivity);
    try (destruct (nth_error ys i); reflexivity).
  apply IH.
Qed.

Lemma length_zip (f : cell -> cell -> cell) (xs ys : list cell) :
  length xs = length ys -> length (Ta.zip f xs ys) = length xs.
Proof.
  intros H. unfold Ta.zip. rewrite length_map, length_combine. lia.
Qed.

Lemma lift2_strict (g : Q -> Q -> Q) : strict (Float.lift2 g).
Proof.
  intros [a|] [b|]; cbn; split; intros H; try discriminate; auto;
    destruct H; discriminate.
Qed.

Lemma warm_up_zip (f : cell -> cell -> cell) (k1 k2 : nat) (xs ys : list cell) :
  strict f ->
  warm_up_cells k1 xs -> warm_up_cells k2 ys ->
  warm_up_cells (Nat.max k1 k2) (Ta.zip f xs ys).
Proof.
  intros Hf Hx Hy i c H. rewrite nth_error_zip in H.
  destruct (nth_error xs i) as [a|] eqn:Ea; [|discriminate].
  destruct (nth_error ys i) as [b|] eqn:Eb; [|discriminate].
  injection H as <-. specialize (Hx i a Ea). specialize (Hy i b Eb).
  destruct (i <? Nat.max k1 k2) eqn:E.
  - apply Nat.ltb_lt in E. apply Hf.
    destruct (Nat.max_spec k1 k2) as [[_ M]|[_ M]]; rewrite M in E.
    + right. apply Nat.ltb_lt in E. now rewrite E in Hy.
    + left. apply Nat.ltb_lt in E. now rewrite E in Hx.
  - apply Nat.ltb_ge in E. intros N. apply Hf in N.
    assert (E1 : (i <? k1) = false) by (apply Nat.ltb_ge; lia).
    assert (E2 : (i <? k2) = false) by (apply Nat.ltb_ge; lia).
    rewrite E1 in Hx. rewrite E2 in Hy. tauto.
Qed.

Lemma warm_up_map (g : cell -> cell) (k : nat) (xs : list cell) :
  (forall a, g a = None <-> a = None) ->
  warm_up_cells k xs -> warm_up_cells k (map g xs).
Proof.
  intros Hg Hx i c H. rewrite nth_error_map in H.
  destruct (nth_error xs i) as [a|] eqn:Ea; [|discriminate].
  injection H as <-. specialize (Hx i a Ea).
  revert Hx. destruct (i <? k); intros Hx; [now apply Hg|].
  intros N. apply (proj1 (Hg a)) in N. contradiction.
Qed.

Lemma warm_up_of_cells (k : nat) (cs : list cell) :
  warm_up_cells k cs -> warm_up k (map of_cell cs).
Proof.
  intros H i v Hv. rewrite nth_error_map in Hv.
  destruct (nth_error cs i) as [c|] eqn:E; [|discriminate].
  injection Hv as <-. specialize (H i c E). revert H.
  destruct (i <? k); intros H; [now subst | now destruct c].
Qed.

Lemma warm_up_cells_cons (k : nat) (x : cell) (xs : list cell) :
  warm_up_cells k (x :: xs) ->
  match k with
  | O => x <> None /\ warm_up_cells 0 xs
  | S k' => x = None /\ warm_up_cells k' xs
  end.
Proof.
  intros H. destruct k as [|k'].
  - split; [exact (H 0 x eq_refl)|]. intros i c Hc. exact (H (S i) c Hc).
  - split; [exact (H 0 x eq_refl)|]. intros i c Hc. exact (H (S i) c Hc).
Qed.

Lemma warm_up_cells_cons_None (k : nat) (xs : list cell) :
  warm_up_cells k xs -> warm_up_cells (S k) (None :: xs).
Proof.
  intros H [|i] c Hc.
  - injection Hc as <-. reflexivity.
  - exact (H i c Hc).
Qed.

Lemma all_some_map_Some {A : Type} (l : list A) :
  Pandas.all_some (map Some l) = Some l.
Proof. induction l as [|x l IH]; cbn; [reflexivity | now rewrite IH]. Qed.

Lemma warm_up_0_values (xs : list cell) :
  warm_up_cells 0 xs -> exists qs, xs = map Some qs.
Proof.
  induction xs as [|x xs IH]; intros H.
  - now exists [].
  - apply warm_up_cells_cons in H. destruct H as [Hx H].
    destruct (IH H) as [qs ->]. destruct x as [q|]; [|congruence].
    now exists (q :: qs).
Qed.

Lemma warm_up_map_Some (qs : list Q) : warm_up_cells 0 (map Some qs).
Proof.
  intros i c H. rewrite nth_error_map in H.
  destruct (nth_error qs i); [|discriminate]. injection H as <-. discriminate.
Qed.

(** *** Rolling windows *)

Lemma nth_error_seq_0 (n i : nat) : i < n -> nth_error (seq 0 n) i = Some i.
Proof.
  intros H. rewrite (nth_error_nth' _ 0) by now rewrite length_seq.
  now rewrite seq_nth.
Qed.

Lemma length_rolling (w : nat) (agg : list Q -> Q) (xs : list cell) :
  length (Pandas.rolling w agg xs) = length xs.
Proof. unfold Pandas.rolling. now rewrite length_map, length_seq. Qed.

Lemma nth_error_rolling (w : nat) (agg : list Q -> Q) (qs : list Q) (i : nat) :
  i < length qs ->
  nth_error (Pandas.rolling w agg (map Some qs)) i
  = Some (if S i <? w then None
          else Some (agg (firstn w (skipn (S i - w) qs)))).
Proof.
  intros H. unfold Pandas.rolling. rewrite nth_error_map, length_map.
  rewrite nth_error_seq_0 by exact H. cbn [option_map].
  destruct (S i <? w); [reflexivity|].
  now rewrite skipn_map, firstn_map, all_some_map_Some.
Qed.

Lemma warm_up_rolling (w : nat) (agg : list Q -> Q) (qs : list Q) :
  warm_up_cells (w - 1) (Pandas.rolling w agg (map Some qs)).
Proof.
  intros i c H.
  assert (Hi : i < length qs).
  { apply nth_error_Some_lt in H. now rewrite length_rolling, length_map in H. }
  rewrite nth_error_rolling in H by exact Hi. injection H as <-.
  destruct (i <? w - 1) eqn:E.
  - apply Nat.ltb_lt in E.
    assert (E' : (S i <? w) = true) by (apply Nat.ltb_lt; lia). now rewrite E'.
  - apply Nat.ltb_ge in E.
    assert (E' : (S i <? w) = false) by (apply Nat.ltb_ge; lia).
    rewrite E'. discriminate.
Qed.

(** *** Exponentially weighted means *)

Lemma length_ewm_run (alpha : Q) (minp : nat) (xs : list cell) :
  forall st, length (Pandas.ewm_run alpha minp st xs) = length xs.
Proof. induction xs as [|x xs IH]; intros st; cbn; [reflexivity | now rewrite IH]. Qed.

Lemma ewm_step_Some (alpha : Q) (st : Pandas.ewm_state) (x : Q) :
  Pandas.nobs (Pandas.ewm_step alpha st (Some x)) = S (Pandas.nobs st)
  /\ Pandas.weighted (Pandas.ewm_step alpha st (Some x)) <> None
  /\ Pandas.old_wt (Pandas.ewm_step alpha st (Some x))
     = match Pandas.weighted st with Some _ => 1%Q | None => Pandas.old_wt st end.
Proof.
  unfold Pandas.ewm_step. destruct (Pandas.weighted st); cbn; repeat split; discriminate.
Qed.

Lemma ewm_run_values (alpha : Q) (minp : nat) (qs : list Q) :
  forall st j c,
    nth_error (Pandas.ewm_run alpha minp st (map Some qs)) j = Some c ->
    if Pandas.nobs st + j + 1 <? minp then c = None else c <> None.
Proof.
  induction qs as [|q qs IH]; intros st j c H.
  - destruct j; discriminate.
  - cbn [map Pandas.ewm_run] in H.
    destruct (ewm_step_Some alpha st q) as [Hn [Hw _]].
    destruct j as [|j].
    + cbn [nth_error] in H. injection H as <-. rewrite Hn.
      replace (Pandas.nobs st + 0 + 1) with (S (Pandas.nobs st)) by lia.
      destruct (S (Pandas.nobs st) <? minp) eqn:E.
      * apply Nat.ltb_lt in E.
        assert (E' : (minp <=? S (Pandas.nobs st)) = false) by (apply Nat.leb_gt; lia).
        now rewrite E'.
      * apply Nat.ltb_ge in E.
        assert (E' : (minp <=? S (Pandas.nobs st)) = true) by (apply Nat.leb_le; lia).
        now rewrite E'.
    + cbn [nth_error] in H. apply IH in H. rewrite Hn in H.
      now replace (Pandas.nobs st + S j + 1) with (S (Pandas.nobs st) + j + 1) by lia.
Qed.

Lemma ewm_run_leading_None (alpha : Q) (minp : nat) (xs : list cell) :
  Pandas.ewm_run alpha minp Pandas.ewm_init (None :: xs)
  = None :: Pandas.ewm_run alpha minp Pandas.ewm_init xs.
Proof. cbn. now destruct (minp <=? 0). Qed.

Lemma warm_up_ewm_mean (alpha : Q) (minp : nat) (xs : list cell) :
  1 <= minp ->
  forall k, warm_up_cells k xs ->
            warm_up_cells (k + (minp - 1)) (Pandas.ewm_mean alpha minp xs).
Proof.
  intros Hm. unfold Pandas.ewm_mean.
  induction xs as [|x xs IH]; intros k H.
  - intros [|i] c Hc; discriminate.
  - apply warm_up_cells_cons in H. destruct k as [|k].
    + destruct H as [Hx H].
      destruct (warm_up_0_values (x :: xs)) as [qs Eq].
      { intros [|i] c Hc; [injection Hc as <-; exact Hx | exact (H i c Hc)]. }
      rewrite Eq. intros i c Hc. apply ewm_run_values in Hc. cbn [Pandas.ewm_init Pandas.nobs] in Hc.
      cbn [Nat.add].
      destruct (i <? minp - 1) eqn:E.
      * apply Nat.ltb_lt in E.
        assert (E' : (0 + i + 1 <? minp) = true) by (apply Nat.ltb_lt; lia).
        now rewrite E' in Hc.
      * apply Nat.ltb_ge in E.
        assert (E' : (0 + i + 1 <? minp) = false) by (apply Nat.ltb_ge; lia).
        now rewrite E' in Hc.
    + destruct H as [-> H]. rewrite ewm_run_leading_None.
      cbn [Nat.add]. apply warm_up_cells_cons_None. now apply IH.
Qed.

Lemma length_ewm_mean (alpha : Q) (minp : nat) (xs : list cell) :
  length (Pandas.ewm_mean alpha minp xs) = length xs.
Proof. apply length_ewm_run. Qed.

(** ** Rational arithmetic *)

Lemma Qred_pos (q : Q) : (0 < q)%Q -> (0 < Qred q)%Q.
Proof. intros H. now rewrite Qred_correct. Qed.

Lemma Qred_nonneg (q : Q) : (0 <= q)%Q -> (0 <= Qred q)%Q.
Proof. intros H. now rewrite Qred_correct. Qed.

Lemma Qeq_bool_pos (q : Q) : (0 < q)%Q -> Qeq_bool q 0 = false.
Proof.
  intros H. destruct (Qeq_bool q 0) eqn:E; [|reflexivity].
  apply Qeq_bool_eq in E. rewrite E in H. now apply Qlt_irrefl in H.
Qed.

Lemma Qdiv_nonneg (a b : Q) : (0 <= a)%Q -> (0 < b)%Q -> (0 <= a / b)%Q.
Proof.
  intros Ha Hb. apply Qle_shift_div_l; [exact Hb|]. now rewrite Qmult_0_l.
Qed.

Lemma Qdiv_pos (a b : Q) : (0 < a)%Q -> (0 < b)%Q -> (0 < a / b)%Q.
Proof.
  intros Ha Hb. apply Qlt_shift_div_l; [exact Hb|]. now rewrite Qmult_0_l.
Qed.

Lemma of_nat_pos (n : nat) : 0 < n -> (0 < Float.of_nat n)%Q.
Proof.
  intros H. unfold Float.of_nat. change 0%Q with (inject_Z 0).
  rewrite <- Zlt_Qlt. lia.
Qed.

Lemma sum_pos (qs : list Q) :
  Forall (fun q => (0 < q)%Q) qs -> qs <> [] -> (0 < Float.sum qs)%Q.
Proof.
  intros H. induction H as [|q qs Hq H IH]; [congruence|]. intros _.
  change (Float.sum (q :: qs)) with (q + Float.sum qs)%Q.
  destruct qs as [|q' qs].
  - cbn. lra.
  - assert (Hs : (0 < Float.sum (q' :: qs))%Q) by (apply IH; discriminate).
    lra.
Qed.

Lemma mean_pos (qs : list Q) :
  Forall (fun q => (0 < q)%Q) qs -> qs <> [] -> (0 < Float.mean qs)%Q.
Proof.
  intros H N. unfold Float.mean. apply Qred_pos, Qdiv_pos.
  - now apply sum_pos.
  - apply of_nat_pos. destruct qs; [congruence | cbn; lia].
Qed.

Lemma In_window {A : Type} (w k : nat) (l : list A) (x : A) :
  In x (firstn w (skipn k l)) -> In x l.
Proof.
  intros H. rewrite <- (firstn_skipn k l). apply in_or_app. right.
  rewrite <- (firstn_skipn w (skipn k l)). apply in_or_app. now left.
Qed.

(** ** Bollinger bands *)

Lemma rolling_mean_pos (w : nat) (qs : list Q) (i : nat) (m : Q) :
  1 <= w ->
  Forall (fun q => (0 < q)%Q) qs ->
  nth_error (Pandas.rolling_mean w (map Some qs)) i = Some (Some m) ->
  (0 < m)%Q.
Proof.
  intros Hw Hq H. unfold Pandas.rolling_mean in H.
  assert (Hi : i < length qs).
  { apply nth_error_Some_lt in H. now rewrite length_rolling, length_map in H. }
  rewrite nth_error_rolling in H by exact Hi.
  destruct (S i <? w) eqn:E; [discriminate|]. apply Nat.ltb_ge in E.
  injection H as <-. apply mean_pos.
  - rewrite Forall_forall in *. intros x Hx. apply Hq.
    eapply In_window; eassumption.
  - intros N. apply (f_equal (@length Q)) in N.
    destruct w as [|w']; [lia|].
    rewrite length_firstn, length_skipn in N. cbn [length] in N. lia.
Qed.

Lemma scale_None (k : Q) (a : cell) : Float.mul (Some k) a = None <-> a = None.
Proof. destruct a; cbn; split; intros H; congruence. Qed.

Lemma percent_None (a : cell) : Float.mul a (Some 100%Q) = None <-> a = None.
Proof. destruct a; cbn; split; intros H; congruence. Qed.

Section Bollinger.

Variable qs : list Q.
Let close := map Some qs.
Let bb := Ta.bollinger_bands close 20 2.

Lemma warm_up_hband : warm_up_cells 19 (Ta.bollinger_hband bb).
Proof.
  change 19 with (Nat.max (20 - 1) (20 - 1)). cbn [bb Ta.bollinger_bands Ta.bollinger_hband Ta.bb_hband].
  apply warm_up_zip; [apply lift2_strict | apply warm_up_rolling |].
  apply warm_up_map; [apply scale_None | apply warm_up_rolling].
Qed.

Lemma warm_up_lband : warm_up_cells 19 (Ta.bollinger_lband bb).
Proof.
  change 19 with (Nat.max (20 - 1) (20 - 1)). cbn [bb Ta.bollinger_bands Ta.bollinger_lband Ta.bb_lband].
  apply warm_up_zip; [apply lift2_strict | apply warm_up_rolling |].
  apply warm_up_map; [apply scale_None | apply warm_up_rolling].
Qed.

Lemma warm_up_wband :
  Forall (fun q => (0 < q)%Q) qs -> warm_up_cells 19 (Ta.bollinger_wband bb).
Proof.
  intros Hq. unfold Ta.bollinger_wband.
  apply warm_up_map; [apply percent_None|].
  intros i c H. rewrite nth_error_zip in H.
  destruct (nth_error (Ta.zip Float.sub (Ta.bb_hband bb) (Ta.bb_lband bb)) i)
    as [a|] eqn:Ea; [|discriminate].
  destruct (nth_error (Ta.bb_mavg bb) i) as [b|] eqn:Eb; [|discriminate].
  injection H as <-.
  assert (Ha : warm_up_cells (Nat.max 19 19)
                             (Ta.zip Float.sub (Ta.bb_hband bb) (Ta.bb_lband bb))).
  { apply warm_up_zip; [apply lift2_strict | apply warm_up_hband | apply warm_up_lband]. }
  specialize (Ha i a Ea). cbn [Nat.max] in Ha. revert Ha.
  destruct (i <? 19) eqn:E; intros Ha.
  - now subst a.
  - destruct a as [x|]; [|congruence].
    assert (Hb := warm_up_rolling 20 Float.mean qs i b Eb).
    cbn [Nat.sub] in Hb. rewrite E in Hb.
    destruct b as [m|]; [|congruence].
    assert (Hm : (0 < m)%Q)
      by (apply (rolling_mean_pos 20 qs i m); [lia | exact Hq | exact Eb]).
    cbn [Float.div]. now rewrite (Qeq_bool_pos _ Hm).
Qed.

Lemma length_bands :
  length (Pandas.rolling_mean 20 close) = length qs
  /\ length (Ta.bollinger_hband bb) = length qs
  /\ length (Ta.bollinger_lband bb) = length qs
  /\ length (Ta.bollinger_wband bb) = length qs.
Proof.
  assert (L : length close = length qs) by apply length_map.
  assert (Lm : length (Pandas.rolling_mean 20 close) = length qs)
    by (unfold Pandas.rolling_mean; now rewrite length_rolling).
  assert (Ls : length (Ta.scale 2 (Pandas.rolling_std0 20 close)) = length qs).
  { unfold Ta.scale, Pandas.rolling_std0. now rewrite length_map, length_rolling. }
  assert (Lh : length (Ta.bollinger_hband bb) = length qs).
  { cbn [bb Ta.bollinger_bands Ta.bollinger_hband Ta.bb_hband].
    rewrite length_zip; congruence. }
  assert (Ll : length (Ta.bollinger_lband bb) = length qs).
  { cbn [bb Ta.bollinger_bands Ta.bollinger_lband Ta.bb_lband].
    rewrite length_zip; congruence. }
  repeat split; try assumption.
  unfold Ta.bollinger_wband. rewrite length_map.
  assert (Lv : length (Ta.bb_mavg bb) = length qs) by exact Lm.
  unfold Ta.bollinger_lband in Ll. unfold Ta.bollinger_hband in Lh.
  rewrite length_zip; rewrite length_zip; congruence.
Qed.

End Bollinger.

(** ** RSI *)

Lemma Some_inj {A : Type} (a b : A) : Some a = Some b -> a = b.
Proof. congruence. Qed.

Lemma ewm_step_nonneg (alpha : Q) (st : Pandas.ewm_state) (x : Q) :
  (0 <= alpha)%Q -> (alpha <= 1)%Q -> (0 <= x)%Q ->
  ewm_nonneg st -> ewm_nonneg (Pandas.ewm_step alpha st (Some x)).
Proof.
  intros Ha0 Ha1 Hx [Hw Hv]. unfold Pandas.ewm_step.
  destruct (Pandas.weighted st) as [w|] eqn:E.
  - split; [reflexivity|]. cbn [Pandas.weighted]. intros v Hv'.
    apply Some_inj in Hv'. subst v. specialize (Hv w eq_refl). rewrite Hw.
    apply Qred_nonneg, Qdiv_nonneg.
    + assert (H1 : (0 <= 1 * (1 - alpha) * w)%Q).
      { apply Qmult_le_0_compat; [lra | exact Hv]. }
      assert (H2 : (0 <= alpha * x)%Q) by now apply Qmult_le_0_compat.
      lra.
    + lra.
  - split; [exact Hw|]. cbn [Pandas.weighted]. intros v Hv'.
    apply Some_inj in Hv'. now subst v.
Qed.

Lemma ewm_run_nonneg (alpha : Q) (minp : nat) (qs : list Q) :
  (0 <= alpha)%Q -> (alpha <= 1)%Q ->
  Forall (fun q => (0 <= q)%Q) qs ->
  forall st, ewm_nonneg st ->
  forall j v,
    nth_error (Pandas.ewm_run alpha minp st (map Some qs)) j = Some (Some v) ->
    (0 <= v)%Q.
Proof.
  intros Ha0 Ha1 Hq. induction Hq as [|q qs Hq0 Hq IH]; intros st Hst j v H.
  - destruct j; discriminate.
  - cbn [map Pandas.ewm_run] in H.
    assert (Hst' := ewm_step_nonneg alpha st q Ha0 Ha1 Hq0 Hst).
    destruct j as [|j].
    + cbn [nth_error] in H. apply Some_inj in H.
      destruct (minp <=? _); [|discriminate].
      now apply (proj2 Hst').
    + cbn [nth_error] in H. exact (IH _ Hst' j v H).
Qed.

Lemma ewm_init_nonneg : ewm_nonneg Pandas.ewm_init.
Proof. split; [reflexivity | discriminate]. Qed.

Lemma up_direction_values (diff : list cell) :
  exists qs, Ta.up_direction diff = map Some qs
             /\ Forall (fun q => (0 <= q)%Q) qs.
Proof.
  induction diff as [|d diff [qs [E H]]].
  - exists []. now split.
  - cbn [Ta.up_direction map]. fold (Ta.up_direction diff). rewrite E.
    destruct d as [x|]; cbn [Float.gt].
    + destruct (Qle_bool x 0) eqn:Ex; cbn [negb].
      * exists (0%Q :: qs). split; [reflexivity|]. constructor; [lra | exact H].
      * exists (x :: qs). split; [reflexivity|]. constructor; [|exact H].
        destruct (Qlt_le_dec 0 x) as [L|L]; [lra|].
        apply Qle_bool_iff in L. congruence.
    + exists (0%Q :: qs). split; [reflexivity|]. constructor; [lra | exact H].
Qed.

Lemma down_direction_values (diff : list cell) :
  exists qs, Ta.down_direction diff = map Some qs
             /\ Forall (fun q => (0 <= q)%Q) qs.
Proof.
  induction diff as [|d diff [qs [E H]]].
  - exists []. now split.
  - cbn [Ta.down_direction map]. fold (Ta.down_direction diff). rewrite E.
    destruct d as [x|]; cbn [Float.lt Float.gt].
    + destruct (Qle_bool 0 x) eqn:Ex; cbn [negb Float.neg option_map].
      * exists (Qred (- 0) :: qs). split; [reflexivity|].
        constructor; [apply Qred_nonneg; lra | exact H].
      * exists (Qred (- x) :: qs). split; [reflexivity|].
        constructor; [|exact H]. apply Qred_nonneg.
        destruct (Qlt_le_dec x 0) as [L|L]; [lra|].
        apply Qle_bool_iff in L. congruence.
    + cbn [Float.neg option_map].
      exists (Qred (- 0) :: qs). split; [reflexivity|].
      constructor; [apply Qred_nonneg; lra | exact H].
Qed.

Lemma rsi_cell_defined (u dn : Q) :
  (0 <= u)%Q -> (0 <= dn)%Q -> Ta.rsi_cell (Some u) (Some dn) <> None.
Proof.
  intros Hu Hd. unfold Ta.rsi_cell.
  destruct (Qeq_bool dn 0) eqn:E; [discriminate|].
  assert (Hpos : (0 < dn)%Q).
  { apply Qeq_bool_neq in E. destruct (Qlt_le_dec 0 dn) as [L|L]; [exact L|].
    exfalso. apply E. lra. }
  cbn [Float.div]. rewrite E. cbn [Float.add Float.lift2].
  assert (Hr : (0 <= Qred (u / dn))%Q) by (apply Qred_nonneg; now apply Qdiv_nonneg).
  assert (Hs : (0 < Qred (1 + Qred (u / dn)))%Q) by (apply Qred_pos; lra).
  cbn [Float.div]. rewrite (Qeq_bool_pos _ Hs). discriminate.
Qed.

Lemma length_removelast_cons {A : Type} (xs : list A) :
  forall x, length (removelast (x :: xs)) = length xs.
Proof.
  induction xs as [|y xs IH]; intros x; [reflexivity|].
  change (removelast (x :: y :: xs)) with (x :: removelast (y :: xs)).
  cbn [length]. now rewrite IH.
Qed.

Lemma length_shift1 (xs : list cell) : length (Pandas.shift1 xs) = length xs.
Proof.
  destruct xs as [|x xs]; [reflexivity|].
  unfold Pandas.shift1. cbn [length]. now rewrite length_removelast_cons.
Qed.

Lemma length_diff1 (xs : list cell) : length (Pandas.diff1 xs) = length xs.
Proof.
  unfold Pandas.diff1. rewrite length_map, length_combine, length_shift1. lia.
Qed.

Lemma length_rsi (close : list cell) (window : nat) :
  length (Ta.rsi close window) = length close.
Proof.
  unfold Ta.rsi. rewrite length_zip; rewrite !length_ewm_mean.
  - unfold Ta.up_direction. now rewrite length_map, length_diff1.
  - unfold Ta.up_direction, Ta.down_direction. now rewrite !length_map.
Qed.

Lemma window_alpha_bounds (window : nat) :
  1 <= window ->
  (0 <= 1 / Float.of_nat window)%Q /\ (1 / Float.of_nat window <= 1)%Q.
Proof.
  intros H. assert (Hp := of_nat_pos window H).
  split.
  - apply Qdiv_nonneg; [lra | exact Hp].
  - apply Qle_shift_div_r; [exact Hp|].
    unfold Float.of_nat. rewrite Qmult_1_l. change 1%Q with (inject_Z 1).
    rewrite <- Zle_Qle. lia.
Qed.

(** Whatever the Close series, RSI has no value in exactly the first
    [window - 1] rows. *)
Lemma warm_up_rsi (close : list cell) (window : nat) :
  1 <= window -> warm_up_cells (window - 1) (Ta.rsi close window).
Proof.
  intros Hw. unfold Ta.rsi.
  destruct (up_direction_values (Pandas.diff1 close)) as [us [Eu Hu]].
  destruct (down_direction_values (Pandas.diff1 close)) as [dns [Ed Hd]].
  rewrite Eu, Ed.
  destruct (window_alpha_bounds window Hw) as [Ha0 Ha1].
  set (alpha := (1 / Float.of_nat window)%Q) in *.
  assert (Wu := warm_up_ewm_mean alpha window (map Some us) Hw 0 (warm_up_map_Some us)).
  assert (Wd := warm_up_ewm_mean alpha window (map Some dns) Hw 0 (warm_up_map_Some dns)).
  cbn [Nat.add] in Wu, Wd.
  intros i c H. rewrite nth_error_zip in H.
  destruct (nth_error (Pandas.ewm_mean alpha window (map Some us)) i) as [a|] eqn:Ea;
    [|discriminate].
  destruct (nth_error (Pandas.ewm_mean alpha window (map Some dns)) i) as [b|] eqn:Eb;
    [|discriminate].
  injection H as <-.
  specialize (Wu i a Ea). specialize (Wd i b Eb). revert Wu Wd.
  destruct (i <? window - 1); intros Wu Wd.
  - subst. reflexivity.
  - destruct a as [u|]; [|congruence]. destruct b as [dn|]; [|congruence].
    apply rsi_cell_defined.
    + exact (ewm_run_nonneg alpha window us Ha0 Ha1 Hu _ ewm_init_nonneg i u Ea).
    + exact (ewm_run_nonneg alpha window dns Ha0 Ha1 Hd _ ewm_init_nonneg i dn Eb).
Qed.

(** ** MACD *)

Section Macd.

Variable qs : list Q.
Let close := map Some qs.
Let m := Ta.macd_indicator close 26 12 9.

Lemma warm_up_macd_line : warm_up_cells 25 (Ta.macd m).
Proof.
  change 25 with (Nat.max (0 + (12 - 1)) (0 + (26 - 1))).
  cbn [m Ta.macd_indicator Ta.macd Ta.macd_line].
  apply warm_up_zip; [apply lift2_strict | |];
    apply warm_up_ewm_mean; try lia; apply warm_up_map_Some.
Qed.

Lemma warm_up_macd_signal : warm_up_cells 33 (Ta.macd_signal m).
Proof.
  change 33 with (25 + (9 - 1)).
  cbn [m Ta.macd_indicator Ta.macd_signal Ta.macd_sign].
  apply warm_up_ewm_mean; [lia|]. exact warm_up_macd_line.
Qed.

Lemma warm_up_macd_diff : warm_up_cells 33 (Ta.macd_diff m).
Proof.
  change 33 with (Nat.max 25 33).
  cbn [m Ta.macd_indicator Ta.macd_diff Ta.macd_hist].
  apply warm_up_zip; [apply lift2_strict | exact warm_up_macd_line
                      | exact warm_up_macd_signal].
Qed.

Lemma length_macd :
  length (Ta.macd m) = length qs
  /\ length (Ta.macd_signal m) = length qs
  /\ length (Ta.macd_diff m) = length qs.
Proof.
  assert (L : length close = length qs) by apply length_map.
  assert (Ll : length (Ta.macd m) = length qs).
  { cbn [m Ta.macd_indicator Ta.macd Ta.macd_line]. unfold Ta.ema.
    rewrite length_zip; rewrite !length_ewm_mean; first [exact L | reflexivity]. }
  assert (Ls : length (Ta.macd_signal m) = length qs).
  { cbn [m Ta.macd_indicator Ta.macd_signal Ta.macd_sign]. unfold Ta.ema at 1.
    rewrite length_ewm_mean. exact Ll. }
  repeat split; try assumption.
  cbn [m Ta.macd_indicator Ta.macd_diff Ta.macd_hist].
  rewrite length_zip; [exact Ll|]. etransitivity; [exact Ll | now symmetry].
Qed.

End Macd.

(** ** Failed fetches and fetch keys *)

Lemma charts_app (a b : list event) : charts (a ++ b) = charts a ++ charts b.
Proof. unfold charts. now rewrite flat_map_app. Qed.

Lemma downloads_app (a b : list event) : downloads (a ++ b) = downloads a ++ downloads b.
Proof. unfold downloads. now rewrite flat_map_app. Qed.

Lemma exports_app (a b : list event) : exports (a ++ b) = exports a ++ exports b.
Proof. unfold exports. now rewrite flat_map_app. Qed.

Lemma contains_middle (a s b : string) : contains (a ++ s ++ b) s.
Proof. now exists a, b. Qed.

Lemma append_assoc (a b c : string) : ((a ++ b) ++ c = a ++ (b ++ c))%string.
Proof. induction a as [|x a IH]; cbn; [reflexivity | now rewrite IH]. Qed.

Lemma append_nil_r (a : string) : (a ++ EmptyString = a)%string.
Proof. induction a as [|x a IH]; cbn; [reflexivity | now rewrite IH]. Qed.

Section FetchProps.

Variable yf_download : string -> date -> date -> string -> outcome frame.
Variables s e : date.

Lemma fetch_events_downloads (ticker : string) :
  downloads (fetch_events yf_download ticker s e) = [(ticker ++ ".NS")%string].
Proof.
  unfold fetch_events. cbn [downloads flat_map].
  now destruct (try_block yf_download (ticker ++ ".NS")%string s e).
Qed.

Lemma fetch_events_charts (ticker : string) :
  charts (fetch_events yf_download ticker s e) = [].
Proof.
  unfold fetch_events. cbn [charts flat_map].
  now destruct (try_block yf_download (ticker ++ ".NS")%string s e).
Qed.

Lemma fetch_events_exports (ticker : string) :
  exports (fetch_events yf_download ticker s e) = [].
Proof.
  unfold fetch_events. cbn [exports flat_map].
  now destruct (try_block yf_download (ticker ++ ".NS")%string s e).
Qed.

Lemma turn_events_downloads (ticker : string) :
  downloads (turn_events yf_download s e ticker) = [(ticker ++ ".NS")%string].
Proof.
  unfold turn_events. cbn [downloads flat_map app]. fold (downloads).
  change (flat_map _ ?l) with (downloads l).
  rewrite downloads_app, fetch_events_downloads.
  destruct (frame_empty _); [reflexivity|].
  destruct (ticker_row _ _); [|reflexivity].
  now destruct (chart _ _).
Qed.

Lemma turn_events_exports (ticker : string) :
  exports (turn_events yf_download s e ticker) = [].
Proof.
  unfold turn_events. cbn [exports flat_map app].
  change (flat_map _ ?l) with (exports l).
  rewrite exports_app, fetch_events_exports.
  destruct (frame_empty _); [reflexivity|].
  destruct (ticker_row _ _); [|reflexivity].
  now destruct (chart _ _).
Qed.

Lemma fetch_body_raises (key : string) (w : world) (err : exn) :
  fst (fetch_body yf_download key s e w) = Raise err ->
  try_block yf_download key s e = Raise err.
Proof.
  intros H.
  destruct (fetch_body_run yf_download key s e w) as [o [w1 [E [_ [_ R]]]]].
  rewrite E in H. cbn [fst] in H. subst o.
  destruct (try_block yf_download key s e) as [f|err'].
  - destruct R as [r [R _]]. discriminate R.
  - injection R as R. now subst.
Qed.

Lemma try_block_empty_source (key : string) (raw : frame) :
  yf_download key s e "1wk" = Ok raw -> frame_empty raw = true ->
  try_block yf_download key s e = Ok raw.
Proof. intros H E. unfold try_block. now rewrite H, E. Qed.

(** C5. A ticker whose [try] block raises, or for which the source
    returns an empty table, gets an empty frame from [fetch_stock_data].
    When the block raised, the fetch adds to the trace the request and
    one warning whose text holds the ticker and the text of the error.
    The turn of that ticker leaves the aggregation list as it was and
    renders no chart, and the loop goes on with the remaining tickers
    from the world that turn left. *)
Theorem failed_fetch_is_skipped (ticker : string) (aggregated_data : list row)
        (rest : list string) (w : world) :
  (exists err,
      fst (fetch_body yf_download (ticker ++ ".NS")%string s e w) = Raise err)
  \/ (exists raw,
         yf_download (ticker ++ ".NS")%string s e "1wk" = Ok raw
         /\ frame_empty raw = true) ->
  (exists r w1 f,
      fetch_stock_data yf_download ticker s e w = (Ok r, w1)
      /\ object w1 r = Some f
      /\ frame_empty f = true
      /\ forall err,
          fst (fetch_body yf_download (ticker ++ ".NS")%string s e w) = Raise err ->
          exists text,
            trace w1 = trace w ++ [YfDownload (ticker ++ ".NS")%string s e "1wk";
                                   StWarning text]
            /\ contains text ticker
            /\ contains text err)
  /\ (exists w2 evs,
         process_ticker yf_download s e aggregated_data ticker w
         = (Ok aggregated_data, w2)
         /\ trace w2 = trace w ++ evs
         /\ charts evs = []
         /\ process_tickers yf_download s e aggregated_data (ticker :: rest) w
            = process_tickers yf_download s e aggregated_data rest w2).
Proof.
  intros Hfail.
  assert (Hempty : frame_empty (fetched yf_download ticker s e) = true).
  { unfold fetched. destruct Hfail as [[err H]|[raw [H E]]].
    - now rewrite (fetch_body_raises _ _ _ H).
    - now rewrite (try_block_empty_source _ _ H E). }
  split.
  - destruct (fetch_stock_data_run yf_download s e ticker w)
      as [r [w1 [E [H [T X]]]]].
    exists r, w1, (fetched yf_download ticker s e).
    split; [exact E|]. split; [exact H|]. split; [exact Hempty|].
    intros err Herr. apply fetch_body_raises in Herr.
    exists ("Error fetching data for " ++ (ticker ++ ".NS") ++ ": " ++ err)%string.
    split; [|split].
    + rewrite T. unfold fetch_events. now rewrite Herr.
    + exists "Error fetching data for "%string, (".NS" ++ ": " ++ err)%string.
      now rewrite append_assoc.
    + exists ("Error fetching data for " ++ (ticker ++ ".NS") ++ ": ")%string,
             EmptyString.
      rewrite append_nil_r. now rewrite !append_assoc.
  - destruct (process_ticker_run yf_download s e aggregated_data ticker w)
      as [w2 [E [T X]]].
    assert (R : turn_result yf_download s e aggregated_data ticker
                = Ok aggregated_data).
    { unfold turn_result. now rewrite Hempty. }
    rewrite R in E.
    exists w2, (turn_events yf_download s e ticker).
    split; [exact E|]. split; [exact T|]. split.
    + unfold turn_events. rewrite Hempty. cbn [charts flat_map app].
      change (flat_map _ ?l) with (charts l).
      now rewrite charts_app, fetch_events_charts.
    + cbn [process_tickers]. unfold bind. now rewrite E.
Qed.

(** C10. In the turn of a ticker the only request sent to the data
    source carries the ticker followed by ".NS", and the row the turn
    appends, when it appends one, carries the ticker as it came from
    the upload. *)
Theorem fetch_key_is_suffixed_row_keeps_symbol (ticker : string)
        (aggregated_data : list row) (w : world) :
  exists w' evs,
    process_ticker yf_download s e aggregated_data ticker w
    = (turn_result yf_download s e aggregated_data ticker, w')
    /\ trace w' = trace w ++ evs
    /\ downloads evs = [(ticker ++ ".NS")%string]
    /\ match turn_result yf_download s e aggregated_data ticker with
       | Ok rows =>
           rows = aggregated_data
           \/ exists latest_row,
               rows = aggregated_data ++ [latest_row]
               /\ row_get "Ticker" latest_row = Some (VStr ticker)
       | Raise _ => True
       end.
Proof.
  destruct (process_ticker_run yf_download s e aggregated_data ticker w)
    as [w' [E [T X]]].
  exists w', (turn_events yf_download s e ticker).
  split; [exact E|]. split; [exact T|]. split; [apply turn_events_downloads|].
  unfold turn_result.
  destruct (frame_empty _); [now left|].
  unfold ticker_row.
  destruct (iloc_last _) as [latest_row|err]; cbn [and_then]; [|exact I].
  destruct (last_index_strftime _) as [stamp|err]; cbn [and_then]; [|exact I].
  destruct (chart _ _) as [fig|err]; cbn [and_then]; [|exact I].
  right. eexists. split; [reflexivity|].
  apply row_get_set_same.
Qed.

End FetchProps.

(** ** The aggregation list and the export *)

Lemma frame_not_empty_index (f : frame) :
  frame_empty f = false -> index f <> [].
Proof.
  unfold frame_empty. intros H E. rewrite E in H. discriminate H.
Qed.

Lemma ticker_row_of_dated_frame (f : frame) (ticker : string) (ds : list date) :
  frame_empty f = false ->
  dates_of (index f) = Some ds ->
  exists d0 rest latest_row,
    ds = d0 :: rest
    /\ ticker_row f ticker = Ok latest_row
    /\ row_get "Date" latest_row = Some (VStr (strftime (last ds d0)))
    /\ row_get "Ticker" latest_row = Some (VStr ticker).
Proof.
  intros Hne Hd. apply frame_not_empty_index in Hne.
  destruct (index f) as [|v vs] eqn:Ei; [congruence|].
  destruct ds as [|d0 rest].
  { cbn [dates_of] in Hd. destruct v; try discriminate.
    destruct (dates_of vs); discriminate. }
  exists d0, rest. unfold ticker_row, iloc_last, last_index_strftime.
  rewrite Ei. rewrite (dates_of_last _ _ _ Hd). cbn [and_then].
  eexists. split; [reflexivity|]. split; [reflexivity|]. split.
  - rewrite row_get_set_other by (apply name_neq; reflexivity).
    apply row_get_set_same.
  - apply row_get_set_same.
Qed.

Lemma find_named_column (name : string) (g : string -> list value)
      (names : list string) :
  In name names ->
  find (fun c => label_eqb (fst c) (flat name)) (map (fun n => (flat n, g n)) names)
  = Some (flat name, g name).
Proof.
  induction names as [|n names IH]; [contradiction|].
  intros Hin. cbn [map find fst].
  destruct (label_eqb (flat n) (flat name)) eqn:E.
  - apply label_eqb_eq in E. unfold flat in E. injection E as ->. reflexivity.
  - apply IH. destruct Hin as [->|Hin]; [|exact Hin].
    now rewrite label_eqb_refl in E.
Qed.

Lemma add_labels_keeps (r : row) :
  forall (seen : list string) (name : string),
    In name seen ->
    In name (fold_left (fun acc c =>
                          if existsb (String.eqb (fst c)) acc then acc
                          else acc ++ [fst c]) r seen).
Proof.
  induction r as [|c r IH]; intros seen name H; [exact H|].
  cbn [fold_left]. apply IH.
  destruct (existsb (String.eqb (fst c)) seen); [exact H|].
  apply in_or_app. now left.
Qed.

Lemma add_labels_adds (r : row) :
  forall (seen : list string) (name : string),
    In name (map fst r) ->
    In name (fold_left (fun acc c =>
                          if existsb (String.eqb (fst c)) acc then acc
                          else acc ++ [fst c]) r seen).
Proof.
  induction r as [|c r IH]; intros seen name H; [contradiction|].
  cbn [fold_left]. cbn [map In] in H. destruct H as [<-|H]; [|now apply IH].
  apply add_labels_keeps.
  destruct (existsb (String.eqb (fst c)) seen) eqn:E.
  - now apply existsb_eqb_In.
  - apply in_or_app. right. now left.
Qed.

Lemma union_labels_keeps (rows : list row) :
  forall (seen : list string) (name : string),
    In name seen -> In name (union_labels seen rows).
Proof.
  induction rows as [|r rows IH]; intros seen name H; [exact H|].
  cbn [union_labels]. apply IH. now apply add_labels_keeps.
Qed.

Lemma row_get_label (name : string) (r : row) (v : value) :
  row_get name r = Some v -> In name (map fst r).
Proof.
  unfold row_get. destruct (find _ r) as [c|] eqn:E; [|discriminate].
  intros _. apply find_some in E. destruct E as [Hin Hc].
  apply String.eqb_eq in Hc. subst. now apply in_map.
Qed.

Lemma sheet_column_of_rows (name : string) (r : row) (rows : list row) (v : value) :
  row_get name r = Some v ->
  sheet_column name (mkWorkbook "Aggregated Results"
                                (columns (frame_of_rows (r :: rows))))
  = Some (map (fun r => match row_get name r with
                        | Some v => v
                        | None => VNaN
                        end) (r :: rows)).
Proof.
  intros H. unfold sheet_column, frame_of_rows. cbn [sheet_columns columns].
  rewrite (find_named_column name
             (fun name => map (fun r => match row_get name r with
                                        | Some v => v
                                        | None => VNaN
                                        end) (r :: rows))).
  - reflexivity.
  - cbn [union_labels]. apply union_labels_keeps.
    apply add_labels_adds. now apply row_get_label in H.
Qed.

Section AggregationProps.

Variable yf_download : string -> date -> date -> string -> outcome frame.
Variables s e : date.

Lemma loop_events_exports (tickers : list string) :
  forall aggregated_data,
    exports (loop_events yf_download s e aggregated_data tickers) = [].
Proof.
  induction tickers as [|t tickers IH]; intros agg; [reflexivity|].
  cbn [loop_events]. rewrite exports_app, turn_events_exports.
  destruct (turn_result yf_download s e agg t); [apply IH | reflexivity].
Qed.

Lemma turn_result_of_dated_frame (aggregated_data : list row) (ticker : string)
      (ds : list date) :
  frame_empty (fetched yf_download ticker s e) = false ->
  dates_of (index (fetched yf_download ticker s e)) = Some ds ->
  exists d0 rest latest_row,
    ds = d0 :: rest
    /\ turn_result yf_download s e aggregated_data ticker
       = Ok (aggregated_data ++ [latest_row])
    /\ row_get "Date" latest_row = Some (VStr (strftime (last ds d0)))
    /\ row_get "Ticker" latest_row = Some (VStr ticker).
Proof.
  intros Hne Hd.
  destruct (ticker_row_of_dated_frame _ ticker _ Hne Hd)
    as [d0 [rest [row [E [Hr [HD HT]]]]]].
  destruct (fetched_chart yf_download s e ticker Hne) as [fig Hfig].
  exists d0, rest, row. split; [exact E|]. split; [|now split].
  unfold turn_result. now rewrite Hne, Hr, Hfig.
Qed.

Lemma loop_result_of_dated_frames (tickers : list string) :
  forall aggregated_data,
    (forall t, In t tickers ->
               frame_empty (fetched yf_download t s e) = false ->
               exists ds, dates_of (index (fetched yf_download t s e)) = Some ds) ->
    exists rows,
      loop_result yf_download s e aggregated_data tickers
      = Ok (aggregated_data ++ rows)
      /\ row_tickers rows
         = map (fun t => Some (VStr t)) (with_data yf_download s e tickers).
Proof.
  induction tickers as [|t tickers IH]; intros agg H.
  - exists []. cbn. now rewrite app_nil_r.
  - cbn [loop_result with_data filter].
    destruct (frame_empty (fetched yf_download t s e)) eqn:Hne; cbn [negb].
    + assert (R : turn_result yf_download s e agg t = Ok agg)
        by (unfold turn_result; now rewrite Hne).
      rewrite R. apply IH. intros t' Hin. apply H. now right.
    + destruct (H t (or_introl eq_refl) Hne) as [ds Hd].
      destruct (turn_result_of_dated_frame agg t ds Hne Hd)
        as [d0 [rest [row [_ [R [_ HT]]]]]].
      rewrite R.
      destruct (IH (agg ++ [row])) as [rows [E T]].
      { intros t' Hin. apply H. now right. }
      exists (row :: rows). split.
      * rewrite E. now rewrite <- app_assoc.
      * unfold row_tickers in *. cbn [map]. now rewrite HT, T.
Qed.

(** C8. For a ticker whose fetch brought a frame with rows, indexed by
    dates in ascending order, the turn appends one row, and the Date
    stamped on that row is the formatted latest date of the index: a
    date of the index that no date of the index exceeds. *)
Theorem stamped_date_is_the_latest (aggregated_data : list row)
        (ticker : string) (ds : list date) :
  frame_empty (fetched yf_download ticker s e) = false ->
  dates_of (index (fetched yf_download ticker s e)) = Some ds ->
  ascending ds = true ->
  exists latest latest_row,
    turn_result yf_download s e aggregated_data ticker
    = Ok (aggregated_data ++ [latest_row])
    /\ row_get "Date" latest_row = Some (VStr (strftime latest))
    /\ In latest ds
    /\ forall d, In d ds -> date_leb d latest = true.
Proof.
  intros Hne Hd Ha.
  destruct (turn_result_of_dated_frame aggregated_data ticker ds Hne Hd)
    as [d0 [rest [row [E [R [HD _]]]]]].
  subst ds. destruct (ascending_last _ _ Ha) as [Hin Hle].
  exists (last (d0 :: rest) d0), row. now repeat split.
Qed.

Lemma loop_result_tickers (tickers : list string) :
  forall aggregated_data rows',
    loop_result yf_download s e aggregated_data tickers = Ok rows' ->
    exists rows,
      rows' = aggregated_data ++ rows
      /\ row_tickers rows
         = map (fun t => Some (VStr t)) (with_data yf_download s e tickers).
Proof.
  induction tickers as [|t tickers IH]; intros agg rows' H.
  - cbn in H. injection H as <-. exists []. cbn. now rewrite app_nil_r.
  - cbn [loop_result with_data filter] in *.
    unfold turn_result in H.
    destruct (frame_empty (fetched yf_download t s e)) eqn:Hne; cbn [negb].
    + now apply IH.
    + unfold ticker_row in H.
      destruct (iloc_last _) as [latest_row|err]; cbn [and_then] in H;
        [|discriminate].
      destruct (last_index_strftime _) as [stamp|err]; cbn [and_then] in H;
        [|discriminate].
      destruct (chart _ _) as [fig|err]; cbn [and_then] in H; [|discriminate].
      destruct (IH _ _ H) as [rows [E T]].
      eexists (_ :: rows). split.
      * rewrite E. now rewrite <- app_assoc.
      * unfold row_tickers in *. cbn [map]. rewrite T. f_equal.
        apply row_get_set_same.
Qed.

Lemma ticker_column_of_rows (rows : list row) :
  forall tickers,
    row_tickers rows = map (fun t => Some (VStr t)) tickers ->
    map (fun r => match row_get "Ticker" r with
                  | Some v => v
                  | None => VNaN
                  end) rows
    = map VStr tickers.
Proof.
  unfold row_tickers.
  induction rows as [|r rows IH]; intros [|t tickers] H; try discriminate;
    [reflexivity|].
  cbn [map] in *. injection H as Hr H. rewrite Hr. f_equal. now apply IH.
Qed.

(** C7. In every run on an upload with a Ticker column, a workbook that
    is offered has as its Ticker column the tickers of the uploaded
    column in the order of their first occurrence, without those whose
    fetch was empty.  When every frame the fetcher brings with rows is
    indexed by dates, the run ends normally and offers exactly one
    workbook, or none when every fetch was empty. *)
Theorem export_rows_follow_upload_order (tickers_df : csv_table)
        (column : list (option string)) (save_filename : string) (w : world) :
  csv_column "Ticker" tickers_df = Some column ->
  exists o w' evs,
    main yf_download (Some tickers_df) s e save_filename w = (o, w')
    /\ trace w' = trace w ++ evs
    /\ (forall wb,
           In wb (exports evs) ->
           sheet_column "Ticker" wb
           = Some (map VStr (with_data yf_download s e (unique (dropna column)))))
    /\ ((forall t, In (Some t) column ->
                   frame_empty (fetched yf_download t s e) = false ->
                   exists ds,
                     dates_of (index (fetched yf_download t s e)) = Some ds) ->
        o = Ok tt
        /\ length (exports evs)
           = match with_data yf_download s e (unique (dropna column)) with
             | [] => 0
             | _ => 1
             end).
Proof.
  intros Hcol.
  destruct (main_run yf_download s e tickers_df column save_filename w Hcol)
    as [w' [E T]].
  do 3 eexists. split; [exact E|]. split; [exact T|].
  rewrite !exports_app, loop_events_exports. cbn [exports flat_map app].
  split.
  - intros wb Hwb.
    destruct (loop_result yf_download s e [] (unique (dropna column)))
      as [rows'|err] eqn:R; [|contradiction].
    destruct (loop_result_tickers _ _ _ R) as [rows [E' HT]].
    cbn [app] in E'. subst rows'.
    destruct rows as [|row rows]; [contradiction|].
    cbn [export_events flat_map app In] in Hwb.
    destruct Hwb as [<-|[]].
    destruct (with_data yf_download s e (unique (dropna column)))
      as [|t tickers] eqn:Ew; [discriminate|].
    assert (Hrow : row_get "Ticker" row = Some (VStr t))
      by (unfold row_tickers in HT; cbn [map] in HT; now injection HT).
    rewrite (sheet_column_of_rows "Ticker" row rows (VStr t) Hrow).
    f_equal. now apply ticker_column_of_rows.
  - intros Hdates.
    destruct (loop_result_of_dated_frames (unique (dropna column)) [])
      as [rows [R HT]].
    { intros t Hin. apply Hdates. now apply dropna_In, unique_In. }
    cbn [app] in R. rewrite R. split; [reflexivity|].
    destruct rows as [|row rows].
    + cbn in HT. now destruct (with_data _ _ _ _).
    + destruct (with_data yf_download s e (unique (dropna column)));
        [discriminate | reflexivity].
Qed.

End AggregationProps.

(** ** The derived columns *)

Lemma positive_numbers_floats (vs : list value) :
  positive_numbers vs ->
  exists qs, as_floats vs = Ok (map Some qs)
             /\ Forall (fun q => (0 < q)%Q) qs
             /\ length qs = length vs.
Proof.
  induction 1 as [|v vs [q [-> Hq]] H [qs [E [Hqs L]]]].
  - exists []. now repeat split.
  - exists (q :: qs). cbn [as_floats]. rewrite E. repeat split.
    + now constructor.
    + cbn. now rewrite L.
Qed.

Ltac column_of_close_indicators :=
  unfold with_close_indicators, put_floats;
  repeat (rewrite get_column_set_other by (apply name_neq; reflexivity));
  apply get_column_set_same.

Lemma close_indicator_columns (close : list cell) (f : frame) :
  let f8 := with_close_indicators close f in
  let bb := Ta.bollinger_bands close 20 2 in
  let macd := Ta.macd_indicator close 26 12 9 in
  get_column "MA_20" f8 = Ok (map of_cell (Pandas.rolling_mean 20 close))
  /\ get_column "BB_Upper" f8 = Ok (map of_cell (Ta.bollinger_hband bb))
  /\ get_column "BB_Lower" f8 = Ok (map of_cell (Ta.bollinger_lband bb))
  /\ get_column "BB_Width" f8 = Ok (map of_cell (Ta.bollinger_wband bb))
  /\ get_column "RSI" f8 = Ok (map of_cell (Ta.rsi close 14))
  /\ get_column "MACD_Line" f8 = Ok (map of_cell (Ta.macd macd))
  /\ get_column "MACD_Signal" f8 = Ok (map of_cell (Ta.macd_signal macd))
  /\ get_column "MACD_Histogram" f8 = Ok (map of_cell (Ta.macd_diff macd)).
Proof. cbv zeta. repeat split; column_of_close_indicators. Qed.

Lemma enrich_close_columns (f : frame) (close : list cell) (name : string) :
  20 <= frame_len f ->
  get_floats "Close" f = Ok close ->
  name <> "ADX"%string ->
  get_column name (snd (enrich f))
  = get_column name (with_close_indicators close f).
Proof.
  intros Hlen Hc N. unfold enrich.
  assert (E : (frame_len f <? 20) = false) by (apply Nat.ltb_ge; lia).
  rewrite E, Hc.
  destruct (adx_of_frame _) as [series|e]; cbn [snd]; [|reflexivity].
  unfold put_floats. now rewrite get_column_set_other.
Qed.

Lemma get_floats_of_column (name : string) (f : frame) (vs : list value)
      (cs : list cell) :
  get_column name f = Ok vs -> as_floats vs = Ok cs -> get_floats name f = Ok cs.
Proof. intros H E. unfold get_floats. now rewrite H. Qed.

Lemma sample_closes_positive : positive_numbers (sample_column 100 30).
Proof.
  unfold positive_numbers, sample_column. cbn [seq map].
  repeat constructor; eexists; split; reflexivity.
Qed.

(** C1, as stated, fails: on the sample series of 30 rows, all of them
    positive, RSI already holds a number in row 14, so the first 19
    rows of that column do not all carry the marker. *)
Lemma warm_up_is_not_19_rows_for_every_column :
  20 <= frame_len (sample_series 30)
  /\ positive_numbers (sample_column 100 30)
  /\ get_column "Close" (sample_series 30) = Ok (sample_column 100 30)
  /\ fst (calculate_indicators 0 (mkWorld [sample_series 30] [])) = Ok 0
  /\ (exists f', enriched (sample_series 30) = Some f')
  /\ ~ (exists f', enriched (sample_series 30) = Some f'
                   /\ warm_up_19_everywhere f').
Proof.
  split; [vm_compute; lia|].
  split; [exact sample_closes_positive|].
  split; [reflexivity|].
  split; [vm_compute; reflexivity|].
  split; [eexists; vm_compute; reflexivity|].
  intros [f' [Hf H]].
  destruct (H "RSI"%string) as [vs [Hget Hw]]; [cbn; tauto|].
  destruct (nth_error vs 13) as [v|] eqn:Ev.
  - specialize (Hw 13 v Ev). cbn in Hw. subst v.
    assert (K : match enriched (sample_series 30) with
                | Some g => match get_column "RSI" g with
                            | Ok c => option_map is_numeric (nth_error c 13)
                            | Raise _ => None
                            end
                | None => None
                end = Some true) by (vm_compute; reflexivity).
    rewrite Hf, Hget, Ev in K. discriminate K.
  - assert (K : match enriched (sample_series 30) with
                | Some g => match get_column "RSI" g with
                            | Ok c => option_map is_numeric (nth_error c 13)
                            | Raise _ => None
                            end
                | None => None
                end = Some true) by (vm_compute; reflexivity).
    rewrite Hf, Hget, Ev in K. discriminate K.
Qed.

(** C1, amended.  On a frame of at least 20 rows whose Close column
    holds positive numbers only, once the enricher has run the object
    holds the columns MA_20, BB_Upper, BB_Lower and BB_Width with the
    marker in exactly their first 19 rows, RSI in exactly its first 13,
    MACD_Line in exactly its first 25, MACD_Signal and MACD_Histogram in
    exactly their first 33, a number in every later row, and each as
    long as the Close column. *)
Theorem derived_columns_warm_up (data : ref) (w : world) (f : frame)
        (close : list value) :
  object w data = Some f ->
  20 <= frame_len f ->
  get_column "Close" f = Ok close ->
  positive_numbers close ->
  exists f',
    object (snd (calculate_indicators data w)) data = Some f'
    /\ forall name k,
        In (name, k) warm_up_rows ->
        exists vs, get_column name f' = Ok vs
                   /\ length vs = length close
                   /\ warm_up k vs.
Proof.
  intros Hobj Hlen Hclose Hpos.
  destruct (positive_numbers_floats close Hpos) as [qs [Efl [Hqs Lqs]]].
  assert (Hc := get_floats_of_column "Close" f close _ Hclose Efl).
  exists (snd (enrich f)). split.
  { rewrite (calculate_indicators_run _ _ _ Hobj). cbn [snd].
    exact (object_put _ _ _ _ Hobj). }
  destruct (close_indicator_columns (map Some qs) f)
    as [C1 [C2 [C3 [C4 [C5 [C6 [C7 C8]]]]]]].
  destruct (length_bands qs) as [L1 [L2 [L3 L4]]].
  destruct (length_macd qs) as [L6 [L7 L8]].
  intros name k Hin. cbn [warm_up_rows In] in Hin.
  repeat (destruct Hin as [Hin|Hin];
          [injection Hin as <- <-;
           rewrite (enrich_close_columns f (map Some qs)) by
               (try assumption; apply name_neq; reflexivity);
           eexists; split; [eassumption|]; rewrite length_map; split
          |]); try contradiction.
  - congruence.
  - apply warm_up_of_cells. exact (warm_up_rolling 20 Float.mean qs).
  - congruence.
  - apply warm_up_of_cells. exact (warm_up_hband qs).
  - congruence.
  - apply warm_up_of_cells. exact (warm_up_lband qs).
  - congruence.
  - apply warm_up_of_cells. exact (warm_up_wband qs Hqs).
  - rewrite length_rsi, length_map. exact Lqs.
  - apply warm_up_of_cells. apply (warm_up_rsi (map Some qs) 14). lia.
  - congruence.
  - apply warm_up_of_cells. exact (warm_up_macd_line qs).
  - congruence.
  - apply warm_up_of_cells. exact (warm_up_macd_signal qs).
  - congruence.
  - apply warm_up_of_cells. exact (warm_up_macd_diff qs).
Qed.

Lemma of_cell_VNum (c : cell) (q : Q) : of_cell c = VNum q -> c = Some q.
Proof. destruct c; cbn; intros H; [injection H as -> | discriminate]; reflexivity. Qed.

Lemma nth_error_of_cells (cs : list cell) (i : nat) (q : Q) :
  nth_error (map of_cell cs) i = Some (VNum q) -> nth_error cs i = Some (Some q).
Proof.
  rewrite nth_error_map. destruct (nth_error cs i) as [c|]; [|discriminate].
  cbn [option_map]. intros H. apply Some_inj in H. apply of_cell_VNum in H.
  now subst.
Qed.

Lemma width_of_bands (close : list cell) (i : nat) (u l m : Q) :
  let bb := Ta.bollinger_bands close 20 2 in
  nth_error (Ta.bollinger_hband bb) i = Some (Some u) ->
  nth_error (Ta.bollinger_lband bb) i = Some (Some l) ->
  nth_error (Pandas.rolling_mean 20 close) i = Some (Some m) ->
  ~ (m == 0)%Q ->
  exists wd, nth_error (Ta.bollinger_wband bb) i = Some (Some wd)
             /\ (wd == 100 * ((u - l) / m))%Q.
Proof.
  cbv zeta. intros Hu Hl Hm Hm0. unfold Ta.bollinger_wband.
  rewrite nth_error_map, !nth_error_zip.
  unfold Ta.bollinger_hband in Hu. unfold Ta.bollinger_lband in Hl.
  rewrite Hu, Hl.
  change (Ta.bb_mavg (Ta.bollinger_bands close 20 2))
    with (Pandas.rolling_mean 20 close).
  rewrite Hm. cbn [option_map Float.sub Float.lift2 Float.div].
  destruct (Qeq_bool m 0) eqn:E; [apply Qeq_bool_eq in E; contradiction|].
  cbn [Float.mul Float.lift2]. eexists. split; [reflexivity|].
  rewrite !Qred_correct. field. exact Hm0.
Qed.

(** C2, as stated, fails: in row 20 of the enriched sample series the
    three bands hold numbers and BB_Width is more than 1 away from
    (upper - lower) / middle. *)
Lemma width_is_not_the_plain_ratio :
  fst (calculate_indicators 0 (mkWorld [sample_series 30] [])) = Ok 0
  /\ (exists f', enriched (sample_series 30) = Some f')
  /\ ~ (exists f', enriched (sample_series 30) = Some f'
                   /\ width_is_ratio 1 1 f').
Proof.
  split; [vm_compute; reflexivity|].
  split; [eexists; vm_compute; reflexivity|].
  intros [f' [Hf H]].
  assert (K : match enriched (sample_series 30) with
              | Some g =>
                  match get_column "BB_Upper" g, get_column "BB_Lower" g,
                        get_column "MA_20" g, get_column "BB_Width" g with
                  | Ok up, Ok lo, Ok mi, Ok wi =>
                      match nth_error up 19, nth_error lo 19,
                            nth_error mi 19, nth_error wi 19 with
                      | Some (VNum u), Some (VNum l), Some (VNum m), Some (VNum wd) =>
                          Qle_bool (Qabs (wd - 1 * ((u - l) / m))) 1
                      | _, _, _, _ => true
                      end
                  | _, _, _, _ => true
                  end
              | None => true
              end = false) by (vm_compute; reflexivity).
  rewrite Hf in K.
  destruct (get_column "BB_Upper" f') as [up|] eqn:Eup; [|discriminate K].
  destruct (get_column "BB_Lower" f') as [lo|] eqn:Elo; [|discriminate K].
  destruct (get_column "MA_20" f') as [mi|] eqn:Emi; [|discriminate K].
  destruct (get_column "BB_Width" f') as [wi|] eqn:Ewi; [|discriminate K].
  destruct (nth_error up 19) as [[u| | |]|] eqn:Eu; try discriminate K.
  destruct (nth_error lo 19) as [[l| | |]|] eqn:El; try discriminate K.
  destruct (nth_error mi 19) as [[m| | |]|] eqn:Em; try discriminate K.
  destruct (H up lo mi wi 19 u l m Eup Elo Emi Ewi Eu El Em) as [wd [Ewd Hwd]].
  rewrite Ewd in K. apply Qle_bool_iff in Hwd. congruence.
Qed.

(** C2, amended.  On a frame of at least 20 rows whose Close column
    holds positive numbers only, in every row of the enriched object
    where BB_Upper, BB_Lower and MA_20 hold numbers u, l and m, BB_Width
    holds 100 * ((u - l) / m): the width is a percentage of the middle
    band. *)
Theorem width_is_percent_of_middle_band (data : ref) (w : world) (f : frame)
        (close : list value) :
  object w data = Some f ->
  20 <= frame_len f ->
  get_column "Close" f = Ok close ->
  positive_numbers close ->
  exists f',
    object (snd (calculate_indicators data w)) data = Some f'
    /\ width_is_ratio 100 0 f'.
Proof.
  intros Hobj Hlen Hclose Hpos.
  destruct (positive_numbers_floats close Hpos) as [qs [Efl [Hqs Lqs]]].
  assert (Hc := get_floats_of_column "Close" f close _ Hclose Efl).
  exists (snd (enrich f)). split.
  { rewrite (calculate_indicators_run _ _ _ Hobj). cbn [snd].
    exact (object_put _ _ _ _ Hobj). }
  destruct (close_indicator_columns (map Some qs) f)
    as [C1 [C2 [C3 [C4 _]]]].
  intros upper lower middle width i u l m Hup Hlo Hmi Hwi Hu Hl Hm.
  rewrite (enrich_close_columns f (map Some qs)) in Hup, Hlo, Hmi, Hwi
    by (try assumption; apply name_neq; reflexivity).
  rewrite C2 in Hup. rewrite C3 in Hlo. rewrite C1 in Hmi. rewrite C4 in Hwi.
  injection Hup as <-. injection Hlo as <-. injection Hmi as <-. injection Hwi as <-.
  apply nth_error_of_cells in Hu, Hl, Hm.
  assert (Hm0 : ~ (m == 0)%Q).
  { assert (P := rolling_mean_pos 20 qs i m ltac:(lia) Hqs Hm).
    intros E. rewrite E in P. now apply Qlt_irrefl in P. }
  destruct (width_of_bands (map Some qs) i u l m Hu Hl Hm Hm0) as [wd [Ewd Heq]].
  exists wd. split.
  - rewrite nth_error_map, Ewd. reflexivity.
  - rewrite Heq. setoid_replace (100 * ((u - l) / m) - 100 * ((u - l) / m))%Q with 0%Q by ring.
    cbn. apply Qle_refl.
Qed.

(** * Further properties *)

(** ** The chart builder *)

Lemma has_column_false_get (name : string) (f : frame) :
  has_column name f = false -> get_column name f = Raise name.
Proof.
  unfold has_column, has_label, get_column.
  induction (columns f) as [|c cols IH]; cbn [existsb find]; [reflexivity|].
  destruct (label_eqb (fst c) (flat name)); cbn [orb]; [discriminate | exact IH].
Qed.

Lemma chart_of_candle_columns (f : frame) (ticker : string)
      (open high low close : list value) :
  get_column "Open" f = Ok open -> get_column "High" f = Ok high ->
  get_column "Low" f = Ok low -> get_column "Close" f = Ok close ->
  exists overlays,
    chart f ticker
    = Ok (mkFigure (Candlestick (index f) open high low close ticker :: overlays)
                   (Some (mkLayout ("Candlestick Chart for " ++ ticker)%string
                                   "Date" "Price" false "plotly_dark")))
    /\ map trace_name overlays = overlay_names f
    /\ Forall (fun t => trace_x t = index f) overlays.
Proof.
  intros Ho Hh Hl Hc. unfold chart, overlay_names. rewrite Ho, Hh, Hl, Hc.
  cbn [and_then].
  destruct (has_column "BB_Upper" f) eqn:Hu; cbn [andb].
  - destruct (has_column "BB_Lower" f) eqn:Hlo.
    + destruct (has_column_get _ _ Hu) as [upper ->].
      destruct (has_column_get _ _ Hlo) as [lower ->].
      cbn [and_then].
      destruct (has_column "MA_20" f) eqn:Hm.
      * destruct (has_column_get _ _ Hm) as [ma ->]. cbn [and_then app].
        eexists. split; [reflexivity|]. split; [reflexivity|].
        repeat constructor.
      * cbn [and_then app]. eexists. split; [reflexivity|].
        split; [reflexivity|]. repeat constructor.
    + cbn [and_then].
      destruct (has_column "MA_20" f) eqn:Hm.
      * destruct (has_column_get _ _ Hm) as [ma ->]. cbn [and_then app].
        eexists. split; [reflexivity|]. split; [reflexivity|].
        repeat constructor.
      * cbn [and_then app]. eexists. split; [reflexivity|].
        split; [reflexivity|]. repeat constructor.
  - cbn [and_then].
    destruct (has_column "MA_20" f) eqn:Hm.
    + destruct (has_column_get _ _ Hm) as [ma ->]. cbn [and_then app].
      eexists. split; [reflexivity|]. split; [reflexivity|].
      repeat constructor.
    + cbn [and_then app]. eexists. split; [reflexivity|].
      split; [reflexivity|]. repeat constructor.
Qed.

(** X1. On a frame that has the columns Open, High, Low and Close the
    chart builder returns a figure and changes nothing in the world.
    The figure starts with the candlestick named after the ticker; the
    two band overlays follow only when BB_Upper and BB_Lower are both
    present, the moving average only when MA_20 is; every trace is
    drawn over the index of the frame, and the title ends with the
    ticker. *)
Theorem chart_overlays_follow_the_columns (data : ref) (ticker : string)
        (w : world) (f : frame) :
  object w data = Some f ->
  (forall name, In name candle_columns -> has_column name f = true) ->
  exists fig,
    plot_candlestick_chart data ticker w = (Ok fig, w)
    /\ map trace_name (fig_data fig) = ticker :: overlay_names f
    /\ Forall (fun t => trace_x t = index f) (fig_data fig)
    /\ option_map title (fig_layout fig)
       = Some ("Candlestick Chart for " ++ ticker)%string.
Proof.
  intros Hobj Hcols.
  destruct (has_column_get "Open" f) as [open Ho]; [apply Hcols; cbn; tauto|].
  destruct (has_column_get "High" f) as [high Hh]; [apply Hcols; cbn; tauto|].
  destruct (has_column_get "Low" f) as [low Hl]; [apply Hcols; cbn; tauto|].
  destruct (has_column_get "Close" f) as [close Hc]; [apply Hcols; cbn; tauto|].
  destruct (chart_of_candle_columns f ticker open high low close Ho Hh Hl Hc)
    as [overlays [E [Hn Hx]]].
  eexists. split.
  { rewrite (plot_candlestick_chart_run _ _ _ _ Hobj). rewrite E. reflexivity. }
  cbn [fig_data fig_layout option_map title map trace_name].
  split; [now rewrite Hn|]. split; [|reflexivity].
  constructor; [reflexivity | exact Hx].
Qed.

(** X2. When one of Open, High, Low, Close is missing the chart builder
    raises, naming a missing column, and leaves the world as it was:
    nothing is drawn with part of the data. *)
Theorem chart_needs_the_candle_columns (data : ref) (ticker : string)
        (w : world) (f : frame) :
  object w data = Some f ->
  (exists name, In name candle_columns /\ has_column name f = false) ->
  exists missing,
    plot_candlestick_chart data ticker w = (Raise missing, w)
    /\ In missing candle_columns
    /\ has_column missing f = false.
Proof.
  intros Hobj Hmiss.
  rewrite (plot_candlestick_chart_run _ _ _ _ Hobj). unfold chart.
  destruct (has_column "Open" f) eqn:Ho.
  2:{ exists "Open"%string. rewrite (has_column_false_get _ _ Ho).
      cbn. tauto. }
  destruct (has_column_get _ _ Ho) as [open ->]. cbn [and_then].
  destruct (has_column "High" f) eqn:Hh.
  2:{ exists "High"%string. rewrite (has_column_false_get _ _ Hh).
      cbn. tauto. }
  destruct (has_column_get _ _ Hh) as [high ->]. cbn [and_then].
  destruct (has_column "Low" f) eqn:Hl.
  2:{ exists "Low"%string. rewrite (has_column_false_get _ _ Hl).
      cbn. tauto. }
  destruct (has_column_get _ _ Hl) as [low ->]. cbn [and_then].
  destruct (has_column "Close" f) eqn:Hc.
  2:{ exists "Close"%string. rewrite (has_column_false_get _ _ Hc).
      cbn. tauto. }
  exfalso. destruct Hmiss as [name [Hin Hf]]. cbn [candle_columns In] in Hin.
  destruct Hin as [<-|[<-|[<-|[<-|[]]]]]; congruence.
Qed.

(** ** The reshaping of a download *)

Lemma select_columns_split (name : string) (names : list string) (f : frame)
      (cols : list (label * list value)) :
  select_columns (name :: names) f = Ok cols ->
  exists rest,
    select_columns names f = Ok rest
    /\ cols = filter (fun c => label_eqb (fst c) (flat name)) (columns f) ++ rest
    /\ filter (fun c => label_eqb (fst c) (flat name)) (columns f) <> [].
Proof.
  cbn [select_columns]. intros H.
  destruct (filter (fun c => label_eqb (fst c) (flat name)) (columns f))
    as [|c found] eqn:Ef; [discriminate|].
  destruct (select_columns names f) as [rest|err]; [|discriminate].
  injection H as <-. exists rest. now repeat split.
Qed.

Lemma select_columns_labels (names : list string) (f : frame) :
  forall cols,
    select_columns names f = Ok cols ->
    forall c, In c cols -> exists name, In name names /\ fst c = flat name.
Proof.
  induction names as [|n names IH]; intros cols H c Hc.
  - cbn in H. injection H as <-. contradiction.
  - destruct (select_columns_split _ _ _ _ H) as [rest [Hr [-> _]]].
    apply in_app_or in Hc. destruct Hc as [Hc|Hc].
    + apply filter_In in Hc. destruct Hc as [_ Hc]. apply label_eqb_eq in Hc.
      exists n. split; [now left | exact Hc].
    + destruct (IH rest Hr c Hc) as [name [Hin E]].
      exists name. split; [now right | exact E].
Qed.

Lemma select_columns_missing (names : list string) (f : frame) (name : string) :
  In name names ->
  ~ In (flat name) (labels f) ->
  exists err, select_columns names f = Raise err.
Proof.
  intros Hin Hno. induction names as [|n names IH]; [contradiction|].
  cbn [select_columns].
  destruct (filter (fun c => label_eqb (fst c) (flat n)) (columns f))
    as [|c found] eqn:Ef; [eexists; reflexivity|].
  destruct Hin as [->|Hin].
  - exfalso. apply Hno.
    assert (Hc : In c (filter (fun c => label_eqb (fst c) (flat name)) (columns f)))
      by (rewrite Ef; now left).
    apply filter_In in Hc. destruct Hc as [Hc E]. apply label_eqb_eq in E.
    rewrite <- E. unfold labels. now apply in_map.
  - destruct (IH Hin) as [err ->]. now exists err.
Qed.

Lemma filter_all {A : Type} (p : A -> bool) (l : list A) :
  (forall x, In x l -> p x = true) -> filter p l = l.
Proof.
  induction l as [|x l IH]; intros H; [reflexivity|]. cbn [filter].
  rewrite (H x (or_introl eq_refl)). f_equal. apply IH.
  intros y Hy. apply H. now right.
Qed.

Lemma reset_index_result (raw f1 : frame) :
  reset_index raw = Ok f1 ->
  exists depth,
    columns f1 = ((reset_name raw, repeat EmptyString depth), index raw)
                   :: columns raw
    /\ index_name f1 = None
    /\ length (index f1) = length (index raw).
Proof.
  unfold reset_index. fold (reset_name raw).
  destruct (has_label _ raw); [discriminate|]. intros H. injection H as <-.
  eexists. cbn [columns index_name index]. split; [reflexivity|].
  split; [reflexivity|]. unfold frame_len. now rewrite length_map, length_seq.
Qed.

Lemma reshape_shape (raw f : frame) :
  reshape raw = Ok f ->
  index_name f = Some "Date"%string
  /\ (forall l, In l (labels f) -> exists name, In name price_columns /\ l = flat name)
  /\ (forall name, In name price_columns -> has_column name f = true)
  /\ (index_name raw = Some "Date"%string -> index f = index raw).
Proof.
  intros H. assert (Hhas := reshape_has_column raw f).
  unfold reshape, select, set_index in H.
  destruct (reset_index raw) as [f1|err] eqn:E1; [|discriminate].
  destruct (select_columns _ (level0_columns f1)) as [cols|err] eqn:Es; [|discriminate].
  cbn [columns index_name index] in H.
  destruct (filter (fun c => label_eqb (fst c) (flat "Date")) cols)
    as [|c [|c' l']] eqn:Ed; try discriminate.
  injection H as <-. cbn [index_name index].
  split; [reflexivity|]. split; [|split].
  - unfold labels. cbn [columns]. intros l Hl. apply in_map_iff in Hl.
    destruct Hl as [c0 [<- Hc0]]. apply filter_In in Hc0.
    destruct Hc0 as [Hc0 Hn].
    destruct (select_columns_labels _ _ _ Es c0 Hc0) as [name [Hin E]].
    exists name. split; [|exact E].
    destruct Hin as [<-|Hin]; [|exact Hin].
    apply negb_true_iff, label_eqb_neq in Hn. contradiction.
  - intros name Hin. apply (Hhas name); [|exact Hin].
    unfold reshape, select, set_index. rewrite E1, Es. cbn [columns]. now rewrite Ed.
  - intros Hname.
    destruct (reset_index_result raw f1 E1) as [depth [Hcols _]].
    assert (Hr : reset_name raw = "Date"%string)
      by (unfold reset_name; now rewrite Hname).
    rewrite Hr in Hcols.
    destruct (select_columns_split _ _ _ _ Es) as [rest [Hrest [Ecols _]]].
    unfold level0_columns in Ecols. cbn [columns] in Ecols.
    rewrite Hcols in Ecols. cbn [map filter fst snd] in Ecols.
    rewrite label_eqb_refl in Ecols. cbn [app] in Ecols.
    rewrite Ecols in Ed. cbn [filter fst] in Ed.
    rewrite label_eqb_refl in Ed. injection Ed as <- _. reflexivity.
Qed.

(** X3. A download that the fetcher reshapes without error comes out
    indexed under the name "Date", with every column carrying one of the
    five flat names Open, High, Low, Close, Volume and each of the five
    present; and when the download was indexed under "Date", the index
    is the one of the download: turning the index into a column and back
    loses nothing. *)
Theorem reshaped_frame_is_a_price_table (raw f : frame) :
  reshape raw = Ok f ->
  index_name f = Some "Date"%string
  /\ (forall l, In l (labels f) -> exists name, In name price_columns /\ l = flat name)
  /\ (forall name, In name price_columns -> has_column name f = true)
  /\ (index_name raw = Some "Date"%string -> index f = index raw).
Proof. exact (reshape_shape raw f). Qed.

Lemma labels_level0 (f : frame) :
  labels (level0_columns f) = map (fun c => flat (fst (fst c))) (columns f).
Proof. unfold labels, level0_columns. cbn [columns]. now rewrite map_map. Qed.

Lemma reshape_missing_name (raw : frame) (name : string) :
  In name requested_columns ->
  ~ In name (level0_names raw) ->
  exists err, reshape raw = Raise err.
Proof.
  intros Hin Hno. unfold reshape.
  destruct (reset_index raw) as [f1|err] eqn:E1; [|now exists err].
  destruct (reset_index_result raw f1 E1) as [depth [Hcols _]].
  destruct (select_columns_missing requested_columns (level0_columns f1) name Hin)
    as [err Herr].
  { rewrite labels_level0, Hcols. cbn [map fst]. intros [E|E].
    - apply Hno. unfold flat in E. injection E as E. left. exact E.
    - apply in_map_iff in E. destruct E as [c [E Hc]].
      unfold flat in E. injection E as E. apply Hno. right.
      apply in_map_iff. now exists c. }
  unfold select. change ["Date"; "Open"; "High"; "Low"; "Close"; "Volume"]%string
    with requested_columns. rewrite Herr. now exists err.
Qed.

Section ReshapeProps.

Variable yf_download : string -> date -> date -> string -> outcome frame.
Variables s e : date.

(** X4. When the source answers with rows but, once the index has
    become a column, one of Date, Open, High, Low, Close, Volume is not
    among the level-0 names, the fetcher does not fail: it sends the one
    request, shows one warning that starts with the fetch key, and
    hands back an empty frame. *)
Theorem incomplete_download_is_an_empty_fetch (ticker : string) (raw : frame)
        (name : string) (w : world) :
  yf_download (fetch_key ticker) s e "1wk" = Ok raw ->
  frame_empty raw = false ->
  In name requested_columns ->
  ~ In name (level0_names raw) ->
  exists r w' err,
    fetch_stock_data yf_download ticker s e w = (Ok r, w')
    /\ object w' r = Some empty_frame
    /\ trace w'
       = trace w ++ [YfDownload (fetch_key ticker) s e "1wk";
                     StWarning ("Error fetching data for " ++ fetch_key ticker
                                  ++ ": " ++ err)%string].
Proof.
  intros Hsrc Hne Hin Hno.
  destruct (reshape_missing_name raw name Hin Hno) as [err Herr].
  destruct (fetch_stock_data_run yf_download s e ticker w)
    as [r [w' [E [Hobj [T _]]]]].
  assert (B : try_block yf_download (fetch_key ticker) s e = Raise err).
  { unfold try_block. now rewrite Hsrc, Hne, Herr. }
  exists r, w', err. split; [exact E|]. split.
  - rewrite Hobj. unfold fetched. fold (fetch_key ticker). now rewrite B.
  - rewrite T. unfold fetch_events. fold (fetch_key ticker). now rewrite B.
Qed.

(** X5. The fetcher never raises.  Whatever the source does, it returns
    a reference to a frame, has sent exactly one request, under the key
    of the ticker, has rendered nothing, and every object that was on
    the heap before is still there unchanged. *)
Theorem fetch_never_raises (ticker : string) (w : world) :
  exists r w' f evs,
    fetch_stock_data yf_download ticker s e w = (Ok r, w')
    /\ object w' r = Some f
    /\ trace w' = trace w ++ evs
    /\ downloads evs = [fetch_key ticker]
    /\ charts evs = []
    /\ extends w w'.
Proof.
  destruct (fetch_stock_data_run yf_download s e ticker w)
    as [r [w' [E [Hobj [T X]]]]].
  exists r, w', (fetched yf_download ticker s e),
         (fetch_events yf_download ticker s e).
  split; [exact E|]. split; [exact Hobj|]. split; [exact T|].
  split; [apply fetch_events_downloads|]. split; [apply fetch_events_charts | exact X].
Qed.

End ReshapeProps.

(** ** The enricher and the columns of its frame *)

Lemma get_column_lookup (name : string) (f : frame) :
  get_column name f = match lookup_label (flat name) f with
                      | Some vs => Ok vs
                      | None => Raise name
                      end.
Proof.
  unfold get_column, lookup_label.
  now destruct (find _ (columns f)).
Qed.

Lemma has_column_lookup_b (name : string) (f : frame) :
  has_column name f = match lookup_label (flat name) f with
                      | Some _ => true
                      | None => false
                      end.
Proof.
  destruct (has_column name f) eqn:E.
  - apply has_column_lookup in E. now destruct (lookup_label _ f).
  - destruct (lookup_label (flat name) f) eqn:L; [|reflexivity].
    assert (H : has_column name f = true) by (apply has_column_lookup; congruence).
    congruence.
Qed.

Lemma has_column_set_other (name name' : string) (vals : list value) (f : frame) :
  name <> name' -> has_column name (set_column name' vals f) = has_column name f.
Proof.
  intros N. rewrite !has_column_lookup_b.
  rewrite lookup_label_set_other; [reflexivity | now apply flat_inj].
Qed.

Lemma has_column_set_same (name : string) (vals : list value) (f : frame) :
  has_column name (set_column name vals f) = true.
Proof.
  rewrite has_column_lookup_b.
  assert (H := get_column_set_same name vals f).
  rewrite get_column_lookup in H.
  now destruct (lookup_label _ _).
Qed.

Lemma labels_set_column_new (name : string) (vals : list value) (f : frame) :
  has_column name f = false ->
  labels (set_column name vals f) = labels f ++ [flat name].
Proof.
  intros H. unfold labels, set_column. cbn [columns]. rewrite H.
  now rewrite map_app.
Qed.

Lemma labels_set_column_old (name : string) (vals : list value) (f : frame) :
  has_column name f = true ->
  labels (set_column name vals f) = labels f.
Proof.
  intros H. unfold labels, set_column. cbn [columns]. rewrite H. clear H.
  induction (columns f) as [|c cols IH]; [reflexivity|].
  cbn [replace_column map]. rewrite IH. f_equal.
  destruct (label_eqb (fst c) (flat name)) eqn:E; [|reflexivity].
  apply label_eqb_eq in E. now rewrite E.
Qed.

Ltac fresh_name H :=
  repeat (rewrite has_column_set_other by (apply name_neq; reflexivity));
  apply H; cbn; tauto.

Lemma labels_with_close_indicators (close : list cell) (f : frame) :
  (forall name, In name derived_columns -> has_column name f = false) ->
  labels (with_close_indicators close f)
  = labels f ++ map flat ["MA_20"; "BB_Upper"; "BB_Lower"; "BB_Width"; "RSI";
                          "MACD_Line"; "MACD_Signal"; "MACD_Histogram"]%string.
Proof.
  intros H. unfold with_close_indicators, put_floats.
  repeat (rewrite labels_set_column_new by fresh_name H).
  rewrite <- !app_assoc. reflexivity.
Qed.

Lemma has_column_with_close_indicators (close : list cell) (f : frame)
      (name : string) :
  In name ["MA_20"; "BB_Upper"; "BB_Lower"; "BB_Width"; "RSI";
           "MACD_Line"; "MACD_Signal"; "MACD_Histogram"]%string ->
  has_column name (with_close_indicators close f) = true.
Proof.
  intros Hin. rewrite has_column_lookup_b.
  destruct (close_indicator_columns close f)
    as [C1 [C2 [C3 [C4 [C5 [C6 [C7 C8]]]]]]].
  cbn [In] in Hin.
  repeat (destruct Hin as [<-|Hin];
          [ match goal with
            | C : get_column ?n _ = Ok _ |- context [lookup_label (flat ?n) _] =>
                rewrite get_column_lookup in C;
                destruct (lookup_label (flat n) _); [reflexivity | discriminate C]
            end
          | ]).
  contradiction.
Qed.

(** X6. On a frame of at least 20 rows without a Close column the
    enricher raises at its first step, naming the column, and leaves
    the world, the object included, as it was. *)
Theorem enricher_needs_the_close_column (data : ref) (w : world) (f : frame) :
  object w data = Some f ->
  20 <= frame_len f ->
  has_column "Close" f = false ->
  calculate_indicators data w = (Raise "Close"%string, w).
Proof.
  intros Hobj Hlen Hc.
  rewrite (calculate_indicators_run _ _ _ Hobj). unfold enrich, get_floats.
  assert (E : (frame_len f <? 20) = false) by (apply Nat.ltb_ge; lia).
  rewrite E, (has_column_false_get _ _ Hc). cbn [fst snd].
  now rewrite (put_same _ _ _ Hobj).
Qed.

(** X7. When the enricher returns normally on a frame of at least 20
    rows, the object holds all nine derived columns; and when the frame
    had none of them before, they stand after the columns it had, in
    the order in which the function assigns them. *)
Theorem enricher_appends_the_nine_columns (data : ref) (w : world) (f : frame) :
  object w data = Some f ->
  20 <= frame_len f ->
  fst (calculate_indicators data w) = Ok data ->
  exists f',
    object (snd (calculate_indicators data w)) data = Some f'
    /\ (forall name, In name derived_columns -> has_column name f' = true)
    /\ ((forall name, In name derived_columns -> has_column name f = false) ->
        labels f' = labels f ++ map flat derived_columns).
Proof.
  intros Hobj Hlen Hok.
  rewrite (calculate_indicators_run _ _ _ Hobj) in *. cbn [fst snd] in *.
  exists (snd (enrich f)). split; [exact (object_put _ _ _ _ Hobj)|].
  unfold enrich in *.
  assert (E : (frame_len f <? 20) = false) by (apply Nat.ltb_ge; lia).
  rewrite E in *.
  destruct (get_floats "Close" f) as [close|err]; [|discriminate Hok].
  destruct (adx_of_frame _) as [series|err]; [|discriminate Hok].
  cbn [snd]. unfold put_floats at 1 2. split.
  - intros name Hin. cbn [derived_columns In] in Hin.
    destruct (string_dec name "ADX") as [->|N]; [apply has_column_set_same|].
    rewrite has_column_set_other by exact N.
    apply has_column_with_close_indicators. cbn [In]. intuition congruence.
  - intros Hnew. rewrite labels_set_column_new.
    + rewrite labels_with_close_indicators by exact Hnew.
      rewrite <- app_assoc. reflexivity.
    + unfold with_close_indicators, put_floats. fresh_name Hnew.
Qed.

(** ** The ticker list, once more *)

Lemma dropna_map_Some (l : list string) : dropna (map Some l) = l.
Proof.
  unfold dropna. induction l as [|x l IH]; cbn; [reflexivity | now f_equal].
Qed.

Lemma unique_NoDup_id (l : list string) : NoDup l -> unique l = l.
Proof.
  induction 1 as [|x l Hx H IH]; [reflexivity|].
  rewrite unique_cons, IH. f_equal. apply filter_all.
  intros y Hy. apply fresh_spec. intros [E|[]]. subst. contradiction.
Qed.

(** X8. A Ticker column whose fields are all filled and pairwise
    different is processed as it stands: same tickers, same order. *)
Theorem clean_ticker_column_is_kept (l : list string) :
  NoDup l -> unique (dropna (map Some l)) = l.
Proof. intros H. rewrite dropna_map_Some. now apply unique_NoDup_id. Qed.

(** ** One turn of the loop *)

Lemma string_length_append (a b : string) :
  String.length (a ++ b) = String.length a + String.length b.
Proof. induction a as [|x a IH]; cbn; [reflexivity | now rewrite IH]. Qed.

Lemma append_inj_r (c : string) :
  forall a b, (a ++ c = b ++ c)%string -> a = b.
Proof.
  induction a as [|x a IH]; intros [|y b] H; cbn in H.
  - reflexivity.
  - apply (f_equal String.length) in H. cbn in H.
    rewrite string_length_append in H. lia.
  - apply (f_equal String.length) in H. cbn in H.
    rewrite string_length_append in H. lia.
  - injection H as -> H. f_equal. now apply IH.
Qed.

Lemma fetch_key_inj (a b : string) : fetch_key a = fetch_key b -> a = b.
Proof. apply append_inj_r. Qed.

Lemma NoDup_map_injective {A B : Type} (g : A -> B) (l : list A) :
  (forall x y, g x = g y -> x = y) -> NoDup l -> NoDup (map g l).
Proof.
  intros Hg. induction 1 as [|x l Hx H IH]; cbn; constructor; [|exact IH].
  intros Hin. apply in_map_iff in Hin. destruct Hin as [y [E Hy]].
  apply Hg in E. subst. contradiction.
Qed.

Lemma NoDup_firstn {A : Type} (k : nat) (l : list A) :
  NoDup l -> NoDup (firstn k l).
Proof.
  revert k. induction l as [|x l IH]; intros [|k] H; cbn; try constructor.
  - inversion H as [|? ? Hx Hl]; subst. intros Hin. apply Hx.
    rewrite <- (firstn_skipn k l). apply in_or_app. now left.
  - inversion H; subst. now apply IH.
Qed.

Lemma last_index_strftime_stamp (f : frame) (stamp : string) :
  last_index_strftime f = Ok stamp -> date_stamp f = VStr stamp.
Proof.
  unfold last_index_strftime, date_stamp.
  destruct (index f) as [|i is']; [discriminate|].
  destruct (last (i :: is') VNaN); try discriminate.
  intros H. now injection H as <-.
Qed.

Lemma chart_layout (f : frame) (ticker : string) (fig : figure) :
  chart f ticker = Ok fig ->
  option_map title (fig_layout fig) = Some (chart_title ticker).
Proof.
  unfold chart.
  destruct (get_column "Open" f); [|discriminate].
  destruct (get_column "High" f); [|discriminate].
  destruct (get_column "Low" f); [|discriminate].
  destruct (get_column "Close" f); [|discriminate].
  cbn [and_then].
  destruct (has_column "BB_Upper" f && has_column "BB_Lower" f).
  - destruct (get_column "BB_Upper" f); [|discriminate].
    destruct (get_column "BB_Lower" f); [|discriminate].
    cbn [and_then].
    destruct (has_column "MA_20" f).
    + destruct (get_column "MA_20" f); [|discriminate].
      cbn [and_then]. intros H. now injection H as <-.
    + cbn [and_then]. intros H. now injection H as <-.
  - cbn [and_then].
    destruct (has_column "MA_20" f).
    + destruct (get_column "MA_20" f); [|discriminate].
      cbn [and_then]. intros H. now injection H as <-.
    + cbn [and_then]. intros H. now injection H as <-.
Qed.

Lemma warnings_app (a b : list event) : warnings (a ++ b) = warnings a ++ warnings b.
Proof. unfold warnings. now rewrite flat_map_app. Qed.

Lemma successes_app (a b : list event) :
  successes (a ++ b) = successes a ++ successes b.
Proof. unfold successes. now rewrite flat_map_app. Qed.

Lemma chart_titles_app (a b : list event) :
  chart_titles (a ++ b) = chart_titles a ++ chart_titles b.
Proof. unfold chart_titles. now rewrite flat_map_app. Qed.

Lemma export_files_app (a b : list event) :
  export_files (a ++ b) = export_files a ++ export_files b.
Proof. unfold export_files. now rewrite flat_map_app. Qed.

Lemma has_column_in_labels (name : string) (f : frame) :
  has_column name f = true -> In (flat name) (labels f).
Proof.
  unfold has_column, has_label, labels. rewrite existsb_exists.
  intros [c [Hc E]]. apply label_eqb_eq in E. rewrite <- E. now apply in_map.
Qed.

Lemma row_get_absent (name : string) (r : row) :
  ~ In name (map fst r) -> row_get name r = None.
Proof.
  intros H. unfold row_get. destruct (find _ r) as [c|] eqn:E; [|reflexivity].
  apply find_some in E. destruct E as [Hc E]. apply String.eqb_eq in E.
  exfalso. apply H. rewrite <- E. now apply in_map.
Qed.

Lemma derived_not_price (name : string) :
  In name derived_columns -> In name price_columns -> False.
Proof.
  cbn [derived_columns price_columns In]. intros Hd Hp.
  repeat (destruct Hd as [Hd|Hd];
          [subst name;
           repeat (destruct Hp as [Hp|Hp]; [discriminate Hp|]); exact Hp|]).
  exact Hd.
Qed.

Section TurnProps.

Variable yf_download : string -> date -> date -> string -> outcome frame.
Variables s e : date.

(** X9. The outcome of one turn of the loop is settled by the frame
    the fetcher brought.  An empty frame leaves the aggregation list as
    it was.  A frame with rows whose last index entry is a date adds
    one row, stamped with that date and with the ticker.  A frame with
    rows whose last index entry is not a date makes the turn, and with
    it the run, fail: that is the only way a turn can fail. *)
Theorem turn_outcome_follows_the_frame (aggregated_data : list row)
        (ticker : string) (w : world) :
  if frame_empty (fetched yf_download ticker s e) then
    fst (process_ticker yf_download s e aggregated_data ticker w)
    = Ok aggregated_data
  else
    match last (index (fetched yf_download ticker s e)) VNaN with
    | VDate d =>
        exists latest_row,
          fst (process_ticker yf_download s e aggregated_data ticker w)
          = Ok (aggregated_data ++ [latest_row])
          /\ row_get "Date" latest_row = Some (VStr (strftime d))
          /\ row_get "Ticker" latest_row = Some (VStr ticker)
    | _ =>
        exists err,
          fst (process_ticker yf_download s e aggregated_data ticker w)
          = Raise err
    end.
Proof.
  destruct (process_ticker_run yf_download s e aggregated_data ticker w)
    as [w' [E _]].
  rewrite E. cbn [fst]. unfold turn_result.
  destruct (frame_empty (fetched yf_download ticker s e)) eqn:Hne; [reflexivity|].
  destruct (fetched_chart yf_download s e ticker Hne) as [fig Hfig].
  rewrite Hfig.
  apply frame_not_empty_index in Hne.
  unfold ticker_row, iloc_last, last_index_strftime.
  destruct (index (fetched yf_download ticker s e)) as [|i is'] eqn:Ei;
    [congruence|].
  destruct (last (i :: is') VNaN) as [q| |str|d]; cbn [and_then];
    try (eexists; reflexivity).
  eexists. split; [reflexivity|]. split.
  - rewrite row_get_set_other by (apply name_neq; reflexivity).
    apply row_get_set_same.
  - apply row_get_set_same.
Qed.

Lemma short_fetch_is_reshaped (ticker : string) :
  frame_empty (fetched yf_download ticker s e) = false ->
  frame_len (fetched yf_download ticker s e) < 20 ->
  exists raw, reshape raw = Ok (fetched yf_download ticker s e).
Proof.
  intros Hne Hlen.
  destruct (fetched_not_empty yf_download s e ticker Hne)
    as [raw [f [_ [_ [Hr He]]]]].
  exists raw. rewrite Hr. f_equal.
  assert (Hi := proj1 (enrich_index f)). rewrite He in Hi. cbn [snd] in Hi.
  unfold frame_len in Hlen. rewrite Hi in Hlen. fold (frame_len f) in Hlen.
  unfold enrich in He. apply Nat.ltb_lt in Hlen. rewrite Hlen in He.
  congruence.
Qed.

(** X10. A ticker whose fetch brought rows, but fewer than 20, is
    charted and aggregated without indicators: its chart is the
    candlestick alone, and its row has no field under any of the nine
    derived names. *)
Theorem short_series_has_no_indicators (aggregated_data : list row)
        (ticker : string) (d : date) (w : world) :
  frame_empty (fetched yf_download ticker s e) = false ->
  frame_len (fetched yf_download ticker s e) < 20 ->
  last (index (fetched yf_download ticker s e)) VNaN = VDate d ->
  exists w' evs latest_row fig,
    process_ticker yf_download s e aggregated_data ticker w
    = (Ok (aggregated_data ++ [latest_row]), w')
    /\ trace w' = trace w ++ evs
    /\ charts evs = [fig]
    /\ map trace_name (fig_data fig) = [ticker]
    /\ forall name, In name derived_columns -> row_get name latest_row = None.
Proof.
  intros Hne Hlen Hlast.
  destruct (short_fetch_is_reshaped ticker Hne Hlen) as [raw Hr].
  destruct (reshape_shape raw _ Hr) as [_ [Hlab [Hhas _]]].
  set (f := fetched yf_download ticker s e) in *.
  assert (Hnone : forall name, In name derived_columns -> has_column name f = false).
  { intros name Hin. destruct (has_column name f) eqn:E; [|reflexivity].
    apply has_column_in_labels in E. destruct (Hlab _ E) as [n [Hn En]].
    unfold flat in En. injection En as ->. exfalso.
    exact (derived_not_price _ Hin Hn). }
  destruct (has_column_get "Open" f) as [open Ho]; [apply Hhas; cbn; tauto|].
  destruct (has_column_get "High" f) as [high Hh]; [apply Hhas; cbn; tauto|].
  destruct (has_column_get "Low" f) as [low Hl]; [apply Hhas; cbn; tauto|].
  destruct (has_column_get "Close" f) as [close Hc]; [apply Hhas; cbn; tauto|].
  destruct (chart_of_candle_columns f ticker open high low close Ho Hh Hl Hc)
    as [overlays [Efig [Hn _]]].
  assert (Hov : overlays = []).
  { unfold overlay_names in Hn.
    rewrite (Hnone "BB_Upper"%string), (Hnone "MA_20"%string) in Hn
      by (cbn; tauto).
    cbn in Hn. now destruct overlays. }
  subst overlays.
  destruct (process_ticker_run yf_download s e aggregated_data ticker w)
    as [w' [E [T _]]].
  assert (Hne' := Hne). apply frame_not_empty_index in Hne'.
  unfold turn_result, turn_events in *. fold f in E, T.
  rewrite Hne in E, T. unfold ticker_row, iloc_last, last_index_strftime in *.
  destruct (index f) as [|i is'] eqn:Ei; [congruence|].
  rewrite Hlast in E, T. cbn [and_then] in E, T. rewrite Efig in E, T.
  cbn [and_then] in E, T.
  do 4 eexists. split; [exact E|]. split; [exact T|].
  split; [|split].
  - cbn [charts flat_map app]. change (flat_map _ ?l) with (charts l).
    rewrite charts_app, fetch_events_charts. reflexivity.
  - reflexivity.
  - intros name Hin.
    assert (N1 : name <> "Ticker"%string)
      by (intros ->; cbn in Hin; intuition discriminate).
    assert (N2 : name <> "Date"%string)
      by (intros ->; cbn in Hin; intuition discriminate).
    rewrite !row_get_set_other by assumption.
    apply row_get_absent. rewrite map_map. cbn [fst].
    intros Hname. apply in_map_iff in Hname. destruct Hname as [c [Ec Hc']].
    destruct (Hlab (fst c)) as [n [Hp En]]; [unfold labels; now apply in_map|].
    rewrite En in Ec. cbn in Ec. subst n.
    exact (derived_not_price _ Hin Hp).
Qed.

End TurnProps.

(** ** The whole run *)

Lemma column_of_rows (name : string) (rows : list row) :
  forall vals,
    map (row_get name) rows = map Some vals ->
    map (fun r => match row_get name r with
                  | Some v => v
                  | None => VNaN
                  end) rows
    = vals.
Proof.
  induction rows as [|r rows IH]; intros [|v vals] H; try discriminate;
    [reflexivity|].
  cbn [map] in *. injection H as Hr H. rewrite Hr. f_equal. now apply IH.
Qed.

Lemma frame_of_rows_rectangular (rows : list row) (c : label * list value) :
  In c (columns (frame_of_rows rows)) -> length (snd c) = length rows.
Proof.
  unfold frame_of_rows. cbn [columns]. intros H. apply in_map_iff in H.
  destruct H as [name [<- _]]. cbn [snd]. apply length_map.
Qed.

Section RunProps.

Variable yf_download : string -> date -> date -> string -> outcome frame.
Variables s e : date.

Lemma fetch_events_quiet (ticker : string) :
  chart_titles (fetch_events yf_download ticker s e) = []
  /\ export_files (fetch_events yf_download ticker s e) = []
  /\ successes (fetch_events yf_download ticker s e) = [].
Proof.
  unfold fetch_events.
  destruct (try_block yf_download (ticker ++ ".NS")%string s e); now repeat split.
Qed.

Lemma turn_events_quiet (ticker : string) :
  export_files (turn_events yf_download s e ticker) = []
  /\ successes (turn_events yf_download s e ticker) = [].
Proof.
  unfold turn_events.
  destruct (fetch_events_quiet ticker) as [_ [Hx Hs]].
  split.
  - cbn [export_files flat_map app]. change (flat_map _ ?l) with (export_files l).
    rewrite export_files_app, Hx.
    destruct (frame_empty _); [reflexivity|].
    destruct (ticker_row _ _); [|reflexivity]. now destruct (chart _ _).
  - cbn [successes flat_map app]. change (flat_map _ ?l) with (successes l).
    rewrite successes_app, Hs.
    destruct (frame_empty _); [reflexivity|].
    destruct (ticker_row _ _); [|reflexivity]. now destruct (chart _ _).
Qed.

Lemma loop_events_quiet (tickers : list string) :
  forall aggregated_data,
    export_files (loop_events yf_download s e aggregated_data tickers) = []
    /\ successes (loop_events yf_download s e aggregated_data tickers) = [].
Proof.
  induction tickers as [|t tickers IH]; intros agg; [now split|].
  cbn [loop_events]. rewrite export_files_app, successes_app.
  destruct (turn_events_quiet t) as [-> ->]. cbn [app].
  destruct (turn_result yf_download s e agg t); [apply IH | now split].
Qed.

Lemma turn_chart_titles (aggregated_data rows : list row) (ticker : string) :
  turn_result yf_download s e aggregated_data ticker = Ok rows ->
  chart_titles (turn_events yf_download s e ticker)
  = if frame_empty (fetched yf_download ticker s e) then []
    else [chart_title ticker].
Proof.
  unfold turn_result, turn_events. intros H.
  cbn [chart_titles flat_map app]. change (flat_map _ ?l) with (chart_titles l).
  rewrite chart_titles_app, (proj1 (fetch_events_quiet ticker)). cbn [app].
  destruct (frame_empty _); [reflexivity|].
  destruct (ticker_row _ _); cbn [and_then] in H; [|discriminate].
  destruct (chart _ _) as [fig|err] eqn:Ec; cbn [and_then] in H; [|discriminate].
  apply chart_layout in Ec. cbn [chart_titles flat_map app].
  destruct (fig_layout fig) as [l|]; [|discriminate].
  cbn in Ec. now injection Ec as ->.
Qed.

Lemma loop_chart_titles (tickers : list string) :
  forall aggregated_data rows,
    loop_result yf_download s e aggregated_data tickers = Ok rows ->
    chart_titles (loop_events yf_download s e aggregated_data tickers)
    = map chart_title (with_data yf_download s e tickers).
Proof.
  induction tickers as [|t tickers IH]; intros agg rows H; [reflexivity|].
  cbn [loop_result loop_events with_data filter] in *.
  destruct (turn_result yf_download s e agg t) as [agg'|err] eqn:Et;
    [|discriminate].
  rewrite chart_titles_app, (turn_chart_titles _ _ _ Et), (IH _ _ H).
  now destruct (frame_empty _).
Qed.

Lemma loop_downloads (tickers : list string) :
  forall aggregated_data,
  exists k,
    downloads (loop_events yf_download s e aggregated_data tickers)
    = map fetch_key (firstn k tickers)
    /\ forall rows,
        loop_result yf_download s e aggregated_data tickers = Ok rows ->
        firstn k tickers = tickers.
Proof.
  induction tickers as [|t tickers IH]; intros agg.
  - exists 0. now split.
  - cbn [loop_events loop_result].
    rewrite downloads_app, turn_events_downloads.
    destruct (turn_result yf_download s e agg t) as [agg'|err].
    + destruct (IH agg') as [k [Hk Hall]].
      exists (S k). cbn [firstn map app]. split.
      * now rewrite Hk.
      * intros rows H. f_equal. now apply (Hall rows).
    + exists 1. cbn [firstn map app]. split; [reflexivity | discriminate].
Qed.

Lemma loop_all_empty (tickers : list string) :
  forall aggregated_data,
    (forall t, In t tickers -> frame_empty (fetched yf_download t s e) = true) ->
    loop_result yf_download s e aggregated_data tickers = Ok aggregated_data
    /\ charts (loop_events yf_download s e aggregated_data tickers) = []
    /\ forall t, In t tickers ->
                 In (no_data_text t)
                    (warnings (loop_events yf_download s e aggregated_data tickers)).
Proof.
  induction tickers as [|t tickers IH]; intros agg H.
  - repeat split. contradiction.
  - assert (Ht := H t (or_introl eq_refl)).
    assert (R : turn_result yf_download s e agg t = Ok agg)
      by (unfold turn_result; now rewrite Ht).
    destruct (IH agg) as [Hr [Hc Hw]]; [intros t' Hin; apply H; now right|].
    cbn [loop_result loop_events]. rewrite R. split; [exact Hr|]. split.
    + rewrite charts_app, Hc, app_nil_r.
      unfold turn_events. rewrite Ht. cbn [charts flat_map app].
      change (flat_map _ ?l) with (charts l).
      now rewrite charts_app, fetch_events_charts.
    + intros t' [<-|Hin]; rewrite warnings_app; apply in_or_app.
      * left. unfold turn_events. rewrite Ht.
        cbn [warnings flat_map app]. change (flat_map _ ?l) with (warnings l).
        rewrite warnings_app. apply in_or_app. right. now left.
      * right. now apply Hw.
Qed.

Lemma loop_result_stamps (tickers : list string) :
  forall aggregated_data rows',
    loop_result yf_download s e aggregated_data tickers = Ok rows' ->
    exists rows,
      rows' = aggregated_data ++ rows
      /\ map (row_get "Date") rows
         = map Some (map (fun t => date_stamp (fetched yf_download t s e))
                         (with_data yf_download s e tickers)).
Proof.
  induction tickers as [|t tickers IH]; intros agg rows' H.
  - cbn in H. injection H as <-. exists []. cbn. now rewrite app_nil_r.
  - cbn [loop_result with_data filter] in *.
    unfold turn_result in H.
    destruct (frame_empty (fetched yf_download t s e)) eqn:Hne; cbn [negb].
    + now apply IH.
    + unfold ticker_row in H.
      destruct (iloc_last _) as [latest_row|err]; cbn [and_then] in H;
        [|discriminate].
      destruct (last_index_strftime _) as [stamp|err] eqn:Es;
        cbn [and_then] in H; [|discriminate].
      destruct (chart _ _) as [fig|err]; cbn [and_then] in H; [|discriminate].
      destruct (IH _ _ H) as [rows [E T]].
      eexists (_ :: rows). split.
      * rewrite E. now rewrite <- app_assoc.
      * cbn [map]. rewrite T. f_equal.
        rewrite row_get_set_other by (apply name_neq; reflexivity).
        rewrite row_get_set_same. f_equal.
        symmetry. now apply last_index_strftime_stamp.
Qed.

(** X11. In a run on an upload with a Ticker column the data source is
    asked once for each ticker of the processed list, in the order of
    the list and under the key of the ticker, up to the turn at which
    the run fails if it does; no key is asked for twice, however often
    a ticker occurs in the upload. *)
Theorem one_request_per_ticker (tickers_df : csv_table)
        (column : list (option string)) (save_filename : string) (w : world) :
  csv_column "Ticker" tickers_df = Some column ->
  exists o w' evs k,
    main yf_download (Some tickers_df) s e save_filename w = (o, w')
    /\ trace w' = trace w ++ evs
    /\ downloads evs = map fetch_key (firstn k (unique (dropna column)))
    /\ NoDup (downloads evs)
    /\ (o = Ok tt -> downloads evs = map fetch_key (unique (dropna column))).
Proof.
  intros Hcol.
  destruct (main_run yf_download s e tickers_df column save_filename w Hcol)
    as [w' [E T]].
  destruct (loop_downloads (unique (dropna column)) []) as [k [Hk Hall]].
  do 3 eexists. exists k. split; [exact E|]. split; [exact T|].
  assert (D : downloads
                ([StTitle title_text; StSidebarHeader "Options";
                  StWrite (found_text (unique (dropna column)))]
                   ++ loop_events yf_download s e [] (unique (dropna column))
                   ++ match loop_result yf_download s e [] (unique (dropna column)) with
                      | Ok rows => export_events rows save_filename
                      | Raise _ => []
                      end)
              = map fetch_key (firstn k (unique (dropna column)))).
  { rewrite !downloads_app, Hk. cbn [downloads flat_map app].
    destruct (loop_result _ _ _ _ _) as [[|row rows]|err];
      cbn; now rewrite app_nil_r. }
  rewrite D. split; [reflexivity|]. split.
  - apply NoDup_map_injective; [exact fetch_key_inj|].
    apply NoDup_firstn, unique_NoDup.
  - intros Ho.
    destruct (loop_result yf_download s e [] (unique (dropna column)))
      as [rows|err] eqn:R; [|discriminate Ho].
    now rewrite (Hall rows eq_refl).
Qed.

(** X12. When the run ends normally, the charts it rendered are, in
    order, one for each ticker of the processed list whose fetch
    brought rows, each titled after its ticker. *)
Theorem one_chart_per_ticker_with_data (tickers_df : csv_table)
        (column : list (option string)) (save_filename : string) (w : world) :
  csv_column "Ticker" tickers_df = Some column ->
  fst (main yf_download (Some tickers_df) s e save_filename w) = Ok tt ->
  exists evs,
    trace (snd (main yf_download (Some tickers_df) s e save_filename w))
    = trace w ++ evs
    /\ chart_titles evs
       = map chart_title (with_data yf_download s e (unique (dropna column))).
Proof.
  intros Hcol Hok.
  destruct (main_run yf_download s e tickers_df column save_filename w Hcol)
    as [w' [E T]].
  rewrite E in *. cbn [fst snd] in *.
  destruct (loop_result yf_download s e [] (unique (dropna column)))
    as [rows|err] eqn:R; [|discriminate Hok].
  eexists. split; [exact T|].
  rewrite !chart_titles_app, (loop_chart_titles _ _ _ R).
  cbn [chart_titles flat_map app].
  destruct rows as [|row rows]; cbn; now rewrite app_nil_r.
Qed.

(** X13. When the fetch of every ticker of the upload is empty, the run
    ends normally after asking for each ticker once: it renders no
    chart, offers no download and shows no success notice, and for each
    ticker it shows the notice that no data was found. *)
Theorem run_without_data_offers_nothing (tickers_df : csv_table)
        (column : list (option string)) (save_filename : string) (w : world) :
  csv_column "Ticker" tickers_df = Some column ->
  (forall t, In (Some t) column ->
             frame_empty (fetched yf_download t s e) = true) ->
  exists w' evs,
    main yf_download (Some tickers_df) s e save_filename w = (Ok tt, w')
    /\ trace w' = trace w ++ evs
    /\ downloads evs = map fetch_key (unique (dropna column))
    /\ charts evs = []
    /\ exports evs = []
    /\ successes evs = []
    /\ forall t, In (Some t) column -> In (no_data_text t) (warnings evs).
Proof.
  intros Hcol Hempty.
  destruct (main_run yf_download s e tickers_df column save_filename w Hcol)
    as [w' [E T]].
  destruct (loop_all_empty (unique (dropna column)) []) as [R [Hc Hw]].
  { intros t Hin. apply Hempty. now apply dropna_In, unique_In. }
  destruct (loop_downloads (unique (dropna column)) []) as [k [Hk Hall]].
  rewrite R in E, T. cbn [export_events] in T. rewrite app_nil_r in T.
  exists w'. eexists. split; [exact E|]. split; [exact T|].
  split; [|split; [|split; [|split]]].
  - rewrite downloads_app, Hk, (Hall [] R). reflexivity.
  - rewrite charts_app, Hc. reflexivity.
  - rewrite exports_app, loop_events_exports. reflexivity.
  - rewrite successes_app, (proj2 (loop_events_quiet _ _)). reflexivity.
  - intros t Hin. rewrite warnings_app. apply in_or_app. right.
    apply Hw. now apply unique_In, dropna_In.
Qed.

(** X14. Whenever a run offers a download, it offers it under the file
    name the user chose and with the spreadsheet MIME type, and shows
    the success notice, and the workbook has one sheet, "Aggregated
    Results", in which every column has one cell for each ticker whose
    fetch brought rows and the Date column holds, in that order, the
    stamp of the last index entry of each of those frames. *)
Theorem offered_workbook_shape (tickers_df : csv_table)
        (column : list (option string)) (save_filename : string) (w : world) :
  csv_column "Ticker" tickers_df = Some column ->
  exists o w' evs,
    main yf_download (Some tickers_df) s e save_filename w = (o, w')
    /\ trace w' = trace w ++ evs
    /\ export_files evs = map (fun _ => (save_filename, xlsx_mime)) (exports evs)
    /\ length (successes evs) = length (exports evs)
    /\ forall wb,
        In wb (exports evs) ->
        sheet_name wb = "Aggregated Results"%string
        /\ (forall c, In c (sheet_columns wb) ->
                      length (snd c)
                      = length (with_data yf_download s e (unique (dropna column))))
        /\ sheet_column "Date" wb
           = Some (map (fun t => date_stamp (fetched yf_download t s e))
                       (with_data yf_download s e (unique (dropna column)))).
Proof.
  intros Hcol.
  destruct (main_run yf_download s e tickers_df column save_filename w Hcol)
    as [w' [E T]].
  do 3 eexists. split; [exact E|]. split; [exact T|].
  rewrite !export_files_app, !successes_app, !exports_app.
  rewrite loop_events_exports.
  destruct (loop_events_quiet (unique (dropna column)) []) as [-> ->].
  cbn [export_files successes exports flat_map app].
  destruct (loop_result yf_download s e [] (unique (dropna column)))
    as [rows'|err] eqn:R; [|repeat split; contradiction].
  destruct (loop_result_tickers yf_download s e _ _ _ R) as [rows1 [E1 HT]].
  destruct (loop_result_stamps _ _ _ R) as [rows2 [E2 HD]].
  cbn [app] in E1, E2. subst rows'. subst rows2.
  destruct rows1 as [|row rows]; [repeat split; contradiction|].
  cbn [export_events export_files successes exports flat_map app map length].
  split; [reflexivity|]. split; [reflexivity|].
  intros wb [<-|[]]. cbn [sheet_name sheet_columns].
  split; [reflexivity|]. split.
  - intros c Hc. rewrite (frame_of_rows_rectangular _ _ Hc).
    unfold row_tickers in HT. apply (f_equal (@length _)) in HT.
    now rewrite !length_map in HT.
  - destruct (with_data yf_download s e (unique (dropna column)))
      as [|t tickers] eqn:Ew; [discriminate|].
    assert (Hrow : row_get "Date" row
                   = Some (date_stamp (fetched yf_download t s e)))
      by (cbn [map] in HD; now injection HD).
    rewrite (sheet_column_of_rows "Date" row rows _ Hrow).
    f_equal. now apply column_of_rows.
Qed.

End RunProps.

(** ** Enriched and short series in the aggregation *)

Lemma enrich_ok_columns (f f' : frame) (name : string) :
  20 <= frame_len f ->
  enrich f = (Ok tt, f') ->
  In name derived_columns ->
  has_column name f' = true.
Proof.
  intros Hlen He Hin. unfold enrich in He.
  assert (E : (frame_len f <? 20) = false) by (apply Nat.ltb_ge; lia).
  rewrite E in He.
  destruct (get_floats "Close" f) as [close|err]; [|discriminate He].
  destruct (adx_of_frame _) as [series|err]; [|discriminate He].
  injection He as <-. unfold put_floats at 1.
  destruct (string_dec name "ADX") as [->|N]; [apply has_column_set_same|].
  rewrite has_column_set_other by exact N.
  apply has_column_with_close_indicators.
  cbn [derived_columns In] in *. intuition congruence.
Qed.

Lemma row_get_iloc (name : string) (cols : list (label * list value)) :
  existsb (fun c => label_eqb (fst c) (flat name)) cols = true ->
  row_get name (map (fun c => (fst (fst c), last (snd c) VNaN)) cols) <> None.
Proof.
  unfold row_get. induction cols as [|[[n deeper] vals] cols IH];
    cbn [existsb map find fst snd]; [discriminate|].
  destruct (label_eqb (n, deeper) (flat name)) eqn:E; cbn [orb].
  - apply label_eqb_eq in E. unfold flat in E. injection E as -> _. intros _.
    rewrite String.eqb_refl. discriminate.
  - intros H. destruct (String.eqb n name); [discriminate|].
    now apply IH.
Qed.

Lemma find_named_column_inv (name : string) (g : string -> list value)
      (names : list string) (c : label * list value) :
  find (fun c => label_eqb (fst c) (flat name)) (map (fun n => (flat n, g n)) names)
  = Some c ->
  snd c = g name.
Proof.
  intros H. apply find_some in H. destruct H as [Hin E].
  apply in_map_iff in Hin. destruct Hin as [n [<- _]]. cbn [fst snd] in *.
  apply label_eqb_eq in E. unfold flat in E. now injection E as ->.
Qed.

Section AggregatedSeries.

Variable yf_download : string -> date -> date -> string -> outcome frame.
Variables s e : date.

Lemma long_fetch_has_indicators (ticker : string) (name : string) :
  frame_empty (fetched yf_download ticker s e) = false ->
  20 <= frame_len (fetched yf_download ticker s e) ->
  In name derived_columns ->
  has_column name (fetched yf_download ticker s e) = true.
Proof.
  intros Hne Hlen Hin.
  destruct (fetched_not_empty yf_download s e ticker Hne)
    as [raw [f [_ [_ [_ He]]]]].
  apply (enrich_ok_columns f); [|exact He | exact Hin].
  assert (Hi := proj1 (enrich_index f)). rewrite He in Hi. cbn [snd] in Hi.
  unfold frame_len in *. now rewrite <- Hi.
Qed.

(** X15. A ticker whose fetch brought at least 20 rows is always
    charted with the three overlays and aggregated with all nine
    derived fields: a fetch on which the enricher had failed would
    have come back empty. *)
Theorem enriched_series_has_every_indicator (aggregated_data : list row)
        (ticker : string) (d : date) (w : world) :
  frame_empty (fetched yf_download ticker s e) = false ->
  20 <= frame_len (fetched yf_download ticker s e) ->
  last (index (fetched yf_download ticker s e)) VNaN = VDate d ->
  exists w' evs latest_row fig,
    process_ticker yf_download s e aggregated_data ticker w
    = (Ok (aggregated_data ++ [latest_row]), w')
    /\ trace w' = trace w ++ evs
    /\ charts evs = [fig]
    /\ map trace_name (fig_data fig)
       = [ticker; "BB Upper"; "BB Lower"; "MA 20"]%string
    /\ forall name, In name derived_columns -> row_get name latest_row <> None.
Proof.
  intros Hne Hlen Hlast.
  assert (Hall := fun name => long_fetch_has_indicators ticker name Hne Hlen).
  destruct (fetched_not_empty yf_download s e ticker Hne)
    as [raw [f0 [_ [_ [Hr He]]]]].
  set (f := fetched yf_download ticker s e) in *.
  assert (Hhas : forall name, In name price_columns -> has_column name f = true).
  { intros name Hin. replace f with (snd (enrich f0)) by now rewrite He.
    apply enrich_keeps_column.
    - intros Hd. exact (derived_not_price _ Hd Hin).
    - exact (reshape_has_column raw f0 name Hr Hin). }
  destruct (has_column_get "Open" f) as [open Ho]; [apply Hhas; cbn; tauto|].
  destruct (has_column_get "High" f) as [high Hh]; [apply Hhas; cbn; tauto|].
  destruct (has_column_get "Low" f) as [low Hl]; [apply Hhas; cbn; tauto|].
  destruct (has_column_get "Close" f) as [close Hc]; [apply Hhas; cbn; tauto|].
  destruct (chart_of_candle_columns f ticker open high low close Ho Hh Hl Hc)
    as [overlays [Efig [Hn _]]].
  assert (Hov : map trace_name overlays = ["BB Upper"; "BB Lower"; "MA 20"]%string).
  { rewrite Hn. unfold overlay_names.
    rewrite (Hall "BB_Upper"%string), (Hall "BB_Lower"%string),
      (Hall "MA_20"%string) by (cbn; tauto).
    reflexivity. }
  destruct (process_ticker_run yf_download s e aggregated_data ticker w)
    as [w' [E [T _]]].
  assert (Hne' := Hne). apply frame_not_empty_index in Hne'.
  unfold turn_result, turn_events in *. fold f in E, T.
  rewrite Hne in E, T. unfold ticker_row, iloc_last, last_index_strftime in *.
  destruct (index f) as [|i is'] eqn:Ei; [congruence|].
  rewrite Hlast in E, T. cbn [and_then] in E, T. rewrite Efig in E, T.
  cbn [and_then] in E, T.
  do 4 eexists. split; [exact E|]. split; [exact T|].
  split; [|split].
  - cbn [charts flat_map app]. change (flat_map _ ?l) with (charts l).
    rewrite charts_app, fetch_events_charts. reflexivity.
  - cbn [fig_data map trace_name]. now rewrite Hov.
  - intros name Hin.
    assert (N1 : name <> "Ticker"%string)
      by (intros ->; cbn in Hin; intuition discriminate).
    assert (N2 : name <> "Date"%string)
      by (intros ->; cbn in Hin; intuition discriminate).
    rewrite !row_get_set_other by assumption.
    apply row_get_iloc. exact (Hall name Hin).
Qed.

Lemma short_row_has_no_indicators (ticker : string) (latest_row : row)
      (name : string) :
  frame_empty (fetched yf_download ticker s e) = false ->
  frame_len (fetched yf_download ticker s e) < 20 ->
  ticker_row (fetched yf_download ticker s e) ticker = Ok latest_row ->
  In name derived_columns ->
  row_get name latest_row = None.
Proof.
  intros Hne Hlen Hrow Hin.
  destruct (short_fetch_is_reshaped yf_download s e ticker Hne Hlen) as [raw Hr].
  destruct (reshape_shape raw _ Hr) as [_ [Hlab _]].
  unfold ticker_row, iloc_last in Hrow.
  destruct (index (fetched yf_download ticker s e)); [discriminate|].
  cbn [and_then] in Hrow.
  destruct (last_index_strftime _); [|discriminate].
  cbn [and_then] in Hrow. injection Hrow as <-.
  assert (N1 : name <> "Ticker"%string)
    by (intros ->; cbn in Hin; intuition discriminate).
  assert (N2 : name <> "Date"%string)
    by (intros ->; cbn in Hin; intuition discriminate).
  rewrite !row_get_set_other by assumption.
  apply row_get_absent. rewrite map_map. cbn [fst].
  intros Hname. apply in_map_iff in Hname. destruct Hname as [c [Ec Hc']].
  destruct (Hlab (fst c)) as [n [Hp En]]; [unfold labels; now apply in_map|].
  rewrite En in Ec. cbn in Ec. subst n.
  exact (derived_not_price _ Hin Hp).
Qed.

Lemma loop_result_rows (tickers : list string) :
  forall aggregated_data rows',
    loop_result yf_download s e aggregated_data tickers = Ok rows' ->
    exists rows,
      rows' = aggregated_data ++ rows
      /\ Forall2 (fun latest_row t =>
                    ticker_row (fetched yf_download t s e) t = Ok latest_row)
                 rows (with_data yf_download s e tickers).
Proof.
  induction tickers as [|t tickers IH]; intros agg rows' H.
  - cbn in H. injection H as <-. exists []. cbn. rewrite app_nil_r.
    split; [reflexivity | constructor].
  - cbn [loop_result with_data filter] in *.
    unfold turn_result in H.
    destruct (frame_empty (fetched yf_download t s e)) eqn:Hne; cbn [negb].
    + now apply IH.
    + destruct (ticker_row _ _) as [latest_row|err] eqn:Er; cbn [and_then] in H;
        [|discriminate].
      destruct (chart _ _) as [fig|err]; cbn [and_then] in H; [|discriminate].
      destruct (IH _ _ H) as [rows [E T]].
      exists (latest_row :: rows). split.
      * rewrite E. now rewrite <- app_assoc.
      * now constructor.
Qed.

Lemma short_rows_lookup (rows : list row) (tickers : list string)
      (name : string) (i : nat) (t : string) :
  Forall2 (fun latest_row t =>
             ticker_row (fetched yf_download t s e) t = Ok latest_row)
          rows tickers ->
  nth_error tickers i = Some t ->
  frame_empty (fetched yf_download t s e) = false ->
  frame_len (fetched yf_download t s e) < 20 ->
  In name derived_columns ->
  nth_error (map (fun r => match row_get name r with
                           | Some v => v
                           | None => VNaN
                           end) rows) i
  = Some VNaN.
Proof.
  intros HF. revert i. induction HF as [|r t' rs ts Hr HF IH];
    intros i Ht Hne Hlen Hname.
  - destruct i; discriminate.
  - destruct i as [|i]; cbn [nth_error map] in *.
    + injection Ht as ->.
      now rewrite (short_row_has_no_indicators t r name Hne Hlen Hr Hname).
    + now apply IH.
Qed.

(** X16. In a workbook that a run offers, the line of a ticker whose
    fetch brought fewer than 20 rows has no value in any derived column
    the workbook has: such a ticker is exported with its prices
    only. *)
Theorem short_series_cells_are_empty (tickers_df : csv_table)
        (column : list (option string)) (save_filename : string) (w : world)
        (wb : workbook) (name : string) (vs : list value) (i : nat) (t : string) :
  csv_column "Ticker" tickers_df = Some column ->
  In wb (exports (skipn (length (trace w))
                        (trace (snd (main yf_download (Some tickers_df) s e
                                          save_filename w))))) ->
  In name derived_columns ->
  sheet_column name wb = Some vs ->
  nth_error (with_data yf_download s e (unique (dropna column))) i = Some t ->
  frame_len (fetched yf_download t s e) < 20 ->
  nth_error vs i = Some VNaN.
Proof.
  intros Hcol Hwb Hname Hvs Ht Hlen.
  destruct (main_run yf_download s e tickers_df column save_filename w Hcol)
    as [w' [E T]].
  rewrite E in Hwb. cbn [snd] in Hwb. rewrite T in Hwb.
  rewrite skipn_app, skipn_all, Nat.sub_diag in Hwb. cbn [skipn app] in Hwb.
  cbn [exports flat_map app] in Hwb.
  change (flat_map _ ?l) with (exports l) in Hwb.
  rewrite exports_app, loop_events_exports in Hwb. cbn [app] in Hwb.
  destruct (loop_result yf_download s e [] (unique (dropna column)))
    as [rows'|err] eqn:R; [|contradiction].
  destruct (loop_result_rows _ _ _ R) as [rows [E' HF]].
  cbn [app] in E'. subst rows'.
  destruct rows as [|row rows]; [contradiction|].
  cbn [export_events flat_map app In] in Hwb. destruct Hwb as [<-|[]].
  unfold sheet_column, frame_of_rows in Hvs. cbn [sheet_columns columns] in Hvs.
  destruct (find _ _) as [c|] eqn:Ef; [|discriminate].
  cbn [option_map] in Hvs. injection Hvs as <-.
  rewrite (find_named_column_inv name
             (fun name => map (fun r => match row_get name r with
                                        | Some v => v
                                        | None => VNaN
                                        end) (row :: rows)) _ c Ef).
  assert (Hne : frame_empty (fetched yf_download t s e) = false).
  { apply nth_error_In in Ht. unfold with_data in Ht. apply filter_In in Ht.
    destruct Ht as [_ Ht]. now apply negb_true_iff in Ht. }
  exact (short_rows_lookup _ _ name i t HF Ht Hne Hlen Hname).
Qed.


End AggregatedSeries.

(** ** The theorems at the sample data *)

Lemma failed_fetch_is_skipped_witness :
  exists w2 evs,
    process_ticker sample_source sample_start sample_end [] "BBB" empty_world
    = (Ok [], w2)
    /\ trace w2 = trace empty_world ++ evs
    /\ charts evs = []
    /\ process_tickers sample_source sample_start sample_end [] ["BBB"; "CCC"]
                       empty_world
       = process_tickers sample_source sample_start sample_end [] ["CCC"] w2.
Proof.
  apply (failed_fetch_is_skipped sample_source sample_start sample_end
                                 "BBB" [] ["CCC"] empty_world).
  left. exists "connection reset"%string. vm_compute. reflexivity.
Defined.

Lemma stamped_date_is_the_latest_witness :
  exists latest latest_row,
    turn_result sample_source sample_start sample_end [] "AAA"
    = Ok ([] ++ [latest_row])
    /\ row_get "Date" latest_row = Some (VStr (strftime latest))
    /\ In latest (map sample_date (seq 0 30))
    /\ forall d, In d (map sample_date (seq 0 30)) -> date_leb d latest = true.
Proof.
  apply (stamped_date_is_the_latest sample_source sample_start sample_end
                                    [] "AAA" (map sample_date (seq 0 30)));
    vm_compute; reflexivity.
Defined.

Lemma sample_frames_are_dated (t : string) :
  In (Some t) [Some "AAA"; None; Some "BBB"; Some "AAA"; Some "CCC"; Some "ZZZ"] ->
  frame_empty (fetched sample_source t sample_start sample_end) = false ->
  exists ds,
    dates_of (index (fetched sample_source t sample_start sample_end)) = Some ds.
Proof.
  intros Hin H.
  repeat (destruct Hin as [Hin|Hin];
          [ try discriminate Hin; injection Hin as <-;
            first [ vm_compute in H; discriminate H
                  | eexists; vm_compute; reflexivity ]
          | ]).
  contradiction.
Qed.

Lemma export_rows_follow_upload_order_witness :
  exists o w' evs,
    main sample_source (Some sample_upload) sample_start sample_end "out.xlsx"
         empty_world
    = (o, w')
    /\ trace w' = trace empty_world ++ evs
    /\ (forall wb,
           In wb (exports evs) ->
           sheet_column "Ticker" wb = Some [VStr "AAA"; VStr "CCC"])
    /\ o = Ok tt
    /\ length (exports evs) = 1.
Proof.
  destruct (export_rows_follow_upload_order
              sample_source sample_start sample_end sample_upload
              [Some "AAA"; None; Some "BBB"; Some "AAA"; Some "CCC"; Some "ZZZ"]
              "out.xlsx" empty_world eq_refl)
    as [o [w' [evs [E [T [H1 H2]]]]]].
  exists o, w', evs. split; [exact E|]. split; [exact T|]. split; [exact H1|].
  exact (H2 sample_frames_are_dated).
Defined.

Lemma derived_columns_warm_up_witness :
  exists f',
    object (snd (calculate_indicators 0 (mkWorld [sample_series 30] []))) 0
    = Some f'
    /\ forall name k,
        In (name, k) warm_up_rows ->
        exists vs, get_column name f' = Ok vs
                   /\ length vs = length (sample_column 100 30)
                   /\ warm_up k vs.
Proof.
  apply (derived_columns_warm_up 0 (mkWorld [sample_series 30] [])
                                 (sample_series 30) (sample_column 100 30)).
  - reflexivity.
  - vm_compute. lia.
  - reflexivity.
  - exact sample_closes_positive.
Defined.

Lemma width_is_percent_of_middle_band_witness :
  exists f',
    object (snd (calculate_indicators 0 (mkWorld [sample_series 30] []))) 0
    = Some f'
    /\ width_is_ratio 100 0 f'.
Proof.
  apply (width_is_percent_of_middle_band 0 (mkWorld [sample_series 30] [])
                                         (sample_series 30) (sample_column 100 30)).
  - reflexivity.
  - vm_compute. lia.
  - reflexivity.
  - exact sample_closes_positive.
Defined.

(** ** The further properties at the sample data *)

Lemma chart_overlays_follow_the_columns_witness :
  exists fig,
    plot_candlestick_chart 0 "AAA" (mkWorld [sample_series 30] [])
    = (Ok fig, mkWorld [sample_series 30] [])
    /\ map trace_name (fig_data fig) = "AAA"%string :: overlay_names (sample_series 30)
    /\ Forall (fun t => trace_x t = index (sample_series 30)) (fig_data fig)
    /\ option_map title (fig_layout fig) = Some "Candlestick Chart for AAA"%string.
Proof.
  apply (chart_overlays_follow_the_columns
           0 "AAA" (mkWorld [sample_series 30] []) (sample_series 30)).
  - reflexivity.
  - intros name Hin. cbn [candle_columns In] in Hin.
    repeat (destruct Hin as [<-|Hin]; [reflexivity|]). contradiction.
Defined.

Lemma chart_needs_the_candle_columns_witness :
  exists missing,
    plot_candlestick_chart 0 "AAA" (mkWorld [sample_without_close] [])
    = (Raise missing, mkWorld [sample_without_close] [])
    /\ In missing candle_columns
    /\ has_column missing sample_without_close = false.
Proof.
  apply (chart_needs_the_candle_columns
           0 "AAA" (mkWorld [sample_without_close] []) sample_without_close).
  - reflexivity.
  - exists "Close"%string. split; [cbn; tauto | reflexivity].
Defined.

Lemma reshaped_frame_is_a_price_table_witness :
  index_name (sample_series 10) = Some "Date"%string
  /\ (forall l, In l (labels (sample_series 10)) ->
                exists name, In name price_columns /\ l = flat name)
  /\ (forall name, In name price_columns -> has_column name (sample_series 10) = true)
  /\ (index_name (sample_download 10 "AAA.NS") = Some "Date"%string ->
      index (sample_series 10) = index (sample_download 10 "AAA.NS")).
Proof.
  apply (reshaped_frame_is_a_price_table (sample_download 10 "AAA.NS")
                                         (sample_series 10)).
  vm_compute. reflexivity.
Defined.

Lemma incomplete_download_is_an_empty_fetch_witness :
  exists r w' err,
    fetch_stock_data sample_partial_source "AAA" sample_start sample_end empty_world
    = (Ok r, w')
    /\ object w' r = Some empty_frame
    /\ trace w'
       = trace empty_world
           ++ [YfDownload (fetch_key "AAA") sample_start sample_end "1wk";
               StWarning ("Error fetching data for " ++ fetch_key "AAA"
                            ++ ": " ++ err)%string].
Proof.
  apply (incomplete_download_is_an_empty_fetch
           sample_partial_source sample_start sample_end "AAA"
           (mkFrame (Some "Date")
                    (map (fun i => VDate (sample_date i)) (seq 0 3))
                    [(("Close", ["AAA.NS"]), sample_column 100 3);
                     (("High", ["AAA.NS"]), sample_column 105 3);
                     (("Low", ["AAA.NS"]), sample_column 95 3);
                     (("Open", ["AAA.NS"]), sample_column 99 3)])
           "Volume" empty_world).
  - reflexivity.
  - reflexivity.
  - cbn. tauto.
  - cbn. intros H.
    repeat (destruct H as [H|H]; [discriminate H|]). exact H.
Defined.

Lemma enricher_needs_the_close_column_witness :
  calculate_indicators 0 (mkWorld [sample_without_close] [])
  = (Raise "Close"%string, mkWorld [sample_without_close] []).
Proof.
  apply (enricher_needs_the_close_column
           0 (mkWorld [sample_without_close] []) sample_without_close).
  - reflexivity.
  - vm_compute. lia.
  - reflexivity.
Defined.

Lemma enricher_appends_the_nine_columns_witness :
  exists f',
    object (snd (calculate_indicators 0 (mkWorld [sample_series 30] []))) 0
    = Some f'
    /\ (forall name, In name derived_columns -> has_column name f' = true)
    /\ ((forall name, In name derived_columns ->
                      has_column name (sample_series 30) = false) ->
        labels f' = labels (sample_series 30) ++ map flat derived_columns).
Proof.
  apply (enricher_appends_the_nine_columns
           0 (mkWorld [sample_series 30] []) (sample_series 30)).
  - reflexivity.
  - vm_compute. lia.
  - vm_compute. reflexivity.
Defined.

Lemma clean_ticker_column_is_kept_witness :
  unique (dropna (map Some ["AAA"; "BBB"; "CCC"]%string))
  = ["AAA"; "BBB"; "CCC"]%string.
Proof.
  apply (clean_ticker_column_is_kept ["AAA"; "BBB"; "CCC"]%string).
  repeat constructor; cbn; intuition discriminate.
Defined.

Lemma short_series_has_no_indicators_witness :
  exists w' evs latest_row fig,
    process_ticker sample_source sample_start sample_end [] "CCC" empty_world
    = (Ok ([] ++ [latest_row]), w')
    /\ trace w' = trace empty_world ++ evs
    /\ charts evs = [fig]
    /\ map trace_name (fig_data fig) = ["CCC"%string]
    /\ forall name, In name derived_columns -> row_get name latest_row = None.
Proof.
  apply (short_series_has_no_indicators
           sample_source sample_start sample_end [] "CCC" (sample_date 9)
           empty_world).
  - vm_compute. reflexivity.
  - vm_compute. lia.
  - vm_compute. reflexivity.
Defined.

Lemma one_request_per_ticker_witness :
  exists o w' evs k,
    main sample_source (Some sample_upload) sample_start sample_end "out.xlsx"
         empty_world
    = (o, w')
    /\ trace w' = trace empty_world ++ evs
    /\ downloads evs
       = map fetch_key (firstn k ["AAA"; "BBB"; "CCC"; "ZZZ"]%string)
    /\ NoDup (downloads evs)
    /\ (o = Ok tt ->
        downloads evs = map fetch_key ["AAA"; "BBB"; "CCC"; "ZZZ"]%string).
Proof.
  apply (one_request_per_ticker
           sample_source sample_start sample_end sample_upload
           [Some "AAA"; None; Some "BBB"; Some "AAA"; Some "CCC"; Some "ZZZ"]%string
           "out.xlsx" empty_world).
  reflexivity.
Defined.

Lemma one_chart_per_ticker_with_data_witness :
  exists evs,
    trace (snd (main sample_source (Some sample_upload) sample_start sample_end
                     "out.xlsx" empty_world))
    = trace empty_world ++ evs
    /\ chart_titles evs
       = ["Candlestick Chart for AAA"; "Candlestick Chart for CCC"]%string.
Proof.
  apply (one_chart_per_ticker_with_data
           sample_source sample_start sample_end sample_upload
           [Some "AAA"; None; Some "BBB"; Some "AAA"; Some "CCC"; Some "ZZZ"]%string
           "out.xlsx" empty_world).
  - reflexivity.
  - vm_compute. reflexivity.
Defined.

Lemma run_without_data_offers_nothing_witness :
  exists w' evs,
    main sample_source (Some sample_upload_without_data) sample_start sample_end
         "out.xlsx" empty_world
    = (Ok tt, w')
    /\ trace w' = trace empty_world ++ evs
    /\ downloads evs = map fetch_key ["ZZZ"; "BBB"]%string
    /\ charts evs = []
    /\ exports evs = []
    /\ successes evs = []
    /\ forall t, In (Some t) [Some "ZZZ"; None; Some "BBB"; Some "ZZZ"]%string ->
                 In (no_data_text t) (warnings evs).
Proof.
  apply (run_without_data_offers_nothing
           sample_source sample_start sample_end sample_upload_without_data
           [Some "ZZZ"; None; Some "BBB"; Some "ZZZ"]%string "out.xlsx" empty_world).
  - reflexivity.
  - intros t Hin.
    repeat (destruct Hin as [Hin|Hin];
            [try discriminate Hin; injection Hin as <-; vm_compute; reflexivity|]).
    contradiction.
Defined.

Lemma offered_workbook_shape_witness :
  exists o w' evs,
    main sample_source (Some sample_upload) sample_start sample_end "out.xlsx"
         empty_world
    = (o, w')
    /\ trace w' = trace empty_world ++ evs
    /\ export_files evs = map (fun _ => ("out.xlsx"%string, xlsx_mime)) (exports evs)
    /\ length (successes evs) = length (exports evs)
    /\ forall wb,
        In wb (exports evs) ->
        sheet_name wb = "Aggregated Results"%string
        /\ (forall c, In c (sheet_columns wb) -> length (snd c) = 2)
        /\ sheet_column "Date" wb
           = Some [VStr "2023-08-08"; VStr "2023-03-08"].
Proof.
  apply (offered_workbook_shape
           sample_source sample_start sample_end sample_upload
           [Some "AAA"; None; Some "BBB"; Some "AAA"; Some "CCC"; Some "ZZZ"]%string
           "out.xlsx" empty_world).
  reflexivity.
Defined.

Lemma enriched_series_has_every_indicator_witness :
  exists w' evs latest_row fig,
    process_ticker sample_source sample_start sample_end [] "AAA" empty_world
    = (Ok ([] ++ [latest_row]), w')
    /\ trace w' = trace empty_world ++ evs
    /\ charts evs = [fig]
    /\ map trace_name (fig_data fig)
       = ["AAA"; "BB Upper"; "BB Lower"; "MA 20"]%string
    /\ forall name, In name derived_columns -> row_get name latest_row <> None.
Proof.
  apply (enriched_series_has_every_indicator
           sample_source sample_start sample_end [] "AAA" (sample_date 29)
           empty_world).
  - vm_compute. reflexivity.
  - vm_compute. lia.
  - vm_compute. reflexivity.
Defined.

Lemma short_series_cells_are_empty_witness :
  nth_error sample_ma_20_cells 1 = Some VNaN.
Proof.
  apply (short_series_cells_are_empty
           sample_source sample_start sample_end sample_upload
           [Some "AAA"; None; Some "BBB"; Some "AAA"; Some "CCC"; Some "ZZZ"]%string
           "out.xlsx" empty_world sample_workbook "MA_20" sample_ma_20_cells
           1 "CCC").
  - reflexivity.
  - vm_compute. left. reflexivity.
  - cbn. tauto.
  - vm_compute. reflexivity.
  - vm_compute. reflexivity.
  - vm_compute. lia.
Defined.
